(** * Hydration helpers of the Vue front-end template

    A shallow embedding of the JavaScript helpers of the repository:
    the ISO date parser, the string coercion engine, the dynamic
    import resolver and the script / stylesheet loaders of
    [helpers/util.js] (its text follows the Babel configuration in
    [src/babel.config.js], whose line numbers are the ones quoted
    here), the dataset extractor and the props builder of
    [src/js/helpers/dom.js], and the component scanner of
    [src/js/common/App.js].

    Conventions of the embedding.
    - JavaScript strings are Rocq strings read as sequences of 8-bit
      code units (Latin-1).
    - A number is the decimal value that was read, before it is rounded
      to binary64.
    - A plain object is the association list of its own properties in
      insertion order; the integer-keys-first enumeration order and
      the members inherited from [Object.prototype] are outside the
      model, and the theorems that read a key by name leave those
      names out.  An assignment to the key [__proto__] of an object
      creates no property.
    - A user function is called here with no argument it looks at, so
      it is the completion (return or throw) of such a call.
    - What the host platform leaves implementation-defined is a field
      of the class [Host]; every general theorem holds for every
      host. *)

From Stdlib Require Import String Ascii List ZArith NArith Bool Lia DecimalString.
Import ListNotations.
Local Open Scope string_scope.
Local Open Scope list_scope.

(** ** Values *)

Inductive result (A E : Type) : Type :=
| Ok (a : A)
| Err (e : E).
Arguments Ok {A E} a.
Arguments Err {A E} e.

(** A JavaScript number: the decimal [(-1)^neg * mant * 10^exp10]. *)
Inductive number : Type :=
| NaN
| Infinity (neg : bool)
| Finite (neg : bool) (mant : N) (exp10 : Z).

(** The built-in constructors the code compares type tags with. *)
Inductive builtin : Type :=
| Number | Date | Boolean | Array | Object | String_.

Local Unset Elimination Schemes.
Inductive value : Type :=
| VUndefined
| VNull
| VBool (b : bool)
| VNum (n : number)
| VStr (s : string)
| VDate (t : option Z)              (* a Date and its time value, [None] is NaN *)
| VArr (xs : list value)
| VObj (fields : list (string * value))
| VCtor (c : builtin)
| VFun (module_class : bool) (body : result value value)
| VPromise (state : option (result value value)) (* [None] is pending *)
| VVue (el : nat) (component props : value)     (* a mounted Vue instance *)
| VError (name message : string).
Local Set Elimination Schemes.

Definition completion (A : Type) : Type := result A value.

Definition TypeError (msg : string) : value := VError "TypeError" msg.
Definition SyntaxError (msg : string) : value := VError "SyntaxError" msg.

(** ** Console and call trace *)

Inductive event : Type :=
| Invoked                    (* one call of a function value *)
| ConsoleError (e : value)
| ConsoleLog (e : value).

Definition trace : Type := list event.

Definition M (A : Type) : Type := (A * trace)%type.
Definition ret {A} (a : A) : M A := (a, []).
Definition bind {A B} (m : M A) (k : A -> M B) : M B :=
  let '(a, t) := m in let '(b, t') := k a in (b, t ++ t').
Definition tell (e : event) : M unit := (tt, [e]).

Declare Scope js_scope.
Delimit Scope js_scope with js.
Notation "x <- c ;; k" := (bind c (fun x => k))
  (at level 61, c at next level, right associativity) : js_scope.
Notation "c ;;; k" := (bind c (fun _ => k))
  (at level 61, right associativity) : js_scope.

(** ** Operators *)

Definition number_is_zero (n : number) : bool :=
  match n with
  | Finite _ m _ => N.eqb m 0
  | _ => false
  end.

(** [ToBoolean]. *)
Definition truthy (v : value) : bool :=
  match v with
  | VUndefined | VNull => false
  | VBool b => b
  | VNum NaN => false
  | VNum n => negb (number_is_zero n)
  | VStr s => negb (String.eqb s "")
  | _ => true
  end.

Inductive type_name : Type :=
| TyUndefined | TyObject | TyBoolean | TyNumber | TyString | TyFunction.

Definition typeof (v : value) : type_name :=
  match v with
  | VUndefined => TyUndefined
  | VBool _ => TyBoolean
  | VNum _ => TyNumber
  | VStr _ => TyString
  | VCtor _ | VFun _ _ => TyFunction
  | _ => TyObject
  end.

Definition is_function (v : value) : bool :=
  match typeof v with TyFunction => true | _ => false end.

Definition is_string (v : value) : bool :=
  match v with VStr _ => true | _ => false end.

Definition is_object (v : value) : bool :=
  match v with
  | VDate _ | VArr _ | VObj _ | VCtor _ | VFun _ _
  | VPromise _ | VVue _ _ _ | VError _ _ => true
  | _ => false
  end.

(** Association lists as objects. *)
Fixpoint obj_get {A} (k : string) (fs : list (string * A)) : option A :=
  match fs with
  | [] => None
  | (k', v) :: rest => if String.eqb k k' then Some v else obj_get k rest
  end.

Definition obj_has {A} (k : string) (fs : list (string * A)) : bool :=
  match obj_get k fs with Some _ => true | None => false end.

(** [o[k] = v]: replaces the value in place or appends the property. *)
Fixpoint obj_set {A} (k : string) (v : A) (fs : list (string * A))
  : list (string * A) :=
  match fs with
  | [] => [(k, v)]
  | (k', v') :: rest =>
      if String.eqb k k' then (k, v) :: rest else (k', v') :: obj_set k v rest
  end.

(** The members every plain object inherits from [Object.prototype].
    The association list of an object holds its own properties only:
    reading a key ([o[k]], [k in o]) is modelled for a key that is an
    own property or is none of these names. *)
Definition inherited_name (k : string) : bool :=
  existsb (String.eqb k)
    ["constructor"; "__defineGetter__"; "__defineSetter__"; "hasOwnProperty";
     "__lookupGetter__"; "__lookupSetter__"; "isPrototypeOf";
     "propertyIsEnumerable"; "toString"; "valueOf"; "__proto__";
     "toLocaleString"].

(** [o[k] = v] on an object that inherits from [Object.prototype]: the
    key [__proto__] is an accessor there, so the assignment sets or
    leaves the prototype and creates no own property; every other key
    becomes or stays an own property. *)
Definition obj_assign {A} (k : string) (v : A) (fs : list (string * A))
  : list (string * A) :=
  if String.eqb k "__proto__" then fs else obj_set k v fs.

Fixpoint obj_remove {A} (k : string) (fs : list (string * A))
  : list (string * A) :=
  match fs with
  | [] => []
  | (k', v') :: rest =>
      if String.eqb k k' then obj_remove k rest else (k', v') :: obj_remove k rest
  end.

(** [v instanceof target].  Primitives are never instances; the
    model has no wrapper objects, and the prototype object of a user
    function is in no prototype chain of a value of the model. *)
Definition instance_of (v target : value) : completion bool :=
  match target with
  | VCtor Date => Ok (match v with VDate _ => true | _ => false end)
  | VCtor Array => Ok (match v with VArr _ => true | _ => false end)
  | VCtor Object => Ok (is_object v)
  | VCtor _ => Ok false
  | VFun _ _ => Ok false
  | _ => Err (TypeError "Right-hand side of 'instanceof' is not callable")
  end.

(** ** The host platform

    The parts of the built-ins that ECMA-262 or the page leave open. *)
Class Host : Type := {
  (** [Date.parse] on a string that is not a legal instance of the
      ECMAScript date-time format [YYYY-MM-DDTHH:mm:ss.sssZ] (any other
      shape, a day beyond the end of its month, hour 24): engines
      differ here.  [None] is [NaN]. *)
  date_fallback : string -> option Z;
  (** [new RegExp('^' + p)] applied to a key, for a pattern [p] that
      holds a regular-expression metacharacter other than [.]: a
      thrown error, no match, or the key with the match removed. *)
  regexp_fallback : string -> string -> completion (option string);
  (** [JSON.parse] on a text with a [\u] escape beyond Latin-1. *)
  json_fallback : string -> option value;
  (** The event a script element fires for a URL: [Some true] for
      [load], [Some false] for [error], [None] for neither. *)
  script_event : string -> option bool;
  (** The string [Date()] returns when called as a function. *)
  date_string : string
}.

(** ** Characters and digits *)

Definition char_between (lo hi c : ascii) : bool :=
  (N.leb (N_of_ascii lo) (N_of_ascii c) && N.leb (N_of_ascii c) (N_of_ascii hi))%bool.

Definition is_digit (c : ascii) : bool := char_between "0" "9" c.

Definition digit_value (c : ascii) : N := (N_of_ascii c - 48)%N.

(** The natural number a string of decimal digits denotes. *)
Fixpoint digits_value_from (acc : N) (s : string) : N :=
  match s with
  | EmptyString => acc
  | String c rest => digits_value_from (acc * 10 + digit_value c)%N rest
  end.

Definition digits_value (s : string) : N := digits_value_from 0 s.

Fixpoint take (n : nat) (s : string) : string :=
  match n, s with
  | S n', String c rest => String c (take n' rest)
  | _, _ => EmptyString
  end.

Fixpoint drop (n : nat) (s : string) : string :=
  match n, s with
  | S n', String _ rest => drop n' rest
  | _, _ => s
  end.

(** ** A backtracking regular-expression matcher

    The fragment of JavaScript regular expressions the code uses:
    characters, ranges, concatenation, alternation, greedy [?] and
    [*], and numbered capture groups. *)

Inductive regex : Type :=
| Eps
| Chr (c : ascii)
| Rng (lo hi : ascii)
| Seq (r1 r2 : regex)
| Alt (r1 r2 : regex)
| Opt (r : regex)
| Star (r : regex)
| Grp (n : nat) (r : regex).

Definition captures : Type := list (nat * string).

Fixpoint capture (n : nat) (c : captures) : option string :=
  match c with
  | [] => None
  | (m, s) :: rest => if Nat.eqb n m then Some s else capture n rest
  end.

Fixpoint rmatch (r : regex) (s : string) (c : captures)
    (k : string -> captures -> option captures) {struct r} : option captures :=
  match r with
  | Eps => k s c
  | Chr a =>
      match s with
      | String b rest => if Ascii.eqb a b then k rest c else None
      | EmptyString => None
      end
  | Rng lo hi =>
      match s with
      | String b rest => if char_between lo hi b then k rest c else None
      | EmptyString => None
      end
  | Seq r1 r2 => rmatch r1 s c (fun s' c' => rmatch r2 s' c' k)
  | Alt r1 r2 =>
      match rmatch r1 s c k with
      | Some m => Some m
      | None => rmatch r2 s c k
      end
  | Opt r1 =>
      match rmatch r1 s c k with
      | Some m => Some m
      | None => k s c
      end
  | Star r1 =>
      (fix loop (fuel : nat) (s0 : string) (c0 : captures) {struct fuel}
         : option captures :=
         match fuel with
         | O => k s0 c0
         | S fuel' =>
             match rmatch r1 s0 c0
                     (fun s' c' =>
                        if Nat.ltb (String.length s') (String.length s0)
                        then loop fuel' s' c' else None) with
             | Some m => Some m
             | None => k s0 c0
             end
         end) (String.length s) s c
  | Grp n r1 =>
      rmatch r1 s c
        (fun s' c' => k s' ((n, take (String.length s - String.length s') s) :: c'))
  end.

(** [^r$] against the whole input, as [regex.exec] without flags. *)
Definition regex_exec (r : regex) (s : string) : option captures :=
  rmatch r s [] (fun rest c => match rest with EmptyString => Some c | _ => None end).

Fixpoint cat (rs : list regex) : regex :=
  match rs with
  | [] => Eps
  | [r] => r
  | r :: rest => Seq r (cat rest)
  end.

Definition digit : regex := Rng "0" "9".

(** ** Calendar arithmetic of ECMA-262 (MakeDay, MakeTime, TimeClip) *)

Local Open Scope Z_scope.

Definition is_leap_year (y : Z) : bool :=
  (((y mod 4 =? 0) && negb (y mod 100 =? 0)) || (y mod 400 =? 0))%bool.

Definition days_in_month (y m : Z) : Z :=
  if m =? 2 then (if is_leap_year y then 29 else 28)
  else if (m =? 4) || (m =? 6) || (m =? 9) || (m =? 11) then 30
  else 31.

Definition day_from_year (y : Z) : Z :=
  365 * (y - 1970) + (y - 1969) / 4 - (y - 1901) / 100 + (y - 1601) / 400.

(** Days before the first of month [m] (1 to 12) within year [y]. *)
Fixpoint days_before_month (y : Z) (m : nat) : Z :=
  match m with
  | O | S O => 0
  | S m' => days_before_month y m' + days_in_month y (Z.of_nat m')
  end.

Definition make_day (y m d : Z) : Z :=
  day_from_year y + days_before_month y (Z.to_nat m) + (d - 1).

Definition ms_per_day : Z := 86400000.

Definition make_time (h mi s ms : Z) : Z :=
  h * 3600000 + mi * 60000 + s * 1000 + ms.

Definition time_clip (t : Z) : option Z :=
  if Z.abs t <=? 8640000000000000 then Some t else None.

(** ** [Date.parse] on the ECMAScript date-time format *)

Local Open Scope string_scope.

(** [^([+-]\d{6}|\d{4})-(\d\d)-(\d\d)T(\d\d):(\d\d):(\d\d)\.(\d{3})(Z|([+-])(\d\d):(\d\d))$] *)
Definition ecma_date_regex : regex :=
  cat [ Grp 1 (Alt (cat [Alt (Chr "+") (Chr "-"); digit; digit; digit; digit; digit; digit])
                   (cat [digit; digit; digit; digit]));
        Chr "-"; Grp 2 (cat [digit; digit]);
        Chr "-"; Grp 3 (cat [digit; digit]);
        Chr "T"; Grp 4 (cat [digit; digit]);
        Chr ":"; Grp 5 (cat [digit; digit]);
        Chr ":"; Grp 6 (cat [digit; digit]);
        Chr "."; Grp 7 (cat [digit; digit; digit]);
        Grp 8 (Alt (Chr "Z")
                   (cat [Grp 9 (Alt (Chr "+") (Chr "-"));
                         Grp 10 (cat [digit; digit]); Chr ":";
                         Grp 11 (cat [digit; digit])])) ].

Definition signed_value (s : string) : Z :=
  match s with
  | String "-" rest => - Z.of_N (digits_value rest)
  | String "+" rest => Z.of_N (digits_value rest)
  | _ => Z.of_N (digits_value s)
  end.

Definition field (n : nat) (c : captures) : Z :=
  match capture n c with
  | Some s => Z.of_N (digits_value s)
  | None => 0
  end.

(** The time value of a legal instance of the format, [None] when the
    string is not one. *)
Definition ecma_date_time (s : string) : option Z :=
  match regex_exec ecma_date_regex s with
  | None => None
  | Some c =>
      match capture 1 c with
      | None => None
      | Some ys =>
          let y := signed_value ys in
          let m := field 2 c in
          let d := field 3 c in
          let h := field 4 c in
          let mi := field 5 c in
          let sec := field 6 c in
          let ms := field 7 c in
          let sign := match capture 9 c with
                      | Some "-" => (-1)%Z
                      | _ => 1%Z
                      end in
          let oh := field 10 c in
          let om := field 11 c in
          if (negb (String.eqb ys "-000000")
              && (1 <=? m) && (m <=? 12) && (1 <=? d) && (d <=? days_in_month y m)
              && (h <=? 23) && (mi <=? 59) && (sec <=? 59)
              && (oh <=? 23) && (om <=? 59))%bool%Z
          then Some (make_day y m d * ms_per_day + make_time h mi sec ms
                     - sign * (oh * 60 + om) * 60000)%Z
          else None
      end
  end.

(** ** [parseFloat] *)

(** White space and line terminators of [TrimString], within Latin-1. *)
Definition is_js_space (c : ascii) : bool :=
  let n := N_of_ascii c in
  ((N.leb 9 n && N.leb n 13) || N.eqb n 32 || N.eqb n 160)%bool.

Fixpoint trim_start (s : string) : string :=
  match s with
  | String c rest => if is_js_space c then trim_start rest else s
  | EmptyString => s
  end.

(** The leading decimal digits of a string, and what follows them. *)
Fixpoint span_digits (s : string) : string * string :=
  match s with
  | String c rest =>
      if is_digit c
      then let '(d, r) := span_digits rest in (String c d, r)
      else (EmptyString, s)
  | EmptyString => (EmptyString, EmptyString)
  end.

(** The value of an exponent part [e], sign, digits at the head of
    [s], and what follows it; [0] and [s] when there is none. *)
Definition exponent_part (s : string) : Z * string :=
  match s with
  | String c rest =>
      if (Ascii.eqb c "e" || Ascii.eqb c "E")%bool then
        let '(neg, r) := match rest with
                         | String "-" r => (true, r)
                         | String "+" r => (false, r)
                         | _ => (false, rest)
                         end in
        let '(d, r') := span_digits r in
        if String.eqb d "" then (0%Z, s)
        else ((if neg then - Z.of_N (digits_value d) else Z.of_N (digits_value d))%Z, r')
      else (0%Z, s)
  | EmptyString => (0%Z, s)
  end.

(** The longest prefix that is a [StrDecimalLiteral], after leading
    white space; [NaN] when there is none. *)
Definition parseFloat (s : string) : number :=
  let t := trim_start s in
  let '(neg, u) := match t with
                   | String "-" r => (true, r)
                   | String "+" r => (false, r)
                   | _ => (false, t)
                   end in
  if String.prefix "Infinity" u then Infinity neg
  else
    let '(ip, r1) := span_digits u in
    let '(fp, r2) := match r1 with
                     | String "." r => span_digits r
                     | _ => (EmptyString, r1)
                     end in
    if (String.eqb ip "" && String.eqb fp "")%bool then NaN
    else
      let '(e, _) := exponent_part r2 in
      Finite neg (digits_value (ip ++ fp)) (e - Z.of_nat (String.length fp))%Z.

(** ** [JSON.parse] *)

Inductive parsed (A : Type) : Type :=
| Parsed (a : A) (rest : string)
| Malformed                      (* a SyntaxError *)
| Beyond.                        (* outside the modelled fragment *)
Arguments Parsed {A} a rest.
Arguments Malformed {A}.
Arguments Beyond {A}.

Definition is_json_space (c : ascii) : bool :=
  (Ascii.eqb c " " || Ascii.eqb c "009" || Ascii.eqb c "010" || Ascii.eqb c "013")%bool.

Fixpoint skip_ws (s : string) : string :=
  match s with
  | String c rest => if is_json_space c then skip_ws rest else s
  | EmptyString => s
  end.

Definition hex_value (c : ascii) : option N :=
  if is_digit c then Some (digit_value c)
  else if char_between "a" "f" c then Some (N_of_ascii c - 87)%N
  else if char_between "A" "F" c then Some (N_of_ascii c - 55)%N
  else None.

Definition hex4 (a b c d : ascii) : option N :=
  match hex_value a, hex_value b, hex_value c, hex_value d with
  | Some x, Some y, Some z, Some w => Some (((x * 16 + y) * 16 + z) * 16 + w)%N
  | _, _, _, _ => None
  end.

Definition parsed_cons (c : ascii) (p : parsed string) : parsed string :=
  match p with
  | Parsed s rest => Parsed (String c s) rest
  | Malformed => Malformed
  | Beyond => Beyond
  end.

(** The characters of a JSON string after its opening quote. *)
Fixpoint json_string (s : string) : parsed string :=
  match s with
  | EmptyString => Malformed
  | String "034" rest => Parsed EmptyString rest
  | String "\" (String e rest) =>
      if Ascii.eqb e "034" then parsed_cons "034" (json_string rest)
      else if Ascii.eqb e "\" then parsed_cons "\" (json_string rest)
      else if Ascii.eqb e "/" then parsed_cons "/" (json_string rest)
      else if Ascii.eqb e "b" then parsed_cons "008" (json_string rest)
      else if Ascii.eqb e "f" then parsed_cons "012" (json_string rest)
      else if Ascii.eqb e "n" then parsed_cons "010" (json_string rest)
      else if Ascii.eqb e "r" then parsed_cons "013" (json_string rest)
      else if Ascii.eqb e "t" then parsed_cons "009" (json_string rest)
      else if Ascii.eqb e "u" then
        match rest with
        | String a (String b (String c (String d rest'))) =>
            match hex4 a b c d with
            | Some n =>
                if N.ltb n 256 then parsed_cons (ascii_of_N n) (json_string rest')
                else Beyond
            | None => Malformed
            end
        | _ => Malformed
        end
      else Malformed
  | String "\" EmptyString => Malformed
  | String c rest =>
      if N.ltb (N_of_ascii c) 32 then Malformed
      else parsed_cons c (json_string rest)
  end.

(** A JSON number: an optional [-], then [0] or digits that start with
    [1-9], an optional fraction [\.[0-9]+] and an optional exponent
    [[eE][+-]?[0-9]+]. *)
Definition json_number (s : string) : parsed number :=
  let '(neg, u) := match s with
                   | String "-" r => (true, r)
                   | _ => (false, s)
                   end in
  let '(ip, r1) := match u with
                   | String "0" r => ("0", r)
                   | _ => span_digits u
                   end in
  if String.eqb ip "" then Malformed
  else
    match (match r1 with
           | String "." r =>
               let '(fp, r') := span_digits r in
               if String.eqb fp "" then None else Some (fp, r')
           | _ => Some (EmptyString, r1)
           end) with
    | None => Malformed
    | Some (fp, r2) =>
        let '(e, r3) := exponent_part r2 in
        Parsed (Finite neg (digits_value (ip ++ fp)) (e - Z.of_nat (String.length fp))%Z) r3
    end.

Fixpoint json_value (fuel : nat) (s : string) : parsed value :=
  match fuel with
  | O => Beyond
  | S fuel' =>
      match skip_ws s with
      | String "n" (String "u" (String "l" (String "l" rest))) => Parsed VNull rest
      | String "t" (String "r" (String "u" (String "e" rest))) => Parsed (VBool true) rest
      | String "f" (String "a" (String "l" (String "s" (String "e" rest)))) =>
          Parsed (VBool false) rest
      | String "034" rest =>
          match json_string rest with
          | Parsed str r => Parsed (VStr str) r
          | Malformed => Malformed
          | Beyond => Beyond
          end
      | String "[" rest =>
          match skip_ws rest with
          | String "]" r => Parsed (VArr []) r
          | _ => json_elements fuel' rest []
          end
      | String "{" rest =>
          match skip_ws rest with
          | String "}" r => Parsed (VObj []) r
          | _ => json_members fuel' rest []
          end
      | other =>
          match json_number other with
          | Parsed n r => Parsed (VNum n) r
          | Malformed => Malformed
          | Beyond => Beyond
          end
      end
  end
with json_elements (fuel : nat) (s : string) (acc : list value) : parsed value :=
  match fuel with
  | O => Beyond
  | S fuel' =>
      match json_value fuel' s with
      | Parsed v rest =>
          match skip_ws rest with
          | String "," r => json_elements fuel' r (acc ++ [v])
          | String "]" r => Parsed (VArr (acc ++ [v])) r
          | _ => Malformed
          end
      | Malformed => Malformed
      | Beyond => Beyond
      end
  end
with json_members (fuel : nat) (s : string) (acc : list (string * value)) : parsed value :=
  match fuel with
  | O => Beyond
  | S fuel' =>
      match skip_ws s with
      | String "034" r0 =>
          match json_string r0 with
          | Parsed key r1 =>
              match skip_ws r1 with
              | String ":" r2 =>
                  match json_value fuel' r2 with
                  | Parsed v r3 =>
                      match skip_ws r3 with
                      | String "," r => json_members fuel' r (obj_set key v acc)
                      | String "}" r => Parsed (VObj (obj_set key v acc)) r
                      | _ => Malformed
                      end
                  | Malformed => Malformed
                  | Beyond => Beyond
                  end
              | _ => Malformed
              end
          | Malformed => Malformed
          | Beyond => Beyond
          end
      | _ => Malformed
      end
  end.

Section WithHost.
Context {host : Host}.

(** [Date.parse], and with it the time value of [new Date(s)]. *)
Definition Date_parse (s : string) : option Z :=
  match ecma_date_time s with
  | Some t => time_clip t
  | None => date_fallback s
  end.

(** ** [parseISODate] (util.js) *)

(** The regular expression of line 218, group by group:
    - 1, year: an optional [-], an optional run of digits that starts
      with [1-9], then [[0-9]{4}];
    - an optional [-]; 2, month: [1[0-2]|0[1-9]]; an optional [-];
    - 3, day: [3[01]|0[1-9]|[12][0-9]];
    - 4, optional: [T], 5 hour [2[0-3]|[01][0-9]], [:],
      6 minutes [[0-5][0-9]], 7 optional [:] and 8 seconds [[0-5][0-9]],
      9 optional [\.[0-9]{3}], 10 optional [Z] or 11, which is
      12 [\+|-] and [[0-9]{2}:[0-9]{2}]. *)
Definition iso_regex : regex :=
  cat [ Grp 1 (cat [Opt (Chr "-");
                    Opt (Seq (Rng "1" "9") (Star digit));
                    digit; digit; digit; digit]);
        Opt (Chr "-");
        Grp 2 (Alt (Seq (Chr "1") (Rng "0" "2")) (Seq (Chr "0") (Rng "1" "9")));
        Opt (Chr "-");
        Grp 3 (Alt (Seq (Chr "3") (Rng "0" "1"))
                   (Alt (Seq (Chr "0") (Rng "1" "9"))
                        (Seq (Rng "1" "2") digit)));
        Opt (Grp 4 (cat [
          Chr "T";
          Grp 5 (Alt (Seq (Chr "2") (Rng "0" "3")) (Seq (Rng "0" "1") digit));
          Chr ":";
          Grp 6 (Seq (Rng "0" "5") digit);
          Opt (Grp 7 (Seq (Chr ":") (Grp 8 (Seq (Rng "0" "5") digit))));
          Opt (Grp 9 (cat [Chr "."; digit; digit; digit]));
          Opt (Grp 10 (Alt (Chr "Z")
                           (Grp 11 (cat [Grp 12 (Alt (Chr "+") (Chr "-"));
                                         digit; digit; Chr ":"; digit; digit]))))])) ].

(** [matches[n] || dflt] *)
Definition group_or (n : nat) (c : captures) (dflt : string) : string :=
  match capture n c with
  | Some s => if String.eqb s "" then dflt else s
  | None => dflt
  end.

(** The template literal of line 231; an unset group prints as
    [undefined]. *)
Definition fullDateString (c : captures) : string :=
  let year := group_or 1 c "undefined" in
  let month := group_or 2 c "undefined" in
  let day := group_or 3 c "undefined" in
  let hour := group_or 5 c "00" in
  let minutes := group_or 6 c "00" in
  let seconds := group_or 8 c "00" in
  let milliseconds := group_or 9 c ".000" in
  let timezone := group_or 10 c "Z" in
  year ++ "-" ++ month ++ "-" ++ day ++ "T" ++ hour ++ ":" ++ minutes ++ ":"
       ++ seconds ++ milliseconds ++ timezone.

(** [new Date(s)] *)
Definition new_Date (s : string) : value := VDate (Date_parse s).

(** [isValidDate] (util.js), read as a condition: a Date object whose
    time value is not NaN. *)
Definition isValidDate (date : value) : bool :=
  match date with
  | VDate (Some _) => true
  | _ => false
  end.

Definition parseISODate (dateString : string) : value :=
  if String.eqb dateString "" then VNull
  else
    match regex_exec iso_regex dateString with
    | None => VNull
    | Some matches =>
        let date := new_Date (fullDateString matches) in
        if isValidDate date then date else VNull
    end.

(** [JSON.parse]: [None] is a thrown SyntaxError. *)
Definition JSON_parse (s : string) : option value :=
  match json_value (2 * String.length s + 2) s with
  | Parsed v rest =>
      match skip_ws rest with
      | EmptyString => Some v
      | _ => None
      end
  | Malformed => None
  | Beyond => json_fallback s
  end.

(** ** [convertString] (util.js) *)

(** One turn of the loop of lines 179-205: the [switch] assigns
    [output], then [output instanceof type] decides whether to stop. *)
Fixpoint convert_loop (str : string) (requestedTypes : list value) (output : value)
  : M (completion value) :=
  match requestedTypes with
  | [] => ret (Ok output)
  | type :: rest =>
      (output' <-
         match type with
         | VCtor Number => ret (VNum (parseFloat str))
         | VCtor Date => ret (parseISODate str)
         | VCtor Boolean | VCtor Array | VCtor Object =>
             match JSON_parse str with
             | Some v => ret v
             | None => (tell (ConsoleLog (SyntaxError str)) ;;; ret output)
             end
         | _ => ret (VStr str)
         end ;;
       match instance_of output' type with
       | Err e => ret (Err e)
       | Ok true => ret (Ok output')
       | Ok false => convert_loop str rest output'
       end)%js
  end.

Definition convertString (str requestedTypes : value) : M (completion value) :=
  match str, requestedTypes with
  | VStr s, VArr (type :: rest) => convert_loop s (type :: rest) VUndefined
  | _, _ => ret (Ok VNull)
  end.

(** ** Property access and [Object.entries] *)

Definition nat_to_string (n : nat) : string :=
  NilZero.string_of_uint (Nat.to_uint n).

Definition all_digits (s : string) : bool :=
  forallb is_digit (list_ascii_of_string s).

(** The array index a property key denotes, if it is a canonical one. *)
Definition index_of_key (k : string) : option nat :=
  match k with
  | EmptyString => None
  | String c rest =>
      if (all_digits k && (negb (Ascii.eqb c "0") || String.eqb rest ""))%bool
      then Some (N.to_nat (digits_value k))
      else None
  end.

Definition length_value (n : nat) : value := VNum (Finite false (N.of_nat n) 0).

(** [v[k]] for a [v] that is neither [undefined] nor [null]: the own
    property.  A member found only on the prototype chain (see
    [inherited_name] for a plain object) is not modelled and reads as
    [undefined] here. *)
Definition get_member (v : value) (k : string) : value :=
  match v with
  | VObj fs => match obj_get k fs with Some x => x | None => VUndefined end
  | VArr xs =>
      if String.eqb k "length" then length_value (List.length xs)
      else match index_of_key k with
           | Some i => nth i xs VUndefined
           | None => VUndefined
           end
  | VStr str =>
      if String.eqb k "length" then length_value (String.length str)
      else match index_of_key k with
           | Some i => match String.get i str with
                       | Some c => VStr (String c EmptyString)
                       | None => VUndefined
                       end
           | None => VUndefined
           end
  | _ => VUndefined
  end.

(** [v.k]: a TypeError on [undefined] and [null]. *)
Definition get (v : value) (k : string) : completion value :=
  match v with
  | VUndefined | VNull => Err (TypeError "Cannot read properties of undefined")
  | _ => Ok (get_member v k)
  end.

(** [v?.[k]] *)
Definition get_opt (v : value) (k : string) : value :=
  match v with
  | VUndefined | VNull => VUndefined
  | _ => get_member v k
  end.

Fixpoint indexed {A} (i : nat) (xs : list A) : list (string * A) :=
  match xs with
  | [] => []
  | x :: rest => (nat_to_string i, x) :: indexed (S i) rest
  end.

(** [Object.entries(v)] *)
Definition entries (v : value) : completion (list (string * value)) :=
  match v with
  | VUndefined | VNull => Err (TypeError "Cannot convert undefined or null to object")
  | VObj fs => Ok fs
  | VArr xs => Ok (indexed 0 xs)
  | VStr str =>
      Ok (indexed 0 (map (fun c => VStr (String c EmptyString)) (list_ascii_of_string str)))
  | _ => Ok []
  end.

(** ** [getDataset] (dom.js) *)

Definition is_regex_meta (c : ascii) : bool :=
  existsb (Ascii.eqb c) (list_ascii_of_string "\^$.*+?()[]{}|").

(** A pattern source that denotes itself. *)
Definition literal_pattern (p : string) : bool :=
  forallb (fun c => negb (is_regex_meta c)) (list_ascii_of_string p).

(** [toLowerCase] on one Latin-1 code unit. *)
Definition to_lower (c : ascii) : ascii :=
  let n := N_of_ascii c in
  if (char_between "A" "Z" c
      || (N.leb 192 n && N.leb n 222 && negb (N.eqb n 215)))%bool
  then ascii_of_N (n + 32) else c.

(** [key.charAt(0).toLowerCase() + key.substring(1)] *)
Definition lower_first (key : string) : string :=
  match key with
  | String c rest => String (to_lower c) rest
  | EmptyString => EmptyString
  end.

(** A pattern source made of characters that denote themselves and
    of the wildcard [.]. *)
Definition simple_pattern (p : string) : bool :=
  forallb (fun c => (negb (is_regex_meta c) || Ascii.eqb c ".")%bool)
          (list_ascii_of_string p).

Definition is_line_terminator (c : ascii) : bool :=
  (Ascii.eqb c "010" || Ascii.eqb c "013")%bool.

(** What is left of [key] after a match of the simple pattern [p] at
    its start; [.] matches any character but a line terminator. *)
Fixpoint match_simple (p key : string) : option string :=
  match p with
  | EmptyString => Some key
  | String a p' =>
      match key with
      | EmptyString => None
      | String c key' =>
          if (if Ascii.eqb a "." then negb (is_line_terminator c) else Ascii.eqb a c)
          then match_simple p' key' else None
      end
  end.

(** [regex.test(key)] and [key.replace(regex, '')] for
    [regex = new RegExp('^' + prefix)]: [Ok None] when the test fails. *)
Definition strip_prefix (prefix key : string) : completion (option string) :=
  if simple_pattern prefix then Ok (match_simple prefix key)
  else regexp_fallback prefix key.

(** Lines 377-387: the key under which an entry is kept, [Ok None]
    when [valid] ends up false.  An absent prefix is [None]. *)
Definition output_key (prefix : option string) (key : string)
  : completion (option string) :=
  match prefix with
  | None => Ok (Some key)
  | Some p =>
      if String.eqb p "" then Ok (Some key)
      else match strip_prefix p key with
           | Err e => Err e
           | Ok None => Ok None
           | Ok (Some k) => Ok (Some (lower_first k))
           end
  end.

(** Lines 391-395: [JSON.parse(value)], the raw string on failure. *)
Definition decode (raw : string) : value :=
  match JSON_parse raw with
  | Some v => v
  | None => VStr raw
  end.

(** The body of the [forEach] callback on one entry.  The assignment
    [output[key] = val] records nothing under the key [__proto__]
    (the value becomes the prototype of [output], or is ignored); the
    prototype of [output] is not part of the model. *)
Definition getDataset_step (prefix : option string)
    (output : list (string * value)) (entry : string * string)
  : completion (list (string * value)) :=
  let '(key, raw) := entry in
  match output_key prefix key with
  | Err e => Err e
  | Ok None => Ok output
  | Ok (Some k) =>
      if String.eqb k "" then Ok output
      else Ok (obj_assign k (decode raw) output)
  end.

Fixpoint getDataset_loop (prefix : option string)
    (dataset : list (string * string)) (output : list (string * value))
  : completion (list (string * value)) :=
  match dataset with
  | [] => Ok output
  | entry :: rest =>
      match getDataset_step prefix output entry with
      | Err e => Err e
      | Ok output' => getDataset_loop prefix rest output'
      end
  end.

(** [obj] is an element's dataset or a plain object of strings;
    [None] stands for any other argument, read as the empty mapping. *)
Definition getDataset (obj : option (list (string * string))) (prefix : option string)
  : completion (list (string * value)) :=
  let dataset := match obj with Some d => d | None => [] end in
  getDataset_loop prefix dataset [].

(** ** [parseVueProps] (dom.js) *)

Definition is_array (v : value) : bool :=
  match v with VArr _ => true | _ => false end.

Definition is_typeof_object (v : value) : bool :=
  match typeof v with TyObject => true | _ => false end.

(** Lines 411-418: the candidate list read off a prop definition,
    [undefined] when no branch applies. *)
Definition requestedTypes_of (propDef : value) : value :=
  if is_function propDef then VArr [propDef]
  else if (is_array propDef && is_function (get_opt propDef "0"))%bool then propDef
  else if (is_typeof_object propDef && truthy (get_opt propDef "type"))%bool
       then VArr [get_opt propDef "type"]
  else VUndefined.

(** The [map] callback of lines 405-423; [None] is its [null]. *)
Definition parseVueProps_entry (props : value) (entry : string * value)
  : M (completion (option (string * value))) :=
  let '(key, propDef) := entry in
  if negb (truthy (get_opt props key)) then ret (Ok None)
  else
    (r <- convertString (get_opt props key) (requestedTypes_of propDef) ;;
     match r with
     | Ok prop => ret (Ok (Some (key, prop)))
     | Err e => ret (Err e)
     end)%js.

(** [map], [filter(Boolean)] and [Object.fromEntries] in one pass. *)
Fixpoint parseVueProps_loop (props : value) (defs : list (string * value))
    (output : list (string * value)) : M (completion (list (string * value))) :=
  match defs with
  | [] => ret (Ok output)
  | entry :: rest =>
      (r <- parseVueProps_entry props entry ;;
       match r with
       | Err e => ret (Err e)
       | Ok None => parseVueProps_loop props rest output
       | Ok (Some (key, prop)) => parseVueProps_loop props rest (obj_set key prop output)
       end)%js
  end.

Definition parseVueProps (propDefs props : value) : M (completion value) :=
  match entries propDefs with
  | Err e => ret (Err e)
  | Ok defs =>
      (r <- parseVueProps_loop props defs [] ;;
       match r with
       | Ok output => ret (Ok (VObj output))
       | Err e => ret (Err e)
       end)%js
  end.

(** ** Promises and [loadDynamicImport] (util.js) *)

(** How a promise ends. *)
Inductive settled : Type :=
| Fulfilled (v : value)
| Rejected (e : value)
| Pending.

(** [typeof f === 'function' && !(f.prototype instanceof Module)] *)
Definition is_plain_function (f : value) : bool :=
  match f with
  | VCtor _ => true
  | VFun module_class _ => negb module_class
  | _ => false
  end.

(** [f()] *)
Definition call (f : value) : completion value :=
  match f with
  | VFun false body => body
  | VFun true _ => Err (TypeError "Class constructor cannot be invoked without 'new'")
  | VCtor Number => Ok (VNum (Finite false 0 0))
  | VCtor String_ => Ok (VStr "")
  | VCtor Boolean => Ok (VBool false)
  | VCtor Array => Ok (VArr [])
  | VCtor Object => Ok (VObj [])
  | VCtor Date => Ok (VStr date_string)
  | _ => Err (TypeError "not a function")
  end.

(** An object with a callable [then]. *)
Definition thenable_method (v : value) : option value :=
  match v with
  | VObj fs =>
      match obj_get "then" fs with
      | Some f => if is_function f then Some f else None
      | None => None
      end
  | _ => None
  end.

Definition is_thenable (v : value) : bool :=
  match v with
  | VPromise _ => true
  | _ => match thenable_method v with Some _ => true | None => false end
  end.

(** [await Promise.resolve(v)], and equally the settling of a promise
    that is resolved with [v].  A [then] method of the model calls
    neither of its callbacks: the promise rejects when [then] throws
    and stays pending otherwise. *)
Definition await (v : value) : M settled :=
  match v with
  | VPromise None => ret Pending
  | VPromise (Some (Ok x)) => ret (Fulfilled x)
  | VPromise (Some (Err e)) => ret (Rejected e)
  | _ =>
      match thenable_method v with
      | Some f =>
          (tell Invoked ;;;
           ret (match f with
                | VFun false (Err e) => Rejected e
                | VFun true _ =>
                    Rejected (TypeError "Class constructor cannot be invoked without 'new'")
                | _ => Pending
                end))%js
      | None => ret (Fulfilled v)
      end
  end.

(** [result && typeof result === 'object' && 'default' in result] *)
Definition has_default (result : value) : bool :=
  match result with
  | VObj fs => obj_has "default" fs
  | _ => false
  end.

(** Lines 100-102. *)
Definition unwrap_default (result : value) : value :=
  if has_default result then get_member result "default" else result.

(** A call guarded by the plain-function test of lines 92 and 104. *)
Definition invoke_if_plain (f : value) : M (completion value) :=
  if is_plain_function f then (tell Invoked ;;; ret (call f))%js
  else ret (Ok f).

(** [catch (e) { console.error(e); }] followed by [return result]:
    the promise of the async function is resolved with [result]. *)
Definition caught (e result : value) : M settled :=
  (tell (ConsoleError e) ;;; await result)%js.

Definition callback : Type := value -> M (completion value).

Definition loadDynamicImport (initiator : value) (cb : option callback) : M settled :=
  (* lines 92-94, before the try block *)
  (first <- invoke_if_plain initiator ;;
   match first with
   | Err e => ret (Rejected e)
   | Ok initiator' =>
       (* line 97 *)
       awaited <- await initiator' ;;
       match awaited with
       | Pending => ret Pending
       | Rejected e => caught e VUndefined
       | Fulfilled result0 =>
           (* lines 100-106 *)
           let result1 := unwrap_default result0 in
           second <- invoke_if_plain result1 ;;
           match second with
           | Err e => caught e result1
           | Ok result2 =>
               (* line 108 *)
               awaited' <- await result2 ;;
               match awaited' with
               | Pending => ret Pending
               | Rejected e => caught e result2
               | Fulfilled result3 =>
                   (* lines 110-112 *)
                   match cb with
                   | None => await result3
                   | Some f =>
                       r <- f result3 ;;
                       match r with
                       | Ok result4 => await result4
                       | Err e => caught e result3
                       end
                   end
               end
           end
       end
   end)%js.

(** ** The component scanner (App.js) *)

Record element : Type := {
  node : nat;
  dataset : list (string * string)
}.

Record App : Type := {
  registry : option (list (string * value));   (* dependencies.vueComponents *)
  vueComponents : option (list value)
}.

(** The callback of lines 56-65; [new Vue] is the rendering
    collaborator and yields the mounted instance. *)
Definition mount (el : element) (props : value) : callback :=
  fun Component =>
    match get Component "props" with
    | Err e => ret (Err e)
    | Ok propDefs =>
        if (truthy propDefs && truthy props)%bool then
          (r <- parseVueProps propDefs props ;;
           match r with
           | Ok props' => ret (Ok (VVue (node el) Component props'))
           | Err e => ret (Err e)
           end)%js
        else ret (Ok (VVue (node el) Component props))
    end.

(** The property key of [vueComponent in ...].  The registry is
    searched for an own key; a name that only [Object.prototype]
    provides (see [inherited_name]) is not modelled, and the theorems
    on the scanner leave such names out. *)
Definition component_key (vueComponent : option string) : string :=
  match vueComponent with Some name => name | None => "undefined" end.

Definition initVueComponent (app : App) (el : element)
    (vueComponent : option string) (props : value) : M settled :=
  let components := match registry app with Some r => r | None => [] end in
  match obj_get (component_key vueComponent) components with
  | Some initiator => loadDynamicImport initiator (Some (mount el props))
  | None => ret (Fulfilled VUndefined)           (* Promise.resolve() *)
  end.

(** [const { vueComponent, ...props } = $el.dataset] *)
Definition rest_props (el : element) : value :=
  VObj (map (fun kv => (fst kv, VStr (snd kv))) (obj_remove "vueComponent" (dataset el))).

Definition scan_element (app : App) (el : element) : M settled :=
  initVueComponent app el (obj_get "vueComponent" (dataset el)) (rest_props el).

(** The branches of one scan, started in document order. *)
Fixpoint scan_all (app : App) (els : list element) : M (list settled) :=
  match els with
  | [] => ret []
  | el :: rest =>
      (p <- scan_element app el ;;
       ps <- scan_all app rest ;;
       ret (p :: ps))%js
  end.

Definition is_rejected (p : settled) : bool :=
  match p with Rejected _ => true | _ => false end.

Definition is_pending (p : settled) : bool :=
  match p with Pending => true | _ => false end.

Definition settled_value (p : settled) : value :=
  match p with Fulfilled v => v | _ => VUndefined end.

(** [Promise.all]: rejects as soon as one input rejects, otherwise
    waits for all of them.  When several inputs reject, the one that
    rejects first in time wins in the browser; the list order stands
    for that order here, and the theorems only rely on the reason
    being that of some rejected input. *)
Definition Promise_all (ps : list settled) : settled :=
  match find is_rejected ps with
  | Some p => p
  | None =>
      if existsb is_pending ps then Pending
      else Fulfilled (VArr (map settled_value ps))
  end.

(** [nodes] is what [$map] finds in the container, [None] when the
    container itself is not found and [$map] returns [null]. *)
Definition initVueComponents (app : App) (nodes : option (list element))
  : M (settled * App) :=
  match nodes with
  | None => ret (Rejected (TypeError "object null is not iterable"), app)
  | Some els =>
      (promises <- scan_all app els ;;
       match Promise_all promises with
       | Fulfilled (VArr newComponents) =>
           let old := match vueComponents app with Some l => l | None => [] end in
           ret (Fulfilled VUndefined,
                {| registry := registry app;
                   vueComponents := Some (old ++ newComponents)%list |})
       | other => ret (other, app)
       end)%js
  end.

Definition is_mounted (v : value) : bool :=
  match v with VVue _ _ _ => true | _ => false end.

(** ** The script and stylesheet loaders (util.js) *)

Inductive dom_node : Type :=
| Script (src : string) (async : bool)
| Link (href : string)
| Other (tag : string).

(** The children of [document.head], and the rest of the document in
    document order. *)
Record document : Type := {
  head : list dom_node;
  body : list dom_node
}.

Record loader : Type := {
  loadedJSFiles : list (string * value);
  loadedCSSFiles : list string;
  page : document
}.

Definition is_script (n : dom_node) : bool :=
  match n with Script _ _ => true | _ => false end.

(** [parent.insertBefore(new, first)] for the first script of a list
    of siblings, [None] when the list has no script. *)
Fixpoint insert_before_script (new : dom_node) (ns : list dom_node)
  : option (list dom_node) :=
  match ns with
  | [] => None
  | n :: rest =>
      if is_script n then Some (new :: n :: rest)
      else match insert_before_script new rest with
           | Some rest' => Some (n :: rest')
           | None => None
           end
  end.

(** Lines 35-47: [None] when [getElementsByTagName('script')[0]] is
    [undefined] and reading its [parentNode] throws. *)
Definition insert_script (new : dom_node) (d : document) : option document :=
  match insert_before_script new (head d) with
  | Some head' => Some {| head := head'; body := body d |}
  | None =>
      match insert_before_script new (body d) with
      | Some body' => Some {| head := head d; body := body' |}
      | None => None
      end
  end.

Definition valid_url (url : value) : option string :=
  match url with
  | VStr u => if String.eqb u "" then None else Some u
  | _ => None
  end.

Definition resolved : value := VPromise (Some (Ok VUndefined)).

(** [Object.keys(loadedJSFiles).includes(url)] looks at the own keys;
    [loadedJSFiles[url] = promise] records the promise, except under
    the URL [__proto__], where it becomes the prototype of the cache
    and is what [loadedJSFiles[url]] then returns. *)
Definition loadJSFile (url async : value) (st : loader) : value * loader :=
  match valid_url url with
  | None => (resolved, st)
  | Some u =>
      match obj_get u (loadedJSFiles st) with
      | Some promise => (promise, st)
      | None =>
          match insert_script (Script u (truthy async)) (page st) with
          | Some page' =>
              let promise :=
                VPromise (option_map (fun ok => Ok (VBool ok)) (script_event u)) in
              (promise, {| loadedJSFiles := obj_assign u promise (loadedJSFiles st);
                           loadedCSSFiles := loadedCSSFiles st;
                           page := page' |})
          | None =>
              let promise :=
                VPromise (Some (Err (TypeError "Cannot read properties of undefined"))) in
              (promise, {| loadedJSFiles := obj_assign u promise (loadedJSFiles st);
                           loadedCSSFiles := loadedCSSFiles st;
                           page := page st |})
          end
      end
  end.

Definition loadCssFile (url : value) (st : loader) : value * loader :=
  match valid_url url with
  | None => (resolved, st)
  | Some u =>
      if existsb (String.eqb u) (loadedCSSFiles st) then (resolved, st)
      else
        match head (page st) with
        | [] =>
            (* childNodes[-1] is undefined: reading nextSibling throws *)
            (VPromise (Some (Err (TypeError "Cannot read properties of undefined"))), st)
        | children =>
            (resolved,
             {| loadedJSFiles := loadedJSFiles st;
                loadedCSSFiles := (loadedCSSFiles st ++ [u])%list;
                page := {| head := (children ++ [Link u])%list; body := body (page st) |} |})
        end
  end.

End WithHost.

(** ** Reference statements

    The behaviour the specification describes, written from its words,
    to compare the functions above with. *)

Section Reference.
Context {host : Host}.

(** Successive assignments [output[k] = v], in list order. *)
Definition assign_all (output entries : list (string * value))
  : list (string * value) :=
  fold_left (fun o kv => obj_set (fst kv) (snd kv) o) entries output.

(** The dataset as the claim words it, for any prefix: the entries
    whose key starts with the prefix, the prefix stripped, the first
    remaining character lower-cased, empty keys dropped. *)
Definition claimed_dataset (prefix : string) (src : list (string * string))
  : list (string * value) :=
  flat_map (fun entry : string * string =>
              if String.prefix prefix (fst entry) then
                let k := lower_first (drop (String.length prefix) (fst entry)) in
                if String.eqb k "" then [] else [(k, decode (snd entry))]
              else []) src.

(** The dataset without a prefix: every entry with a key, as it is. *)
Definition unprefixed_dataset (src : list (string * string))
  : list (string * value) :=
  flat_map (fun entry : string * string =>
              if String.eqb (fst entry) "" then []
              else [(fst entry, decode (snd entry))]) src.

(** The entries an object keeps of a list of assignments: all but
    those to the key [__proto__]. *)
Definition own_entries (l : list (string * value)) : list (string * value) :=
  filter (fun kv => negb (String.eqb (fst kv) "__proto__")) l.

(** The last binding of a key in a list of entries. *)
Definition last_binding (k : string) (l : list (string * value)) : option value :=
  obj_get k (rev l).

(** The value [convertString] gives for the attribute of a declared
    parameter, [undefined] standing for a thrown error. *)
Definition converted (props : value) (entry : string * value) : value :=
  match fst (convertString (get_opt props (fst entry)) (requestedTypes_of (snd entry))) with
  | Ok v => v
  | Err _ => VUndefined
  end.

(** The arguments mapping: one entry for each declared parameter whose
    raw attribute is present and not empty. *)
Definition kept_props (props : value) (defs : list (string * value))
  : list (string * value) :=
  flat_map (fun entry =>
              if truthy (get_opt props (fst entry))
              then [(fst entry, converted props entry)] else []) defs.

(** The raw attributes are a plain object, or absent. *)
Definition plain_props (props : value) : bool :=
  match props with
  | VObj _ | VUndefined | VNull => true
  | _ => false
  end.

(** Every candidate a prop definition yields is a function. *)
Definition callable_types (propDef : value) : bool :=
  match requestedTypes_of propDef with
  | VArr types => forallb is_function types
  | _ => true
  end.

(** The candidate argument passes the guard of [convertString]. *)
Definition is_nonempty_array (v : value) : bool :=
  match v with VArr (_ :: _) => true | _ => false end.

(** How the branch of a marker element settles. *)
Definition branch (app : App) (el : element) : settled := fst (scan_element app el).

Definition is_fulfilled (p : settled) : bool :=
  match p with Fulfilled _ => true | _ => false end.

(** The branch of a marker element settles with a mounted instance. *)
Definition mounts (app : App) (el : element) : bool :=
  match branch app el with
  | Fulfilled inst => is_mounted inst
  | _ => false
  end.

(** The instances the application holds before a scan. *)
Definition existing (app : App) : list value :=
  match vueComponents app with Some l => l | None => [] end.

(** The marker element names a component the registry lacks. *)
Definition unregistered (app : App) (el : element) : bool :=
  negb (obj_has (component_key (obj_get "vueComponent" (dataset el)))
          (match registry app with Some r => r | None => [] end)).

End Reference.

(** A host that implements the modelled fragments and nothing more:
    every string outside them is rejected, every script loads.  Its
    [Date] is strict: a day beyond the end of its month makes an
    invalid Date. *)
Definition reference_host : Host := {|
  date_fallback := fun _ => None;
  regexp_fallback := fun _ _ => Err (SyntaxError "Invalid regular expression");
  json_fallback := fun _ => None;
  script_event := fun _ => Some true;
  date_string := "Thu Jan 01 1970 00:00:00 GMT+0000"
|}.

(** [Date.parse] as V8 (Chrome, Node.js) reads a string of the
    date-time format: every day from 01 to 31 passes in every month,
    and the days beyond the end of the month carry over into the next
    month (2021-02-30 is 2021-03-02). *)
Definition rollover_date_time (s : string) : option Z :=
  match regex_exec ecma_date_regex s with
  | None => None
  | Some c =>
      match capture 1 c with
      | None => None
      | Some ys =>
          let y := signed_value ys in
          let m := field 2 c in
          let d := field 3 c in
          let h := field 4 c in
          let mi := field 5 c in
          let sec := field 6 c in
          let ms := field 7 c in
          let sign := match capture 9 c with
                      | Some "-" => (-1)%Z
                      | _ => 1%Z
                      end in
          let oh := field 10 c in
          let om := field 11 c in
          if (negb (String.eqb ys "-000000")
              && (1 <=? m) && (m <=? 12) && (1 <=? d) && (d <=? 31)
              && (h <=? 23) && (mi <=? 59) && (sec <=? 59)
              && (oh <=? 23) && (om <=? 59))%bool%Z
          then time_clip (make_day y m d * ms_per_day + make_time h mi sec ms
                          - sign * (oh * 60 + om) * 60000)%Z
          else None
      end
  end.

(** The reference host with the [Date] of V8. *)
Definition rollover_host : Host := {|
  date_fallback := rollover_date_time;
  regexp_fallback := fun _ _ => Err (SyntaxError "Invalid regular expression");
  json_fallback := fun _ => None;
  script_event := fun _ => Some true;
  date_string := "Thu Jan 01 1970 00:00:00 GMT+0000"
|}.

(** ** A sample page

    Two shapes of registry entry: a component behind a lazy import,
    and a factory that throws. *)

Definition Countdown : value :=
  VObj [("props", VObj [("title", VCtor String_); ("date", VCtor Date)])].

(** [() => import('./Module.vue')] once the chunk has loaded. *)
Definition lazy (module : value) : value :=
  VFun false (Ok (VPromise (Some (Ok (VObj [("default", module)]))))).

Definition broken : value := VFun false (Err (VError "Error" "boom")).

Definition sample_app : App := {|
  registry := Some [("Countdown", lazy Countdown); ("Broken", broken)];
  vueComponents := None
|}.

(** [<div data-vue-component="name" data-...>] *)
Definition marker (n : nat) (name : string) (attributes : list (string * string))
  : element :=
  {| node := n; dataset := ("vueComponent", name) :: attributes |}.

(** * Further helpers of the repository *)

(** ** [camelToKebabCase] (dom.js) *)

Definition is_upper (c : ascii) : bool := char_between "A" "Z" c.

Definition is_lower (c : ascii) : bool := char_between "a" "z" c.

(** [.replace(/([a-z0-9])([A-Z])/g, '$1-$2')]: after a match the
    search resumes behind the two characters it consumed. *)
Fixpoint hyphenate_camel (s : string) : string :=
  match s with
  | EmptyString => EmptyString
  | String a t =>
      match t with
      | String b rest =>
          if ((is_lower a || is_digit a) && is_upper b)%bool
          then String a (String "-" (String b (hyphenate_camel rest)))
          else String a (hyphenate_camel t)
      | EmptyString => String a EmptyString
      end
  end.

(** [.replace(/([A-Z])([A-Z])(?=[a-z])/g, '$1-$2')]: the lookahead
    consumes nothing, so the search resumes at the lower-case
    letter. *)
Fixpoint hyphenate_acronym (s : string) : string :=
  match s with
  | EmptyString => EmptyString
  | String a t =>
      match t with
      | String b t' =>
          match t' with
          | String c _ =>
              if (is_upper a && is_upper b && is_lower c)%bool
              then String a (String "-" (String b (hyphenate_acronym t')))
              else String a (hyphenate_acronym t)
          | EmptyString => String a (hyphenate_acronym t)
          end
      | EmptyString => String a EmptyString
      end
  end.

(** [toLowerCase] on a Latin-1 string. *)
Fixpoint toLowerCase (s : string) : string :=
  match s with
  | EmptyString => EmptyString
  | String c rest => String (to_lower c) (toLowerCase rest)
  end.

Definition camelToKebabCase (s : string) : string :=
  toLowerCase (hyphenate_acronym (hyphenate_camel s)).

(** The string without its hyphens. *)
Fixpoint without_hyphens (s : string) : string :=
  match s with
  | EmptyString => EmptyString
  | String c rest =>
      if Ascii.eqb c "-" then without_hyphens rest
      else String c (without_hyphens rest)
  end.

Fixpoint string_forall (p : ascii -> bool) (s : string) : bool :=
  match s with
  | EmptyString => true
  | String c rest => (p c && string_forall p rest)%bool
  end.

(** ** The class helpers (dom.js)

    The class list of every element, by node: the store the helpers
    mutate.  A node listed twice is the same element. *)

Definition class_store : Type := nat -> list string.

Definition set_classes (st : class_store) (id : nat) (l : list string) : class_store :=
  fun j => if Nat.eqb j id then l else st j.

(** The first argument of the helpers: a falsy value, one element
    (a truthy value without a numeric [length]), or an array or
    NodeList of elements. *)
Inductive target : Type :=
| NoTarget
| OneElement (id : nat)
| Elements (ids : list nat).

(** Lines 204-205: [None] when the argument is falsy. *)
Definition target_elements (array : target) : option (list nat) :=
  match array with
  | NoTarget => None
  | OneElement id => Some [id]
  | Elements ids => Some ids
  end.

Definition is_ascii_whitespace (c : ascii) : bool :=
  let n := N_of_ascii c in
  (N.eqb n 9 || N.eqb n 10 || N.eqb n 12 || N.eqb n 13 || N.eqb n 32)%bool.

(** The exception a [DOMTokenList] method throws for a token: the
    empty token is a SyntaxError, one with white space an
    InvalidCharacterError. *)
Definition token_error (token : string) : option value :=
  if String.eqb token "" then Some (VError "SyntaxError" "The token must not be empty")
  else if negb (string_forall (fun c => negb (is_ascii_whitespace c)) token)
       then Some (VError "InvalidCharacterError" token)
       else None.

Definition has_class (token : string) (l : list string) : bool :=
  existsb (String.eqb token) l.

(** [classList.add], [classList.remove] and [classList.toggle] on a
    valid token. *)
Definition classList_add (token : string) (l : list string) : list string :=
  if has_class token l then l else (l ++ [token])%list.

Definition classList_remove (token : string) (l : list string) : list string :=
  filter (fun t => negb (String.eqb token t)) l.

Definition classList_toggle (token : string) (l : list string) : list string :=
  if has_class token l then classList_remove token l else (l ++ [token])%list.

(** [classNames.forEach] on one element: the class list reached,
    and the exception that stopped the loop, if any. *)
Fixpoint each_class (op : string -> list string -> list string)
    (classNames : list string) (l : list string) : list string * option value :=
  match classNames with
  | [] => (l, None)
  | token :: rest =>
      match token_error token with
      | Some e => (l, Some e)
      | None => each_class op rest (op token l)
      end
  end.

(** [Array.prototype.forEach.call(array, ...)] *)
Fixpoint each_element (op : string -> list string -> list string)
    (ids : list nat) (classNames : list string) (st : class_store)
  : class_store * option value :=
  match ids with
  | [] => (st, None)
  | id :: rest =>
      let '(l, thrown) := each_class op classNames (st id) in
      match thrown with
      | Some e => (set_classes st id l, Some e)
      | None => each_element op rest classNames (set_classes st id l)
      end
  end.

Definition with_target (op : string -> list string -> list string)
    (array : target) (classNames : list string) (st : class_store)
  : class_store * option value :=
  match target_elements array with
  | None => (st, None)
  | Some ids => each_element op ids classNames st
  end.

Definition removeClass := with_target classList_remove.

Definition addClass := with_target classList_add.

Definition toggleClass := with_target classList_toggle.

Definition setClass (array : target) (status : bool) (classNames : list string)
    (st : class_store) : class_store * option value :=
  if status then addClass array classNames st
  else removeClass array classNames st.

(** A class name the token list accepts. *)
Definition valid_token (token : string) : bool :=
  match token_error token with
  | None => true
  | Some _ => false
  end.

(** One operation for each class name in turn. *)
Definition apply_classes (op : string -> list string -> list string)
    (classNames : list string) (l : list string) : list string :=
  fold_left (fun l token => op token l) classNames l.

Definition listed (id : nat) (ids : list nat) : bool := existsb (Nat.eqb id) ids.

(** ** [Module] (Module.js) *)

(** An entry of [$elements]: one node, or an array of nodes. *)
Inductive cached : Type :=
| Single (n : nat)
| Several (ns : list nat).

Record ModuleObject : Type := {
  el_ : option nat;                        (* $el *)
  cache_ : list (string * string);         (* $cache: key and selector *)
  elements_ : list (string * cached)       (* $elements *)
}.

Section Queries.

(** [root.querySelectorAll(selector)], the document being the root
    [None]: the nodes found, or the SyntaxError of a selector that
    does not parse. *)
Variable querySelectorAll : option nat -> string -> completion (list nat).

(** The object after the call, and the exception the call threw. *)
Definition addToCache (this : ModuleObject) (key selector : string) (keepArray : bool)
  : ModuleObject * option value :=
  match querySelectorAll (el_ this) selector with
  | Err e => (this, Some e)
  | Ok result =>
      match result with
      | [] => (this, None)
      | first :: others =>
          let entry :=
            match others with
            | [] => if keepArray then Several result else Single first
            | _ => Several result
            end in
          ({| el_ := el_ this; cache_ := cache_ this;
              elements_ := obj_set key entry (elements_ this) |}, None)
      end
  end.

(** The [forEach] of [initCache] over the entries read at its start. *)
Fixpoint initCache_loop (entries : list (string * string)) (this : ModuleObject)
  : ModuleObject * option value :=
  match entries with
  | [] => (this, None)
  | (key, selector) :: rest =>
      match addToCache this key selector false with
      | (this', Some e) => (this', Some e)
      | (this', None) => initCache_loop rest this'
      end
  end.

Definition initCache (this : ModuleObject) : ModuleObject * option value :=
  initCache_loop (cache_ this) this.

Definition init (this : ModuleObject) : ModuleObject * option value :=
  initCache this.

(** What a selector with a given result leaves under its key. *)
Definition cache_entry (result : list nat) (before : option cached) : option cached :=
  match result with
  | [] => before
  | [n] => Some (Single n)
  | _ => Some (Several result)
  end.

End Queries.

(** ** [isInViewport] (dom.js)

    The rectangle and the window sizes are numbers of the host; the
    function only adds, subtracts, multiplies and compares them. *)

Section Viewport.

Variable num : Type.
Variable zero : num.
Variables add sub mul : num -> num -> num.
Variables lt le : num -> num -> bool.
Variable num_truthy : num -> bool.

Record rect : Type := {
  r_top : num; r_right : num; r_bottom : num; r_left : num;
  r_height : num; r_width : num
}.

(** [a || b] on numbers. *)
Definition num_or (a b : num) : num := if num_truthy a then a else b.

Definition isInViewport (distance : rect)
    (innerHeight clientHeight innerWidth clientWidth : num)
    (partially : bool) (percentageVisible : option num) : bool :=
  let windowHeight := num_or innerHeight clientHeight in
  let windowWidth := num_or innerWidth clientWidth in
  let shrink :=
    match percentageVisible with
    | Some p => if num_truthy p then Some p else None
    | None => None
    end in
  let distanceTop :=
    match shrink with
    | Some p => add (r_top distance) (mul (r_height distance) p)
    | None => r_top distance
    end in
  let distanceRight :=
    match shrink with
    | Some p => sub (r_right distance) (mul (r_width distance) p)
    | None => r_right distance
    end in
  let distanceBottom :=
    match shrink with
    | Some p => sub (r_bottom distance) (mul (r_height distance) p)
    | None => r_bottom distance
    end in
  let distanceLeft :=
    match shrink with
    | Some p => add (r_left distance) (mul (r_width distance) p)
    | None => r_left distance
    end in
  let contentVisible :=
    ((lt distanceTop zero && lt windowHeight distanceBottom)
     || (lt distanceLeft zero && lt windowWidth distanceRight))%bool in
  let topVisible := (le zero distanceTop && le distanceTop windowHeight)%bool in
  let rightVisible := (le zero distanceRight && le distanceRight windowWidth)%bool in
  let bottomVisible := (le zero distanceBottom && le distanceBottom windowHeight)%bool in
  let leftVisible := (le zero distanceLeft && le distanceLeft windowWidth)%bool in
  if partially
  then (contentVisible
        || ((topVisible || bottomVisible) && (leftVisible || rightVisible)))%bool
  else (topVisible && rightVisible && bottomVisible && leftVisible)%bool.

End Viewport.

(** ** [initializeModule] (util.js) *)

Section Construction.
Context {host : Host}.

(** [new Include(app, el)] for the application and element at hand:
    the instance, or what the constructor throws. *)
Variable construct : value -> completion value.

(** [include.init], when it is a function: the completion of
    [include.init()]. *)
Variable init_method : value -> option (completion value).

(** The callback of lines 131-143. *)
Definition instantiate (init : bool) : callback :=
  fun Include =>
    if truthy Include then
      match construct Include with
      | Err e => ret (Err e)
      | Ok include =>
          if init then
            match init_method include with
            | Some (Err e) => ret (Err e)
            | _ => ret (Ok include)
            end
          else ret (Ok include)
      end
    else ret (Ok VNull).

(** [init] is the fourth argument when it is a boolean, [None]
    otherwise. *)
Definition initializeModule (initiator : value) (init : option bool) : M settled :=
  loadDynamicImport initiator
    (Some (instantiate (match init with Some b => b | None => true end))).

End Construction.

(** ** Reference statements for the further properties *)

Section Reference2.
Context {host : Host}.

(** What the [switch] of [convertString] assigns for one candidate. *)
Definition switch_output (str : string) (output type : value) : value :=
  match type with
  | VCtor Number => VNum (parseFloat str)
  | VCtor Date => parseISODate str
  | VCtor Boolean | VCtor Array | VCtor Object =>
      match JSON_parse str with
      | Some v => v
      | None => output
      end
  | _ => VStr str
  end.

(** The candidates whose value is never an instance of them: Number,
    String, Boolean and user functions. *)
Definition never_stops (type : value) : bool :=
  match type with
  | VCtor Number | VCtor String_ | VCtor Boolean | VFun _ _ => true
  | _ => false
  end.

End Reference2.

(** The first script element of a page, in document order. *)
Definition first_script (d : document) : option dom_node :=
  find is_script (head d ++ body d)%list.

(** The characters a regular expression can consume. *)
Fixpoint regex_char (r : regex) (c : ascii) : bool :=
  match r with
  | Eps => false
  | Chr a => Ascii.eqb a c
  | Rng lo hi => char_between lo hi c
  | Seq r1 r2 | Alt r1 r2 => (regex_char r1 c || regex_char r2 c)%bool
  | Opt r1 | Star r1 | Grp _ r1 => regex_char r1 c
  end.

(** The least number of characters a match consumes. *)
Fixpoint regex_min (r : regex) : nat :=
  match r with
  | Eps => 0%nat
  | Chr _ | Rng _ _ => 1%nat
  | Seq r1 r2 => (regex_min r1 + regex_min r2)%nat
  | Alt r1 r2 => Nat.min (regex_min r1) (regex_min r2)
  | Opt _ | Star _ => 0%nat
  | Grp _ r1 => regex_min r1
  end.


(** The characters an ISO date string is made of: the digits and the
    separators of the expression of line 218. *)
Definition iso_char (c : ascii) : bool :=
  (is_digit c || existsb (Ascii.eqb c) (list_ascii_of_string "-T:.Z+"))%bool.

(** ** A sample document for the further helpers

    [.title] finds one node, [.item] two, [.none] nothing, and the
    selector [li(] does not parse. *)

Definition sample_query (root : option nat) (selector : string)
  : completion (list nat) :=
  if String.eqb selector ".title" then Ok [1%nat]
  else if String.eqb selector ".item" then Ok [2%nat; 3%nat]
  else if String.eqb selector "li(" then Err (SyntaxError "li(")
  else Ok [].

Definition sample_module : ModuleObject := {|
  el_ := None;
  cache_ := [("title", ".title"); ("items", ".item"); ("missing", ".none")];
  elements_ := []
|}.

Definition sample_broken_module : ModuleObject := {|
  el_ := None;
  cache_ := [("title", ".title"); ("bad", "li("); ("items", ".item")];
  elements_ := []
|}.

Definition sample_classes : class_store :=
  fun j => if Nat.eqb j 1 then ["card"; "open"]
           else if Nat.eqb j 2 then ["card"] else [].

(** A module class whose instances have an [init] method. *)
Definition sample_class : value := VFun true (Ok VUndefined).

Definition sample_construct (Include : value) : completion value :=
  Ok (VObj [("$cache", VObj []); ("$elements", VObj [])]).

Definition sample_init_method (include : value) : option (completion value) :=
  Some (Ok VUndefined).

(** A component that declares no props, and one whose declaration
    lists its types inside [type]. *)
Definition Banner : value := VObj [("name", VStr "banner")].

Definition Picker : value :=
  VObj [("props", VObj [("date", VObj [("type", VArr [VCtor Date; VCtor String_])])])].

Definition sample_widgets : App := {|
  registry := Some [("Banner", lazy Banner); ("Picker", lazy Picker)];
  vueComponents := None
|}.

Definition sample_loader : loader := {|
  loadedJSFiles := [];
  loadedCSSFiles := [];
  page := {| head := [Other "title"];
             body := [Other "div"; Script "/app.js" false] |}
|}.
(** * Properties *)

Local Open Scope list_scope.
Local Open Scope nat_scope.

Section Properties.
Context {host : Host}.

(** ** Basic facts *)

Lemma obj_get_set_same {A} (k : string) (v : A) (fs : list (string * A)) :
  obj_get k (obj_set k v fs) = Some v.
Proof.
  induction fs as [|[k' v'] fs IH]; simpl.
  - now rewrite String.eqb_refl.
  - destruct (String.eqb k k') eqn:E; simpl.
    + now rewrite String.eqb_refl.
    + now rewrite E.
Qed.

Lemma obj_get_set_other {A} (k k' : string) (v : A) (fs : list (string * A)) :
  String.eqb k k' = false -> obj_get k (obj_set k' v fs) = obj_get k fs.
Proof.
  intros Hne. induction fs as [|[k0 v0] fs IH]; simpl.
  - now rewrite Hne.
  - destruct (String.eqb k' k0) eqn:E; simpl.
    + apply String.eqb_eq in E. subst k0. now rewrite Hne.
    + now rewrite IH.
Qed.

Lemma obj_get_app {A} (k : string) (l1 l2 : list (string * A)) :
  obj_get k (l1 ++ l2) =
  match obj_get k l1 with Some v => Some v | None => obj_get k l2 end.
Proof.
  induction l1 as [|[k' v'] l1 IH]; simpl; [reflexivity|].
  now destruct (String.eqb k k').
Qed.

Lemma obj_get_none_not_in {A} (k : string) (fs : list (string * A)) :
  obj_get k fs = None <-> ~ In k (map fst fs).
Proof.
  induction fs as [|[k' v'] fs IH]; simpl.
  - tauto.
  - destruct (String.eqb k k') eqn:E.
    + apply String.eqb_eq in E. subst. split; [discriminate | tauto].
    + apply String.eqb_neq in E. rewrite IH. split.
      * intros H [H1|H1]; [congruence | tauto].
      * tauto.
Qed.

(** Setting a fresh key appends the property. *)
Lemma obj_set_fresh {A} (k : string) (v : A) (fs : list (string * A)) :
  obj_get k fs = None -> obj_set k v fs = fs ++ [(k, v)].
Proof.
  induction fs as [|[k' v'] fs IH]; simpl; [reflexivity|].
  destruct (String.eqb k k'); [discriminate|].
  intros H. now rewrite IH.
Qed.

(** ** The coercion engine *)

(** The Number candidate never ends the search: the parsed number is
    a primitive, and no primitive is an instance of [Number]. *)
Lemma convert_loop_number (str : string) (rest : list value) (output : value) :
  convert_loop str (VCtor Number :: rest) output
  = convert_loop str rest (VNum (parseFloat str)).
Proof.
  simpl. unfold bind, ret. simpl.
  destruct (convert_loop str rest (VNum (parseFloat str))) as [r t].
  reflexivity.
Qed.

(** A default candidate (String or any type the switch does not
    name) that is a function never ends the search either. *)
Lemma convert_loop_string (str : string) (rest : list value) (output : value) :
  convert_loop str (VCtor String_ :: rest) output
  = convert_loop str rest (VStr str).
Proof.
  simpl. unfold bind, ret. simpl.
  destruct (convert_loop str rest (VStr str)) as [r t].
  reflexivity.
Qed.

(** C1: evaluated on the two inputs the claim names.  With the
    candidates Number then String the search does not stop at
    Number: the string "42" comes back, not the number 42.  With Date
    then String the date parser finds no date and the string "42"
    comes back, as the claim says. *)
Theorem convertString_42 :
  convertString (VStr "42") (VArr [VCtor Number; VCtor String_]) = (Ok (VStr "42"), [])
  /\ parseFloat "42" = Finite false 42 0
  /\ convertString (VStr "42") (VArr [VCtor Date; VCtor String_]) = (Ok (VStr "42"), []).
Proof.
  repeat split; reflexivity.
Qed.

(** C3: evaluated on a string whose float parse is NaN.  The Number
    candidate does not end the search: the String candidate that
    follows is reached and its value is what comes back. *)
Theorem convertString_NaN_continues :
  parseFloat "abc" = NaN
  /\ convertString (VStr "abc") (VArr [VCtor Number; VCtor String_]) = (Ok (VStr "abc"), [])
  /\ convertString (VStr "abc") (VArr [VCtor Number]) = (Ok (VNum NaN), []).
Proof.
  repeat split; reflexivity.
Qed.

(** For every string at all, a later candidate is reached after
    Number. *)
Lemma convertString_number_then (str : string) (type : value) (rest : list value) :
  convertString (VStr str) (VArr (VCtor Number :: type :: rest))
  = convert_loop str (type :: rest) (VNum (parseFloat str)).
Proof.
  unfold convertString. apply convert_loop_number.
Qed.

(** ** The ISO date parser *)

Lemma parseISODate_no_match (s : string) :
  regex_exec iso_regex s = None -> parseISODate s = VNull.
Proof.
  intros H. unfold parseISODate. rewrite H. now destruct (String.eqb s "").
Qed.

Lemma parseISODate_invalid (s : string) (matches : captures) :
  regex_exec iso_regex s = Some matches ->
  isValidDate (new_Date (fullDateString matches)) = false ->
  parseISODate s = VNull.
Proof.
  intros H1 H2. unfold parseISODate. rewrite H1. cbv zeta. rewrite H2.
  now destruct (String.eqb s "").
Qed.

(** What comes back is null or a valid Date. *)
Lemma parseISODate_null_or_valid (s : string) :
  parseISODate s = VNull \/ isValidDate (parseISODate s) = true.
Proof.
  unfold parseISODate. destruct (String.eqb s ""); [now left|].
  destruct (regex_exec iso_regex s) as [matches|]; [|now left].
  cbv zeta. destruct (isValidDate (new_Date (fullDateString matches))) eqn:E;
    [now right | now left].
Qed.

(** A day beyond the end of its month passes the regular expression;
    what comes back is then the verdict of the host's [Date]. *)
Lemma parseISODate_feb_30 :
  parseISODate "2021-02-30"
  = match date_fallback "2021-02-30T00:00:00.000Z" with
    | Some t => VDate (Some t)
    | None => VNull
    end.
Proof.
  unfold parseISODate, new_Date. cbn [String.eqb Ascii.eqb Bool.eqb].
  change (regex_exec iso_regex "2021-02-30")
    with (Some [(3, "30"); (2, "02"); (1, "2021")]).
  cbv beta iota zeta.
  change (Date_parse (fullDateString [(3, "30"); (2, "02"); (1, "2021")]))
    with (date_fallback "2021-02-30T00:00:00.000Z").
  destruct (date_fallback "2021-02-30T00:00:00.000Z"); reflexivity.
Qed.

(** On a string the regular expression accepts, the result is the
    Date the host makes of the normalised string, or null when that
    Date is invalid. *)
Lemma parseISODate_match (s : string) (matches : captures) :
  regex_exec iso_regex s = Some matches ->
  parseISODate s
  = match Date_parse (fullDateString matches) with
    | Some t => VDate (Some t)
    | None => VNull
    end.
Proof.
  intros H. unfold parseISODate. destruct (String.eqb s "") eqn:E.
  - apply String.eqb_eq in E. subst s. vm_compute in H. discriminate.
  - rewrite H. cbv zeta. unfold new_Date, isValidDate.
    now destruct (Date_parse (fullDateString matches)).
Qed.

(** C4, amended: on every host the canonical string and its compact
    form parse to the same instant, 2021-11-26T00:00:00.000Z, with
    the missing time fields read as zero and the missing zone as UTC;
    a string the regular expression rejects, such as "2021-13-40"
    with its month 13, gives null.  The parser throws on no string,
    and what it returns is null or a valid Date.  On a string the
    expression accepts, the result is what the host's [Date] makes of
    the normalised string, null only when that Date is invalid: the
    expression admits the days 01 to 31 in every month, so whether a
    day beyond the end of its month, as in "2021-02-30", gives null
    is the verdict of the host. *)
Theorem parseISODate_spec :
  parseISODate "2021-11-26T00:00:00.000Z" = VDate (Some 1637884800000%Z)
  /\ parseISODate "20211126" = VDate (Some 1637884800000%Z)
  /\ option_map fullDateString (regex_exec iso_regex "20211126")
     = Some "2021-11-26T00:00:00.000Z"
  /\ regex_exec iso_regex "2021-13-40" = None
  /\ parseISODate "2021-13-40" = VNull
  /\ (forall s, regex_exec iso_regex s = None -> parseISODate s = VNull)
  /\ (forall s matches,
        regex_exec iso_regex s = Some matches ->
        parseISODate s
        = match Date_parse (fullDateString matches) with
          | Some t => VDate (Some t)
          | None => VNull
          end)
  /\ (forall s, parseISODate s = VNull \/ isValidDate (parseISODate s) = true)
  /\ regex_exec iso_regex "2021-02-30" = Some [(3, "30"); (2, "02"); (1, "2021")]
  /\ parseISODate "2021-02-30"
     = match date_fallback "2021-02-30T00:00:00.000Z" with
       | Some t => VDate (Some t)
       | None => VNull
       end.
Proof.
  split; [reflexivity|]. split; [reflexivity|]. split; [reflexivity|].
  split; [reflexivity|]. split; [reflexivity|]. split; [|split; [|split; [|split]]].
  - apply parseISODate_no_match.
  - apply parseISODate_match.
  - apply parseISODate_null_or_valid.
  - reflexivity.
  - apply parseISODate_feb_30.
Qed.

(** ** The guard of [convertString] *)

(** C10: [convertString] returns null, logging nothing, for every
    input that is not a string and for every candidate argument that
    is not a non-empty array; so a declared parameter whose definition
    yields no candidate list maps its raw value to null. *)
Theorem convertString_guard :
  (forall str requestedTypes,
      is_string str = false -> convertString str requestedTypes = (Ok VNull, []))
  /\ (forall str requestedTypes,
        is_nonempty_array requestedTypes = false ->
        convertString str requestedTypes = (Ok VNull, []))
  /\ (forall props key propDef,
        requestedTypes_of propDef = VUndefined ->
        truthy (get_opt props key) = true ->
        parseVueProps_entry props (key, propDef) = (Ok (Some (key, VNull)), [])
        /\ parseVueProps (VObj [(key, propDef)]) props = (Ok (VObj [(key, VNull)]), [])).
Proof.
  assert (G : forall str requestedTypes,
             is_nonempty_array requestedTypes = false ->
             convertString str requestedTypes = (Ok VNull, [])).
  { intros str ty H. destruct ty as [| | | | | |xs| | | | | |]; try (now destruct str).
    destruct xs; [now destruct str | discriminate]. }
  split; [|split].
  - intros str ty H. destruct str; try reflexivity. discriminate.
  - exact G.
  - intros props key propDef Hty Htr.
    assert (E : parseVueProps_entry props (key, propDef) = (Ok (Some (key, VNull)), [])).
    { unfold parseVueProps_entry. rewrite Htr, Hty. simpl.
      rewrite G by reflexivity. reflexivity. }
    split; [exact E|].
    unfold parseVueProps. cbn [entries parseVueProps_loop]. rewrite E. reflexivity.
Qed.

(** ** The dynamic resolution engine *)

Lemma await_concrete (v : value) :
  is_thenable v = false -> await v = (Fulfilled v, []).
Proof.
  unfold is_thenable, await. destruct v; try reflexivity; try discriminate.
  destruct (thenable_method (VObj fields)); [discriminate | reflexivity].
Qed.

Lemma not_function_not_plain (v : value) :
  is_function v = false -> is_plain_function v = false.
Proof. destruct v; simpl; try reflexivity; discriminate. Qed.

(** C8: a value that is no function, no promise or thenable and has
    no [default] member resolves, without a callback, to itself; no
    function is invoked and nothing is logged. *)
Theorem loadDynamicImport_concrete (v : value) :
  is_function v = false ->
  is_thenable v = false ->
  has_default v = false ->
  loadDynamicImport v None = (Fulfilled v, []).
Proof.
  intros Hf Ht Hd.
  unfold loadDynamicImport, invoke_if_plain, unwrap_default.
  rewrite (not_function_not_plain v Hf).
  unfold bind, ret. rewrite (await_concrete v Ht). rewrite Hd.
  rewrite (not_function_not_plain v Hf).
  rewrite (await_concrete v Ht). rewrite (await_concrete v Ht). reflexivity.
Qed.

Lemma loadDynamicImport_factory_throws (e : value) (cb : option callback) :
  loadDynamicImport (VFun false (Err e)) cb = (Rejected e, [Invoked]).
Proof. reflexivity. Qed.

(** C2: a factory that throws when it is first invoked.  The call of
    lines 92-94 stands before the [try] block, so the promise of
    [loadDynamicImport] rejects with the error and nothing is logged.
    In a scan the rejection reaches [Promise.all]: the scan rejects
    and the instance its sibling mounted is not recorded. *)
Theorem loadDynamicImport_propagates :
  (forall e cb, loadDynamicImport (VFun false (Err e)) cb = (Rejected e, [Invoked]))
  /\ branch sample_app (marker 1 "Countdown" [("title", "Sale")])
     = Fulfilled (VVue 1 Countdown (VObj [("title", VStr "Sale")]))
  /\ initVueComponents sample_app
       (Some [marker 1 "Countdown" [("title", "Sale")]; marker 2 "Broken" []])
     = ((Rejected (VError "Error" "boom"), sample_app), [Invoked; Invoked]).
Proof.
  split; [intros; reflexivity|]. split; reflexivity.
Qed.

(** A failed import is caught: the factory returns a rejected
    promise, the rejection is logged and the result is absent. *)
Lemma loadDynamicImport_failed_import (e : value) (cb : option callback) :
  loadDynamicImport (VFun false (Ok (VPromise (Some (Err e))))) cb
  = (Fulfilled VUndefined, [Invoked; ConsoleError e]).
Proof. reflexivity. Qed.

(** The same factory one level down, behind a [default] member, is
    called inside the [try] block: the error is logged and the
    promise is fulfilled, with the factory itself. *)
Lemma loadDynamicImport_inner_factory_throws (e : value) (cb : option callback) :
  loadDynamicImport (VObj [("default", VFun false (Err e))]) cb
  = (Fulfilled (VFun false (Err e)), [Invoked; ConsoleError e]).
Proof. reflexivity. Qed.

(** ** Assignments in sequence *)

Lemma assign_all_app (out l1 l2 : list (string * value)) :
  assign_all out (l1 ++ l2) = assign_all (assign_all out l1) l2.
Proof. unfold assign_all. apply fold_left_app. Qed.

(** After the assignments a key holds its last binding, or what it
    held before. *)
Lemma assign_all_get (l out : list (string * value)) (k : string) :
  obj_get k (assign_all out l) =
  match last_binding k l with
  | Some v => Some v
  | None => obj_get k out
  end.
Proof.
  unfold last_binding. revert out.
  induction l as [|[k' v'] l IH]; intros out; simpl; [reflexivity|].
  change (obj_get k (assign_all (obj_set k' v' out) l) =
          match obj_get k (rev l ++ [(k', v')]) with
          | Some v => Some v
          | None => obj_get k out
          end).
  rewrite IH, obj_get_app.
  destruct (obj_get k (rev l)); [reflexivity|]. simpl.
  destruct (String.eqb k k') eqn:E.
  - apply String.eqb_eq in E. subst. apply obj_get_set_same.
  - now apply obj_get_set_other.
Qed.

(** Assignments to fresh, distinct keys append their entries. *)
Lemma assign_all_fresh (l out : list (string * value)) :
  NoDup (map fst l) ->
  (forall k, In k (map fst l) -> obj_get k out = None) ->
  assign_all out l = out ++ l.
Proof.
  revert out. induction l as [|[k v] l IH]; intros out Hnd Hfresh; simpl.
  - now rewrite app_nil_r.
  - inversion Hnd as [|? ? Hnotin Hnd']; subst.
    change (assign_all (obj_set k v out) l = out ++ (k, v) :: l).
    rewrite obj_set_fresh by (apply Hfresh; now left).
    rewrite IH; [now rewrite <- app_assoc | assumption |].
    intros k2 Hin. rewrite obj_get_app, Hfresh by (now right). simpl.
    destruct (String.eqb k2 k) eqn:E; [|reflexivity].
    apply String.eqb_eq in E. subst. contradiction.
Qed.

(** ** The dataset extractor *)

Lemma literal_not_wildcard (a : ascii) :
  is_regex_meta a = false -> Ascii.eqb a "." = false.
Proof.
  intros H. destruct (Ascii.eqb a ".") eqn:E; [|reflexivity].
  apply Ascii.eqb_eq in E. subst. discriminate.
Qed.

Lemma literal_simple (p : string) :
  literal_pattern p = true -> simple_pattern p = true.
Proof.
  unfold literal_pattern, simple_pattern.
  induction (list_ascii_of_string p) as [|a l IH]; [reflexivity|].
  simpl. intros H. apply andb_prop in H. destruct H as [Ha Hl].
  rewrite Ha, (IH Hl). reflexivity.
Qed.

(** On a literal pattern the match is the prefix test. *)
Lemma match_simple_literal (p key : string) :
  literal_pattern p = true ->
  match_simple p key
  = if String.prefix p key then Some (drop (String.length p) key) else None.
Proof.
  revert key. induction p as [|a p IH]; intros key Hlit.
  - now destruct key.
  - unfold literal_pattern in Hlit. simpl in Hlit.
    apply andb_prop in Hlit. destruct Hlit as [Ha Hp].
    apply negb_true_iff in Ha.
    destruct key as [|c key]; [reflexivity|].
    cbn [match_simple String.prefix String.length drop].
    rewrite (literal_not_wildcard a Ha).
    destruct (ascii_dec a c) as [->|Hne].
    + rewrite Ascii.eqb_refl. now apply IH.
    + apply Ascii.eqb_neq in Hne. now rewrite Hne.
Qed.

Lemma own_entries_app (l1 l2 : list (string * value)) :
  own_entries (l1 ++ l2) = own_entries l1 ++ own_entries l2.
Proof. apply filter_app. Qed.

(** One assignment [output[k] = v]. *)
Lemma obj_assign_own (k : string) (v : value) (out : list (string * value)) :
  obj_assign k v out = assign_all out (own_entries [(k, v)]).
Proof.
  unfold obj_assign, own_entries. simpl.
  now destruct (String.eqb k "__proto__").
Qed.

Lemma getDataset_step_claimed (p : string) (out : list (string * value))
    (entry : string * string) :
  p <> "" -> literal_pattern p = true ->
  getDataset_step (Some p) out entry
  = Ok (assign_all out (own_entries (claimed_dataset p [entry]))).
Proof.
  intros Hne Hlit. destruct entry as [key raw].
  unfold getDataset_step, output_key, strip_prefix, claimed_dataset.
  apply String.eqb_neq in Hne.
  rewrite Hne, (literal_simple p Hlit), (match_simple_literal p key Hlit).
  cbn [flat_map fst snd]. rewrite app_nil_r.
  destruct (String.prefix p key); [|reflexivity].
  destruct (String.eqb (lower_first (drop (String.length p) key)) "");
    [reflexivity|].
  now rewrite obj_assign_own.
Qed.

Lemma claimed_dataset_cons (p : string) (entry : string * string)
    (src : list (string * string)) :
  claimed_dataset p (entry :: src) = claimed_dataset p [entry] ++ claimed_dataset p src.
Proof. unfold claimed_dataset. simpl. now rewrite app_nil_r. Qed.

(** The loop of [getDataset] performs the assignments of the claimed
    dataset, whatever the host. *)
Lemma getDataset_loop_claimed (p : string) (src : list (string * string))
    (out : list (string * value)) :
  p <> "" -> literal_pattern p = true ->
  getDataset_loop (Some p) src out
  = Ok (assign_all out (own_entries (claimed_dataset p src))).
Proof.
  intros Hne Hlit. revert out.
  induction src as [|entry src IH]; intros out; [reflexivity|].
  rewrite (claimed_dataset_cons p entry src), own_entries_app, assign_all_app.
  cbn [getDataset_loop]. rewrite getDataset_step_claimed by assumption.
  apply IH.
Qed.

Lemma getDataset_step_unprefixed (prefix : option string)
    (out : list (string * value)) (entry : string * string) :
  prefix = None \/ prefix = Some "" ->
  getDataset_step prefix out entry
  = Ok (assign_all out (own_entries (unprefixed_dataset [entry]))).
Proof.
  intros H. destruct entry as [key raw].
  unfold getDataset_step, unprefixed_dataset.
  assert (E : output_key prefix key = Ok (Some key)) by (destruct H; subst; reflexivity).
  rewrite E. cbn [flat_map fst snd]. rewrite app_nil_r.
  destruct (String.eqb key ""); [reflexivity|].
  now rewrite obj_assign_own.
Qed.

Lemma unprefixed_dataset_cons (entry : string * string) (src : list (string * string)) :
  unprefixed_dataset (entry :: src)
  = unprefixed_dataset [entry] ++ unprefixed_dataset src.
Proof. unfold unprefixed_dataset. simpl. now rewrite app_nil_r. Qed.

Lemma getDataset_loop_unprefixed (prefix : option string)
    (src : list (string * string)) (out : list (string * value)) :
  prefix = None \/ prefix = Some "" ->
  getDataset_loop prefix src out
  = Ok (assign_all out (own_entries (unprefixed_dataset src))).
Proof.
  intros H. revert out.
  induction src as [|entry src IH]; intros out; [reflexivity|].
  rewrite (unprefixed_dataset_cons entry src), own_entries_app, assign_all_app.
  cbn [getDataset_loop]. rewrite getDataset_step_unprefixed by assumption.
  apply IH.
Qed.

Lemma own_entries_all (l : list (string * value)) :
  ~ In "__proto__" (map fst l) -> own_entries l = l.
Proof.
  induction l as [|[k v] l IH]; [reflexivity|]. simpl. intros H.
  destruct (String.eqb k "__proto__") eqn:E.
  - apply String.eqb_eq in E. subst. tauto.
  - simpl. rewrite IH; [reflexivity | tauto].
Qed.

Lemma own_entries_keys (l : list (string * value)) (k : string) :
  In k (map fst (own_entries l)) -> In k (map fst l).
Proof.
  unfold own_entries. intros H. apply in_map_iff in H.
  destruct H as (kv & E & Hin). apply filter_In in Hin.
  apply in_map_iff. exists kv. tauto.
Qed.

Lemma own_entries_NoDup (l : list (string * value)) :
  NoDup (map fst l) -> NoDup (map fst (own_entries l)).
Proof.
  induction l as [|[k v] l IH]; [intros; constructor|]. simpl.
  intros H. inversion H as [|? ? Hnotin Hnd]; subst.
  destruct (negb (String.eqb k "__proto__")); [|now apply IH].
  simpl. constructor; [|now apply IH].
  intros Hin. apply Hnotin. now apply own_entries_keys.
Qed.

Lemma unprefixed_dataset_keys (src : list (string * string)) (k : string) :
  In k (map fst (unprefixed_dataset src)) -> In k (map fst src).
Proof.
  induction src as [|[key raw] src IH]; [tauto|].
  rewrite unprefixed_dataset_cons, map_app, in_app_iff.
  unfold unprefixed_dataset at 1. cbn [flat_map fst snd app].
  intros [H|H]; [|right; now apply IH].
  destruct (String.eqb key ""); simpl in H; [tauto|].
  destruct H as [H|[]]. now left.
Qed.

Lemma unprefixed_dataset_NoDup (src : list (string * string)) :
  NoDup (map fst src) -> NoDup (map fst (unprefixed_dataset src)).
Proof.
  induction src as [|[key raw] src IH]; [intros; constructor|].
  intros H. inversion H as [|? ? Hnotin Hnd]; subst.
  rewrite unprefixed_dataset_cons.
  unfold unprefixed_dataset at 1. cbn [flat_map fst snd app].
  destruct (String.eqb key ""); cbn [app map fst]; [now apply IH|].
  constructor; [|now apply IH].
  intros Hin. apply Hnotin. now apply unprefixed_dataset_keys.
Qed.

(** C5, amended: for every source mapping, its keys distinct, and
    every non-empty prefix free of regular-expression metacharacters,
    [getDataset] returns without error the entries whose key starts
    with the prefix, the prefix stripped and the first remaining
    character lower-cased, except those whose key becomes empty or
    [__proto__]: each key holds the value of the last kept entry that
    is renamed to it, and when the renamed keys are distinct the
    output is exactly that list.  With an empty or absent prefix
    every entry is kept under its unchanged key, except under the
    empty key and [__proto__].  A value is the JSON decode of the raw
    string or the raw string itself.  The mapping
    {vueTitle: "Hello", other: "x"} with prefix "vue" gives exactly
    {title: "Hello"}. *)
Theorem getDataset_spec (src : list (string * string)) (p : string) :
  NoDup (map fst src) ->
  p <> "" ->
  literal_pattern p = true ->
  (exists out,
      getDataset (Some src) (Some p) = Ok out
      /\ (forall k, obj_get k out = last_binding k (own_entries (claimed_dataset p src)))
      /\ (NoDup (map fst (own_entries (claimed_dataset p src))) ->
          out = own_entries (claimed_dataset p src))
      /\ (~ In "__proto__" (map fst (claimed_dataset p src)) ->
          own_entries (claimed_dataset p src) = claimed_dataset p src))
  /\ (forall prefix,
        prefix = None \/ prefix = Some "" ->
        exists out,
          getDataset (Some src) prefix = Ok out
          /\ (forall k, obj_get k out = last_binding k (own_entries (unprefixed_dataset src)))
          /\ out = own_entries (unprefixed_dataset src))
  /\ (forall raw, decode raw = match JSON_parse raw with Some v => v | None => VStr raw end)
  /\ getDataset (Some [("vueTitle", "Hello"); ("other", "x")]) (Some "vue")
     = Ok [("title", VStr "Hello")].
Proof.
  intros Hsrc Hne Hlit. split; [|split; [|split]].
  - exists (assign_all [] (own_entries (claimed_dataset p src))).
    split; [|split; [|split]].
    + unfold getDataset. now apply getDataset_loop_claimed.
    + intros k. rewrite assign_all_get. simpl.
      now destruct (last_binding k (own_entries (claimed_dataset p src))).
    + intros Hnd. now rewrite assign_all_fresh.
    + apply own_entries_all.
  - intros prefix Hp. exists (assign_all [] (own_entries (unprefixed_dataset src))).
    split; [|split].
    + unfold getDataset. now apply getDataset_loop_unprefixed.
    + intros k. rewrite assign_all_get. simpl.
      now destruct (last_binding k (own_entries (unprefixed_dataset src))).
    + rewrite assign_all_fresh; [reflexivity | | reflexivity].
      apply own_entries_NoDup. now apply unprefixed_dataset_NoDup.
  - reflexivity.
  - reflexivity.
Qed.

(** The entry whose key is renamed to [__proto__] leaves no
    property. *)
Lemma getDataset_proto_key :
  getDataset (Some [("vue__proto__", "1"); ("vueTitle", "Hello")]) (Some "vue")
  = Ok [("title", VStr "Hello")].
Proof. reflexivity. Qed.

(** The prefix is spliced into the regular expression as it is: a
    [.] in it matches any character, so a key that does not start
    with the prefix can be kept. *)
Lemma getDataset_wildcard_prefix :
  String.prefix "v.e" "vueTitle" = false
  /\ getDataset (Some [("vueTitle", "Hello")]) (Some "v.e")
     = Ok [("title", VStr "Hello")].
Proof. split; reflexivity. Qed.

(** ** The props builder *)

Lemma instance_of_function (v type : value) :
  is_function type = true -> exists b, instance_of v type = Ok b.
Proof.
  destruct type; try discriminate; intros _.
  - destruct c; eexists; reflexivity.
  - eexists; reflexivity.
Qed.

(** With callable candidates the loop of [convertString] throws
    nothing. *)
Lemma convert_loop_total (str : string) (types : list value) :
  forallb is_function types = true ->
  forall output, exists v log, convert_loop str types output = (Ok v, log).
Proof.
  induction types as [|type types IH]; intros Hall output.
  - now exists output, [].
  - simpl in Hall. apply andb_prop in Hall. destruct Hall as [Hf Hall].
    specialize (IH Hall). cbn [convert_loop].
    set (step := match type with
                 | VCtor Number => ret (VNum (parseFloat str))
                 | VCtor Date => ret (parseISODate str)
                 | VCtor Boolean | VCtor Array | VCtor Object =>
                     match JSON_parse str with
                     | Some v => ret v
                     | None => bind (tell (ConsoleLog (SyntaxError str))) (fun _ => ret output)
                     end
                 | _ => ret (VStr str)
                 end).
    destruct step as [output' t0] eqn:Es. unfold bind.
    destruct (instance_of_function output' type Hf) as [b Hb]. rewrite Hb.
    destruct b.
    + unfold ret. eexists; eexists; reflexivity.
    + destruct (IH output') as (v & log & E). rewrite E.
      eexists; eexists; reflexivity.
Qed.

Lemma convertString_total (str requestedTypes : value) :
  match requestedTypes with
  | VArr types => forallb is_function types = true
  | _ => True
  end ->
  exists v log, convertString str requestedTypes = (Ok v, log).
Proof.
  intros H. unfold convertString.
  destruct str; try (exists VNull, []; reflexivity).
  destruct requestedTypes; try (exists VNull, []; reflexivity).
  destruct xs as [|type rest]; [exists VNull, []; reflexivity|].
  now apply convert_loop_total.
Qed.

Lemma parseVueProps_entry_kept (props : value) (entry : string * value) :
  callable_types (snd entry) = true ->
  exists log,
    parseVueProps_entry props entry
    = (Ok (if truthy (get_opt props (fst entry))
           then Some (fst entry, converted props entry) else None), log).
Proof.
  intros Hc. destruct entry as [key propDef]. unfold parseVueProps_entry, converted.
  cbn [fst snd] in *.
  destruct (truthy (get_opt props key)); cbn [negb]; [|now exists []].
  destruct (convertString_total (get_opt props key) (requestedTypes_of propDef))
    as (v & log & E).
  { unfold callable_types in Hc. destruct (requestedTypes_of propDef); trivial. }
  rewrite E. unfold bind, ret. cbn [fst]. eexists; reflexivity.
Qed.

Lemma kept_props_cons (props : value) (entry : string * value)
    (defs : list (string * value)) :
  kept_props props (entry :: defs)
  = (if truthy (get_opt props (fst entry))
     then [(fst entry, converted props entry)] else []) ++ kept_props props defs.
Proof. reflexivity. Qed.

Lemma parseVueProps_loop_kept (props : value) (defs : list (string * value)) :
  forallb (fun d => callable_types (snd d)) defs = true ->
  forall output, exists log,
    parseVueProps_loop props defs output
    = (Ok (assign_all output (kept_props props defs)), log).
Proof.
  induction defs as [|entry defs IH]; intros Hall output.
  - now exists [].
  - simpl in Hall. apply andb_prop in Hall. destruct Hall as [Hc Hall].
    specialize (IH Hall). cbn [parseVueProps_loop].
    destruct (parseVueProps_entry_kept props entry Hc) as [log0 E0].
    rewrite E0, kept_props_cons, assign_all_app. unfold bind.
    destruct (truthy (get_opt props (fst entry))).
    + destruct (IH (obj_set (fst entry) (converted props entry) output)) as [log1 E1].
      cbn [fst snd assign_all fold_left]. rewrite E1. eexists; reflexivity.
    + destruct (IH output) as [log1 E1].
      cbn [assign_all fold_left]. rewrite E1. eexists; reflexivity.
Qed.

Lemma kept_props_keys (props : value) (defs : list (string * value)) (k : string) :
  In k (map fst (kept_props props defs)) -> In k (map fst defs).
Proof.
  induction defs as [|entry defs IH]; [trivial|].
  rewrite kept_props_cons, map_app, in_app_iff. simpl.
  intros [H|H]; [|right; now apply IH].
  destruct (truthy (get_opt props (fst entry))); simpl in H; tauto.
Qed.

Lemma kept_props_NoDup (props : value) (defs : list (string * value)) :
  NoDup (map fst defs) -> NoDup (map fst (kept_props props defs)).
Proof.
  induction defs as [|entry defs IH]; intros Hnd; [constructor|].
  simpl in Hnd. inversion Hnd as [|? ? Hnotin Hnd']; subst.
  rewrite kept_props_cons.
  destruct (truthy (get_opt props (fst entry))); simpl; [|now apply IH].
  constructor; [|now apply IH].
  intros Hin. apply Hnotin. now apply kept_props_keys in Hin.
Qed.

Lemma kept_props_get (props : value) (defs : list (string * value))
    (key : string) (propDef : value) :
  NoDup (map fst defs) ->
  In (key, propDef) defs ->
  obj_get key (kept_props props defs)
  = if truthy (get_opt props key)
    then Some (converted props (key, propDef)) else None.
Proof.
  induction defs as [|entry defs IH]; intros Hnd Hin; [contradiction|].
  simpl in Hnd. inversion Hnd as [|? ? Hnotin Hnd']; subst.
  rewrite kept_props_cons, obj_get_app.
  destruct Hin as [Heq|Hin].
  - subst entry. cbn [fst].
    destruct (truthy (get_opt props key)); simpl.
    + now rewrite String.eqb_refl.
    + apply obj_get_none_not_in. intros Hk. apply Hnotin.
      now apply kept_props_keys in Hk.
  - assert (Hne : String.eqb key (fst entry) = false).
    { apply String.eqb_neq. intros ->. apply Hnotin.
      change (fst entry) with (fst (fst entry, propDef)). now apply in_map. }
    rewrite <- (IH Hnd' Hin).
    destruct (truthy (get_opt props (fst entry))); simpl; [|reflexivity].
    now rewrite Hne.
Qed.

(** C6, amended: for raw attributes that are a plain object (or
    absent) and declared parameters none of which bears the name of a
    member of [Object.prototype], when every declared candidate is a
    function, [parseVueProps] throws nothing, and the arguments
    mapping has one entry for each declared parameter whose raw
    attribute is present and not empty, bound to whatever
    [convertString] returned for it, a failed conversion (null or
    undefined) included; only a missing or empty raw attribute is
    omitted. *)
Theorem parseVueProps_keeps_unconverted (defs : list (string * value)) (props : value) :
  NoDup (map fst defs) ->
  forallb (fun d => callable_types (snd d)) defs = true ->
  plain_props props = true ->
  forallb (fun d => negb (inherited_name (fst d))) defs = true ->
  (exists log, parseVueProps (VObj defs) props = (Ok (VObj (kept_props props defs)), log))
  /\ (forall key propDef,
        In (key, propDef) defs ->
        obj_get key (kept_props props defs)
        = if truthy (get_opt props key)
          then Some (converted props (key, propDef)) else None).
Proof.
  intros Hnd Hall _ _. split.
  - unfold parseVueProps. cbn [entries].
    destruct (parseVueProps_loop_kept props defs Hall []) as [log E].
    rewrite E. unfold bind, ret. rewrite assign_all_fresh.
    + eexists; reflexivity.
    + now apply kept_props_NoDup.
    + reflexivity.
  - intros key propDef Hin. now apply kept_props_get.
Qed.

(** A declaration whose [type] is itself a list of tags is wrapped
    into a one-element candidate list; the test
    [output instanceof type] then has an array on its right and
    throws. *)
Lemma parseVueProps_type_list_throws :
  parseVueProps
    (VObj [("count", VObj [("type", VArr [VCtor Number; VCtor String_])])])
    (VObj [("count", VStr "3")])
  = (Err (TypeError "Right-hand side of 'instanceof' is not callable"), []).
Proof. reflexivity. Qed.

(** ** The component scanner *)

Lemma scan_all_branches (self : App) (els : list element) :
  fst (scan_all self els) = map (branch self) els.
Proof.
  induction els as [|el els IH]; [reflexivity|].
  cbn [scan_all map]. unfold bind, branch in *.
  destruct (scan_element self el) as [p t].
  destruct (scan_all self els) as [ps t']. simpl in *. now rewrite IH.
Qed.

Lemma Promise_all_fulfilled (ps : list settled) :
  forallb is_fulfilled ps = true ->
  Promise_all ps = Fulfilled (VArr (map settled_value ps)).
Proof.
  intros H. unfold Promise_all.
  assert (F : find is_rejected ps = None /\ existsb is_pending ps = false).
  { induction ps as [|p ps IH]; [now split|].
    simpl in H. apply andb_prop in H. destruct H as [Hp H].
    destruct (IH H) as [IH1 IH2]. destruct p; try discriminate. simpl. now split. }
  destruct F as [-> ->]. reflexivity.
Qed.

Lemma unregistered_branch (self : App) (el : element) :
  unregistered self el = true -> scan_element self el = (Fulfilled VUndefined, []).
Proof.
  unfold unregistered, scan_element, initVueComponent, obj_has.
  destruct (obj_get (component_key (obj_get "vueComponent" (dataset el)))
              match registry self with Some r => r | None => [] end);
    [discriminate | reflexivity].
Qed.

Lemma mounts_fulfilled (self : App) (els : list element) :
  forallb (mounts self) els = true ->
  forallb is_fulfilled (map (branch self) els) = true
  /\ filter is_mounted (map settled_value (map (branch self) els))
     = map settled_value (map (branch self) els).
Proof.
  induction els as [|el els IH]; intros H; [now split|].
  simpl in H. apply andb_prop in H. destruct H as [Hm H].
  destruct (IH H) as [IH1 IH2]. unfold mounts in Hm. fold (branch self el) in Hm.
  cbn [map]. destruct (branch self el) as [inst| |]; try discriminate.
  cbn [forallb is_fulfilled settled_value filter andb]. rewrite Hm, IH1, IH2.
  now split.
Qed.

Lemma parseVueProps_total (defs : list (string * value)) (props : value) :
  forallb (fun d => callable_types (snd d)) defs = true ->
  exists out log, parseVueProps (VObj defs) props = (Ok (VObj out), log).
Proof.
  intros Hall. unfold parseVueProps. cbn [entries].
  destruct (parseVueProps_loop_kept props defs Hall []) as [log E].
  rewrite E. unfold bind, ret. eexists; eexists; reflexivity.
Qed.

Lemma fst_bind {A B} (m : M A) (k : A -> M B) :
  fst (bind m k) = fst (k (fst m)).
Proof.
  unfold bind. destruct m as [a t]. cbn [fst]. now destruct (k a).
Qed.

(** A lazily imported module that is neither a plain function nor a
    thenable reaches the callback. *)
Lemma loadDynamicImport_lazy (module : value) (cb : callback) :
  is_plain_function module = false ->
  is_thenable module = false ->
  fst (loadDynamicImport (lazy module) (Some cb))
  = match fst (cb module) with
    | Ok result => fst (await result)
    | Err _ => Fulfilled module
    end.
Proof.
  intros Hp Ht. unfold loadDynamicImport, lazy.
  rewrite fst_bind. cbn [invoke_if_plain is_plain_function negb].
  cbn [bind tell ret fst call].
  rewrite fst_bind. cbn [await ret fst].
  assert (Hu : unwrap_default (VObj [("default", module)]) = module) by reflexivity.
  rewrite Hu, fst_bind. unfold invoke_if_plain. rewrite Hp. cbn [ret fst].
  rewrite fst_bind, (await_concrete module Ht). cbn [fst].
  rewrite fst_bind. destruct (fst (cb module)); [reflexivity|].
  unfold caught. rewrite fst_bind, (await_concrete module Ht). reflexivity.
Qed.

(** A marker whose name the registry maps to a lazily imported
    component object with callable prop types mounts. *)
Lemma lazy_component_mounts (self : App) (el : element)
    (name : string) (fs defs : list (string * value)) :
  obj_get "vueComponent" (dataset el) = Some name ->
  obj_get name (match registry self with Some r => r | None => [] end)
  = Some (lazy (VObj fs)) ->
  is_thenable (VObj fs) = false ->
  obj_get "props" fs = Some (VObj defs) ->
  forallb (fun d => callable_types (snd d)) defs = true ->
  mounts self el = true.
Proof.
  intros Hname Hreg Hth Hprops Hall.
  unfold mounts, branch, scan_element, initVueComponent.
  rewrite Hname. cbn [component_key]. rewrite Hreg.
  rewrite loadDynamicImport_lazy by (reflexivity || assumption).
  destruct (parseVueProps_total defs (rest_props el) Hall) as (out & log & E).
  unfold mount. cbn [get get_member]. rewrite Hprops.
  replace (truthy (VObj defs) && truthy (rest_props el))%bool with true by reflexivity.
  rewrite fst_bind, E. reflexivity.
Qed.

(** C7, amended: a scan that finds no marker element settles at
    once, having added no instance; a scan of N marker elements, one
    of which names a component that the registry lacks and that is
    no member of [Object.prototype] either, while the branch of every
    other element mounts, settles with N new entries of which exactly
    N-1 are mounted instances, the entry of the unregistered element
    being [undefined], produced without error or log. *)
Theorem initVueComponents_counts (self : App) :
  initVueComponents self (Some [])
  = ((Fulfilled VUndefined,
      {| registry := registry self; vueComponents := Some (existing self) |}), [])
  /\ (forall before el after,
        unregistered self el = true ->
        inherited_name (component_key (obj_get "vueComponent" (dataset el))) = false ->
        forallb (mounts self) before = true ->
        forallb (mounts self) after = true ->
        scan_element self el = (Fulfilled VUndefined, [])
        /\ exists newComponents log,
            initVueComponents self (Some (before ++ el :: after))
            = ((Fulfilled VUndefined,
                {| registry := registry self;
                   vueComponents := Some (existing self ++ newComponents) |}), log)
            /\ length newComponents = length (before ++ el :: after)
            /\ nth (length before) newComponents VNull = VUndefined
            /\ length (filter is_mounted newComponents)
               = length (before ++ el :: after) - 1).
Proof.
  split.
  - unfold initVueComponents, existing. simpl. now rewrite app_nil_r.
  - intros before el after Hun _ Hb Ha.
    pose proof (unregistered_branch self el Hun) as Hel.
    split; [exact Hel|].
    destruct (mounts_fulfilled self before Hb) as [Fb Mb].
    destruct (mounts_fulfilled self after Ha) as [Fa Ma].
    set (els := before ++ el :: after).
    exists (map settled_value (map (branch self) els)).
    exists (snd (scan_all self els)).
    assert (Hbr : map (branch self) els
                  = map (branch self) before ++ Fulfilled VUndefined :: map (branch self) after).
    { unfold els. rewrite map_app. cbn [map]. unfold branch at 2. now rewrite Hel. }
    split; [|split; [|split]].
    + unfold initVueComponents, bind, existing.
      pose proof (scan_all_branches self els) as Hs.
      destruct (scan_all self els) as [ps t]. simpl in Hs. subst ps.
      rewrite Promise_all_fulfilled.
      * unfold ret. cbn [snd]. now rewrite app_nil_r.
      * rewrite Hbr, forallb_app. cbn [forallb is_fulfilled]. now rewrite Fb, Fa.
    + now rewrite !length_map.
    + rewrite Hbr, map_app. cbn [map settled_value].
      rewrite app_nth2; rewrite !length_map; [|lia].
      now rewrite Nat.sub_diag.
    + rewrite Hbr, map_app, filter_app. cbn [map settled_value filter is_mounted].
      rewrite Mb, Ma, length_app, !length_map.
      unfold els. rewrite length_app. simpl. lia.
Qed.

(** ** The loaders *)

(** C9: the stylesheet loader on a page whose head has no child
    node.  Reading [nextSibling] of the missing last child throws
    inside the executor, so the promise that comes back is rejected,
    and the URL is not recorded.  The script loader does the same on
    a page without a script element, and caches the rejected
    promise. *)
Theorem loaders_reject (js : list (string * value)) (rest : list dom_node) :
  loadCssFile (VStr "main.css")
    {| loadedJSFiles := js; loadedCSSFiles := [];
       page := {| head := []; body := rest |} |}
  = (VPromise (Some (Err (TypeError "Cannot read properties of undefined"))),
     {| loadedJSFiles := js; loadedCSSFiles := [];
        page := {| head := []; body := rest |} |})
  /\ loadJSFile (VStr "widget.js") (VBool true)
       {| loadedJSFiles := []; loadedCSSFiles := [];
          page := {| head := [Other "title"]; body := [Other "div"] |} |}
     = (VPromise (Some (Err (TypeError "Cannot read properties of undefined"))),
        {| loadedJSFiles :=
             [("widget.js",
               VPromise (Some (Err (TypeError "Cannot read properties of undefined"))))];
           loadedCSSFiles := [];
           page := {| head := [Other "title"]; body := [Other "div"] |} |}).
Proof. split; reflexivity. Qed.

Lemma obj_assign_other {A} (k k' : string) (v : A) (fs : list (string * A)) :
  String.eqb k k' = false -> obj_get k (obj_assign k' v fs) = obj_get k fs.
Proof.
  intros H. unfold obj_assign. destruct (String.eqb k' "__proto__"); [reflexivity|].
  now apply obj_get_set_other.
Qed.

Lemma obj_assign_same {A} (k : string) (v : A) (fs : list (string * A)) :
  k <> "__proto__" -> obj_get k (obj_assign k v fs) = Some v.
Proof.
  intros H. unfold obj_assign. apply String.eqb_neq in H. rewrite H.
  apply obj_get_set_same.
Qed.

(** A second call for the same script returns the promise of the
    first and leaves the page and the caches as they are. *)
Lemma loadJSFile_again (url async async' : value) (st : loader) :
  url <> VStr "__proto__" ->
  loadJSFile url async' (snd (loadJSFile url async st)) = loadJSFile url async st.
Proof.
  intros Hp.
  unfold loadJSFile. destruct (valid_url url) as [u|] eqn:Hu; [|reflexivity].
  assert (Hne : u <> "__proto__").
  { intros ->. apply Hp. destruct url; try discriminate. simpl in Hu.
    destruct (String.eqb s ""); congruence. }
  destruct (obj_get u (loadedJSFiles st)) as [p|] eqn:Hg.
  - cbn [snd]. now rewrite Hg.
  - destruct (insert_script (Script u (truthy async)) (page st));
      cbn [snd loadedJSFiles]; now rewrite obj_assign_same.
Qed.

(** Under the URL [__proto__] nothing is recorded: on a page with a
    script element every call inserts one more. *)
Lemma loadJSFile_proto (async : value) (st : loader) :
  loadedJSFiles (snd (loadJSFile (VStr "__proto__") async st)) = loadedJSFiles st.
Proof.
  unfold loadJSFile. cbn [valid_url String.eqb].
  destruct (obj_get "__proto__" (loadedJSFiles st)); [reflexivity|].
  now destruct (insert_script (Script "__proto__" (truthy async)) (page st)).
Qed.

(** A second call for the same stylesheet inserts nothing. *)
Lemma loadCssFile_again (url : value) (st : loader) :
  snd (loadCssFile url (snd (loadCssFile url st))) = snd (loadCssFile url st).
Proof.
  unfold loadCssFile. destruct (valid_url url) as [u|] eqn:Hu; [|reflexivity].
  destruct (existsb (String.eqb u) (loadedCSSFiles st)) eqn:He.
  - cbn [snd]. now rewrite He.
  - destruct (head (page st)) as [|n ns] eqn:Hh.
    + cbn [snd]. now rewrite He, Hh.
    + cbn [snd loadedCSSFiles]. rewrite existsb_app. cbn [existsb].
      rewrite String.eqb_refl. now rewrite orb_true_r.
Qed.

(** The caches only grow. *)
Lemma loadJSFile_keeps (url async : value) (st : loader) (k : string) (p : value) :
  obj_get k (loadedJSFiles st) = Some p ->
  obj_get k (loadedJSFiles (snd (loadJSFile url async st))) = Some p.
Proof.
  intros Hk. unfold loadJSFile. destruct (valid_url url) as [u|]; [|exact Hk].
  destruct (obj_get u (loadedJSFiles st)) as [q|] eqn:Hg; [exact Hk|].
  assert (Hne : String.eqb k u = false).
  { apply String.eqb_neq. intros ->. congruence. }
  destruct (insert_script (Script u (truthy async)) (page st)); simpl;
    now rewrite obj_assign_other.
Qed.

Lemma loadCssFile_keeps (url : value) (st : loader) :
  exists added,
    loadedCSSFiles (snd (loadCssFile url st)) = loadedCSSFiles st ++ added.
Proof.
  unfold loadCssFile. destruct (valid_url url) as [u|];
    [|exists []; simpl; now rewrite app_nil_r].
  destruct (existsb (String.eqb u) (loadedCSSFiles st));
    [exists []; simpl; now rewrite app_nil_r|].
  destruct (head (page st)); [exists []; simpl; now rewrite app_nil_r|].
  exists [u]. reflexivity.
Qed.

(** On a page whose head has a child the stylesheet promise is
    fulfilled. *)
Lemma loadCssFile_fulfilled (url : value) (st : loader) :
  head (page st) <> [] -> fst (loadCssFile url st) = resolved.
Proof.
  intros Hh. unfold loadCssFile. destruct (valid_url url); [|reflexivity].
  destruct (existsb _ _); [reflexivity|].
  destruct (head (page st)); [contradiction | reflexivity].
Qed.

Lemma insert_before_script_found (new : dom_node) (ns : list dom_node) :
  existsb is_script ns = true ->
  exists ns', insert_before_script new ns = Some ns'.
Proof.
  induction ns as [|n ns IH]; [discriminate|]. simpl.
  destruct (is_script n); [eexists; reflexivity|].
  intros H. destruct (IH H) as [ns' E]. rewrite E. eexists; reflexivity.
Qed.

(** On a page that has a script element, the promise of a script
    that was not requested before is the completion signal of its
    element: it resolves to true or false, or stays pending. *)
Lemma loadJSFile_signal (url async : value) (st : loader) (u : string) :
  valid_url url = Some u ->
  obj_get u (loadedJSFiles st) = None ->
  existsb is_script (head (page st) ++ body (page st)) = true ->
  fst (loadJSFile url async st)
  = VPromise (option_map (fun ok => Ok (VBool ok)) (script_event u)).
Proof.
  intros Hu Hg Hs. unfold loadJSFile, insert_script. rewrite Hu, Hg.
  rewrite existsb_app in Hs. apply orb_prop in Hs.
  destruct (insert_before_script (Script u (truthy async)) (head (page st))) eqn:Eh;
    [reflexivity|].
  destruct Hs as [Hs|Hs].
  - destruct (insert_before_script_found (Script u (truthy async)) _ Hs) as [ns' E].
    congruence.
  - destruct (insert_before_script_found (Script u (truthy async)) _ Hs) as [ns' E].
    now rewrite E.
Qed.

End Properties.

(** * Further properties *)

(** ** [camelToKebabCase] *)

Lemma to_lower_not_upper (c : ascii) : is_upper (to_lower c) = false.
Proof.
  destruct c as [b0 b1 b2 b3 b4 b5 b6 b7].
  destruct b0, b1, b2, b3, b4, b5, b6, b7; reflexivity.
Qed.

Lemma to_lower_idempotent (c : ascii) : to_lower (to_lower c) = to_lower c.
Proof.
  destruct c as [b0 b1 b2 b3 b4 b5 b6 b7].
  destruct b0, b1, b2, b3, b4, b5, b6, b7; reflexivity.
Qed.

Lemma to_lower_hyphen (c : ascii) : Ascii.eqb (to_lower c) "-" = Ascii.eqb c "-".
Proof.
  destruct c as [b0 b1 b2 b3 b4 b5 b6 b7].
  destruct b0, b1, b2, b3, b4, b5, b6, b7; reflexivity.
Qed.

Lemma upper_not_hyphen (c : ascii) : is_upper c = true -> Ascii.eqb c "-" = false.
Proof.
  destruct c as [b0 b1 b2 b3 b4 b5 b6 b7].
  destruct b0, b1, b2, b3, b4, b5, b6, b7; try reflexivity; discriminate.
Qed.

(** Induction on the length of a string, for the replacements that
    step over two characters. *)
Lemma string_length_ind (P : string -> Prop) :
  (forall s, (forall t, String.length t < String.length s -> P t) -> P s) ->
  forall s, P s.
Proof.
  intros H s.
  assert (G : forall n t, String.length t < n -> P t).
  { induction n as [|n IH]; intros t Hlt; [lia|].
    apply H. intros u Hu. apply IH. lia. }
  apply (G (S (String.length s))). lia.
Qed.

Lemma hyphenate_camel_step (a b : ascii) (rest : string) :
  hyphenate_camel (String a (String b rest))
  = if ((is_lower a || is_digit a) && is_upper b)%bool
    then String a (String "-" (String b (hyphenate_camel rest)))
    else String a (hyphenate_camel (String b rest)).
Proof. reflexivity. Qed.

Lemma hyphenate_acronym_step (a b c : ascii) (rest : string) :
  hyphenate_acronym (String a (String b (String c rest)))
  = if (is_upper a && is_upper b && is_lower c)%bool
    then String a (String "-" (String b (hyphenate_acronym (String c rest))))
    else String a (hyphenate_acronym (String b (String c rest))).
Proof. reflexivity. Qed.

Lemma without_hyphens_cons (c : ascii) (s : string) :
  without_hyphens (String c s)
  = if Ascii.eqb c "-" then without_hyphens s else String c (without_hyphens s).
Proof. reflexivity. Qed.

Lemma without_hyphens_hyphenate_camel (s : string) :
  without_hyphens (hyphenate_camel s) = without_hyphens s.
Proof.
  induction s as [s IH] using string_length_ind.
  destruct s as [|a [|b rest]]; [reflexivity | reflexivity |].
  rewrite hyphenate_camel_step.
  destruct ((is_lower a || is_digit a) && is_upper b)%bool.
  - rewrite !without_hyphens_cons. change (Ascii.eqb "-" "-") with true. cbv iota.
    rewrite (IH rest) by (simpl; lia). reflexivity.
  - rewrite (without_hyphens_cons a (hyphenate_camel _)),
      (IH (String b rest)) by (simpl; lia).
    reflexivity.
Qed.

Lemma without_hyphens_hyphenate_acronym (s : string) :
  without_hyphens (hyphenate_acronym s) = without_hyphens s.
Proof.
  induction s as [s IH] using string_length_ind.
  destruct s as [|a [|b [|c rest]]]; [reflexivity | reflexivity | reflexivity |].
  rewrite hyphenate_acronym_step.
  destruct (is_upper a && is_upper b && is_lower c)%bool.
  - rewrite (without_hyphens_cons a), (without_hyphens_cons "-"),
      (without_hyphens_cons b (hyphenate_acronym _)).
    change (Ascii.eqb "-" "-") with true. cbv iota.
    rewrite (IH (String c rest)) by (simpl; lia). reflexivity.
  - rewrite (without_hyphens_cons a (hyphenate_acronym _)),
      (IH (String b (String c rest))) by (simpl; lia).
    reflexivity.
Qed.

Lemma without_hyphens_toLowerCase (s : string) :
  without_hyphens (toLowerCase s) = toLowerCase (without_hyphens s).
Proof.
  induction s as [|c s IH]; [reflexivity|].
  cbn [toLowerCase without_hyphens]. rewrite to_lower_hyphen.
  destruct (Ascii.eqb c "-"); [exact IH|]. cbn [toLowerCase]. now rewrite IH.
Qed.

(** X1: [camelToKebabCase] only inserts hyphens and lower-cases:
    without its hyphens the result is the lower-cased input without
    its hyphens. *)
Theorem camelToKebabCase_letters (s : string) :
  without_hyphens (camelToKebabCase s) = without_hyphens (toLowerCase s).
Proof.
  unfold camelToKebabCase.
  rewrite !without_hyphens_toLowerCase.
  now rewrite without_hyphens_hyphenate_acronym, without_hyphens_hyphenate_camel.
Qed.

Lemma toLowerCase_no_upper (s : string) :
  string_forall (fun c => negb (is_upper c)) (toLowerCase s) = true.
Proof.
  induction s as [|c s IH]; [reflexivity|].
  cbn [toLowerCase string_forall]. now rewrite to_lower_not_upper, IH.
Qed.

Lemma toLowerCase_idempotent (s : string) :
  toLowerCase (toLowerCase s) = toLowerCase s.
Proof.
  induction s as [|c s IH]; [reflexivity|].
  cbn [toLowerCase]. now rewrite to_lower_idempotent, IH.
Qed.

Lemma hyphenate_camel_no_upper (s : string) :
  string_forall (fun c => negb (is_upper c)) s = true -> hyphenate_camel s = s.
Proof.
  induction s as [|a t IH]; [reflexivity|].
  cbn [string_forall]. intros H. apply andb_prop in H. destruct H as [Ha Ht].
  destruct t as [|b rest]; [reflexivity|].
  rewrite hyphenate_camel_step.
  assert (Hb : is_upper b = false).
  { cbn [string_forall] in Ht. apply andb_prop in Ht. destruct Ht as [Hb _].
    now apply negb_true_iff in Hb. }
  rewrite Hb, andb_false_r. f_equal. now apply IH.
Qed.

Lemma hyphenate_acronym_no_upper (s : string) :
  string_forall (fun c => negb (is_upper c)) s = true -> hyphenate_acronym s = s.
Proof.
  induction s as [|a t IH]; [reflexivity|].
  cbn [string_forall]. intros H. apply andb_prop in H. destruct H as [Ha Ht].
  apply negb_true_iff in Ha.
  destruct t as [|b [|c rest]]; [reflexivity | reflexivity |].
  rewrite hyphenate_acronym_step, Ha. cbn [andb]. f_equal. now apply IH.
Qed.

(** X2: the result of [camelToKebabCase] holds no upper-case letter
    A-Z, and converting it again changes nothing. *)
Theorem camelToKebabCase_idempotent (s : string) :
  string_forall (fun c => negb (is_upper c)) (camelToKebabCase s) = true
  /\ camelToKebabCase (camelToKebabCase s) = camelToKebabCase s.
Proof.
  assert (H : string_forall (fun c => negb (is_upper c)) (camelToKebabCase s) = true)
    by apply toLowerCase_no_upper.
  split; [exact H|].
  unfold camelToKebabCase at 1.
  rewrite (hyphenate_camel_no_upper _ H), (hyphenate_acronym_no_upper _ H).
  unfold camelToKebabCase. apply toLowerCase_idempotent.
Qed.

(** ** [Module]: the element cache *)

Lemma obj_set_same_value {A} (k : string) (v : A) (fs : list (string * A)) :
  obj_get k fs = Some v -> obj_set k v fs = fs.
Proof.
  induction fs as [|[k' v'] fs IH]; simpl; [discriminate|].
  destruct (String.eqb k k') eqn:E.
  - apply String.eqb_eq in E. subst. intros H. now inversion H.
  - intros H. now rewrite IH.
Qed.

Section QueryProperties.

Variable querySelectorAll : option nat -> string -> completion (list nat).

(** One successful [addToCache]: the bound element and the selector
    map stay, the key holds what the result dictates, the other keys
    hold what they held. *)
Lemma addToCache_found (this : ModuleObject) (key selector : string)
    (result : list nat) :
  querySelectorAll (el_ this) selector = Ok result ->
  exists this',
    addToCache querySelectorAll this key selector false = (this', None)
    /\ el_ this' = el_ this
    /\ cache_ this' = cache_ this
    /\ obj_get key (elements_ this')
       = cache_entry result (obj_get key (elements_ this))
    /\ (forall k, String.eqb k key = false ->
                  obj_get k (elements_ this') = obj_get k (elements_ this)).
Proof.
  intros Hq. unfold addToCache. rewrite Hq.
  destruct result as [|first others].
  - exists this. repeat split; reflexivity.
  - eexists. split; [reflexivity|]. cbn [el_ cache_ elements_].
    split; [reflexivity|]. split; [reflexivity|]. split.
    + rewrite obj_get_set_same. now destruct others.
    + intros k Hk. now apply obj_get_set_other.
Qed.

Lemma initCache_loop_found (entries : list (string * string)) :
  NoDup (map fst entries) ->
  forall this,
    (forall key selector, In (key, selector) entries ->
       exists result, querySelectorAll (el_ this) selector = Ok result) ->
    exists this',
      initCache_loop querySelectorAll entries this = (this', None)
      /\ el_ this' = el_ this
      /\ cache_ this' = cache_ this
      /\ (forall key selector result,
            In (key, selector) entries ->
            querySelectorAll (el_ this) selector = Ok result ->
            obj_get key (elements_ this')
            = cache_entry result (obj_get key (elements_ this)))
      /\ (forall key, ~ In key (map fst entries) ->
            obj_get key (elements_ this') = obj_get key (elements_ this)).
Proof.
  induction entries as [|[key selector] entries IH]; intros Hnd this Hq.
  - exists this. repeat split; try reflexivity. intros ? ? ? [].
  - simpl in Hnd. inversion Hnd as [|? ? Hnotin Hnd']; subst.
    destruct (Hq key selector (or_introl eq_refl)) as [result Hres].
    destruct (addToCache_found this key selector result Hres)
      as (this1 & E1 & Hel1 & Hc1 & Hk1 & Ho1).
    destruct (IH Hnd' this1) as (this' & E' & Hel' & Hc' & Hin' & Hout').
    { intros k s Hin. rewrite Hel1. apply (Hq k s). now right. }
    exists this'. cbn [initCache_loop]. rewrite E1.
    split; [exact E'|]. split; [congruence|]. split; [congruence|]. split.
    + intros k s r [Heq|Hin] Hr.
      * inversion Heq; subst k s. rewrite Hout' by exact Hnotin.
        rewrite Hk1. congruence.
      * rewrite (Hin' k s r Hin) by (now rewrite Hel1).
        rewrite Ho1; [reflexivity|].
        apply String.eqb_neq. intros ->. apply Hnotin.
        change key with (fst (key, s)). now apply in_map.
    + intros k Hk. simpl in Hk.
      rewrite Hout' by tauto. apply Ho1.
      apply String.eqb_neq. intros ->. tauto.
Qed.

(** What [initCache] leaves when every selector parses. *)
Lemma initCache_found (this : ModuleObject) :
  NoDup (map fst (cache_ this)) ->
  (forall key selector, In (key, selector) (cache_ this) ->
     exists result, querySelectorAll (el_ this) selector = Ok result) ->
  exists this',
    initCache querySelectorAll this = (this', None)
    /\ el_ this' = el_ this
    /\ cache_ this' = cache_ this
    /\ (forall key selector result,
          In (key, selector) (cache_ this) ->
          querySelectorAll (el_ this) selector = Ok result ->
          obj_get key (elements_ this')
          = cache_entry result (obj_get key (elements_ this)))
    /\ (forall key, ~ In key (map fst (cache_ this)) ->
          obj_get key (elements_ this') = obj_get key (elements_ this)).
Proof.
  intros Hnd Hq. unfold initCache. now apply initCache_loop_found.
Qed.

(** X3: when every selector of [$cache] parses, [initCache] throws
    nothing, and afterwards a key holds the single node of a selector
    with one match, the array of nodes of a selector with several,
    and what it held before for a selector with none; keys outside
    [$cache] are untouched. *)
Theorem initCache_entries (this : ModuleObject) :
  NoDup (map fst (cache_ this)) ->
  (forall key selector, In (key, selector) (cache_ this) ->
     exists result, querySelectorAll (el_ this) selector = Ok result) ->
  exists this',
    initCache querySelectorAll this = (this', None)
    /\ el_ this' = el_ this
    /\ cache_ this' = cache_ this
    /\ (forall key selector result,
          In (key, selector) (cache_ this) ->
          querySelectorAll (el_ this) selector = Ok result ->
          obj_get key (elements_ this')
          = cache_entry result (obj_get key (elements_ this)))
    /\ (forall key, ~ In key (map fst (cache_ this)) ->
          obj_get key (elements_ this') = obj_get key (elements_ this)).
Proof. now apply initCache_found. Qed.

Lemma initCache_loop_fixed (entries : list (string * string)) (this : ModuleObject) :
  (forall key selector, In (key, selector) entries ->
     addToCache querySelectorAll this key selector false = (this, None)) ->
  initCache_loop querySelectorAll entries this = (this, None).
Proof.
  induction entries as [|[key selector] entries IH]; intros H; [reflexivity|].
  cbn [initCache_loop]. rewrite (H key selector (or_introl eq_refl)).
  apply IH. intros k s Hin. apply H. now right.
Qed.

(** X4: on an unchanged document a second [init] changes nothing:
    the cache it finds is the cache it leaves. *)
Theorem init_idempotent (this : ModuleObject) :
  NoDup (map fst (cache_ this)) ->
  (forall key selector, In (key, selector) (cache_ this) ->
     exists result, querySelectorAll (el_ this) selector = Ok result) ->
  init querySelectorAll (fst (init querySelectorAll this))
  = init querySelectorAll this.
Proof.
  intros Hnd Hq. unfold init.
  destruct (initCache_found this Hnd Hq) as (this' & E & Hel & Hc & Hin & _).
  rewrite E. cbn [fst]. unfold initCache. rewrite Hc.
  apply initCache_loop_fixed. intros key selector Hi.
  destruct (Hq key selector Hi) as [result Hr].
  pose proof (Hin key selector result Hi Hr) as Hk.
  assert (Hr' : querySelectorAll (el_ this') selector = Ok result)
    by (now rewrite Hel).
  unfold addToCache. rewrite Hr'.
  destruct result as [|first others]; [reflexivity|].
  rewrite obj_set_same_value.
  - now destruct this'.
  - rewrite Hk. now destruct others.
Qed.

Lemma addToCache_keeps (this : ModuleObject) (key selector : string) (keepArray : bool) :
  let this' := fst (addToCache querySelectorAll this key selector keepArray) in
  (forall k, obj_has k (elements_ this) = true -> obj_has k (elements_ this') = true)
  /\ ((forall k, obj_get k (elements_ this) <> Some (Several [])) ->
      forall k, obj_get k (elements_ this') <> Some (Several [])).
Proof.
  unfold addToCache.
  destruct (querySelectorAll (el_ this) selector) as [result|e]; [|now split].
  destruct result as [|first others]; [now split|].
  cbn [fst elements_]. split.
  - intros k Hk. unfold obj_has in *.
    destruct (String.eqb k key) eqn:E.
    + apply String.eqb_eq in E. subst. now rewrite obj_get_set_same.
    + now rewrite obj_get_set_other.
  - intros H k. destruct (String.eqb k key) eqn:E.
    + apply String.eqb_eq in E. subst. rewrite obj_get_set_same.
      destruct others, keepArray; discriminate.
    + rewrite obj_get_set_other by exact E. apply H.
Qed.

Lemma initCache_loop_keeps (entries : list (string * string)) (this : ModuleObject) :
  let this' := fst (initCache_loop querySelectorAll entries this) in
  (forall k, obj_has k (elements_ this) = true -> obj_has k (elements_ this') = true)
  /\ ((forall k, obj_get k (elements_ this) <> Some (Several [])) ->
      forall k, obj_get k (elements_ this') <> Some (Several [])).
Proof.
  revert this. induction entries as [|[key selector] entries IH]; intros this.
  - now split.
  - cbn [initCache_loop].
    pose proof (addToCache_keeps this key selector false) as H1.
    destruct (addToCache querySelectorAll this key selector false) as [this1 [e|]]; [exact H1|].
    cbn [fst] in H1. destruct H1 as [H1a H1b].
    destruct (IH this1) as [H2a H2b]. split.
    + intros k Hk. apply H2a, H1a, Hk.
    + intros H k. apply H2b, H1b, H.
Qed.

(** X5: whatever the document answers, and even when a selector
    throws, [initCache] deletes no entry of [$elements], and it never
    stores an empty array. *)
Theorem initCache_keeps (this : ModuleObject) :
  (forall k, obj_has k (elements_ this) = true ->
             obj_has k (elements_ (fst (initCache querySelectorAll this))) = true)
  /\ ((forall k, obj_get k (elements_ this) <> Some (Several [])) ->
      forall k, obj_get k (elements_ (fst (initCache querySelectorAll this))) <> Some (Several [])).
Proof. apply initCache_loop_keeps. Qed.

Lemma initCache_loop_app (before after : list (string * string)) (this : ModuleObject) :
  initCache_loop querySelectorAll (before ++ after) this
  = match initCache_loop querySelectorAll before this with
    | (this', Some e) => (this', Some e)
    | (this', None) => initCache_loop querySelectorAll after this'
    end.
Proof.
  revert this. induction before as [|[key selector] before IH]; intros this;
    [reflexivity|].
  cbn [app initCache_loop].
  destruct (addToCache querySelectorAll this key selector false) as [this1 [e|]]; [reflexivity|].
  apply IH.
Qed.

(** X6: a selector that does not parse stops [initCache]: its
    exception propagates, the entries before it have been cached and
    the entries after it are not looked up. *)
Theorem initCache_throws (this this1 : ModuleObject)
    (before after : list (string * string)) (key selector : string) (e : value) :
  cache_ this = before ++ (key, selector) :: after ->
  initCache_loop querySelectorAll before this = (this1, None) ->
  querySelectorAll (el_ this1) selector = Err e ->
  initCache querySelectorAll this = (this1, Some e).
Proof.
  intros Hc Hb Hq. unfold initCache. rewrite Hc, initCache_loop_app, Hb.
  cbn [initCache_loop]. unfold addToCache. now rewrite Hq.
Qed.

End QueryProperties.

(** ** The class helpers *)

Lemma each_class_valid (op : string -> list string -> list string)
    (classNames : list string) :
  forallb valid_token classNames = true ->
  forall l, each_class op classNames l = (apply_classes op classNames l, None).
Proof.
  induction classNames as [|token rest IH]; intros Hv l; [reflexivity|].
  simpl in Hv. apply andb_prop in Hv. destruct Hv as [Ht Hr].
  cbn [each_class]. unfold valid_token in Ht.
  destruct (token_error token); [discriminate|]. now rewrite IH.
Qed.

(** With valid class names nothing is thrown, and an element listed
    n times has had the class names applied n times. *)
Lemma each_element_valid (op : string -> list string -> list string)
    (classNames : list string) :
  forallb valid_token classNames = true ->
  forall ids st,
  exists st',
    each_element op ids classNames st = (st', None)
    /\ forall j, st' j
                 = Nat.iter (count_occ Nat.eq_dec ids j)
                     (apply_classes op classNames) (st j).
Proof.
  intros Hv. induction ids as [|id rest IH]; intros st.
  - exists st. split; reflexivity.
  - cbn [each_element]. rewrite (each_class_valid op classNames Hv).
    destruct (IH (set_classes st id (apply_classes op classNames (st id))))
      as (st' & E & H).
    exists st'. split; [exact E|]. intros j. rewrite H. cbn [count_occ].
    unfold set_classes. destruct (Nat.eq_dec id j) as [->|Hne].
    + rewrite Nat.eqb_refl. now rewrite Nat.iter_succ_r.
    + apply Nat.eqb_neq in Hne. rewrite Nat.eqb_sym in Hne. now rewrite Hne.
Qed.

Lemma listed_count (id : nat) (ids : list nat) :
  listed id ids = negb (Nat.eqb (count_occ Nat.eq_dec ids id) 0).
Proof.
  unfold listed. induction ids as [|a ids IH]; [reflexivity|].
  cbn [existsb count_occ]. destruct (Nat.eq_dec a id) as [->|Hne].
  - now rewrite Nat.eqb_refl.
  - apply Nat.eqb_neq in Hne. rewrite Nat.eqb_sym in Hne. now rewrite Hne.
Qed.

(** An operation that repeats without effect applies once to every
    listed element. *)
Lemma each_element_once (op : string -> list string -> list string)
    (classNames : list string) :
  forallb valid_token classNames = true ->
  (forall l, apply_classes op classNames (apply_classes op classNames l)
             = apply_classes op classNames l) ->
  forall ids st,
  exists st',
    each_element op ids classNames st = (st', None)
    /\ forall j, st' j = if listed j ids
                         then apply_classes op classNames (st j) else st j.
Proof.
  intros Hv Hidem ids st.
  destruct (each_element_valid op classNames Hv ids st) as (st' & E & H).
  exists st'. split; [exact E|]. intros j. rewrite H, listed_count.
  destruct (count_occ Nat.eq_dec ids j) as [|n]; [reflexivity|].
  cbn [Nat.eqb negb]. induction n as [|n IHn]; [reflexivity|].
  rewrite Nat.iter_succ, IHn. apply Hidem.
Qed.

Lemma filter_twice {A} (f g : A -> bool) (l : list A) :
  filter f (filter g l) = filter (fun x => (g x && f x)%bool) l.
Proof.
  induction l as [|x l IH]; [reflexivity|]. simpl.
  destruct (g x); simpl; [|exact IH]. destruct (f x); now rewrite IH.
Qed.

Lemma apply_remove_filter (classNames : list string) (l : list string) :
  apply_classes classList_remove classNames l
  = filter (fun t => negb (has_class t classNames)) l.
Proof.
  unfold apply_classes. revert l.
  induction classNames as [|token rest IH]; intros l.
  - simpl. induction l as [|x l IHl]; [reflexivity|]. simpl. now rewrite <- IHl.
  - cbn [fold_left]. rewrite IH. unfold classList_remove. rewrite filter_twice.
    apply filter_ext. intros t. cbn [has_class existsb].
    rewrite (String.eqb_sym token t). now rewrite negb_orb.
Qed.

(** [removeClass] with valid class names. *)
Lemma removeClass_valid (ids : list nat) (classNames : list string)
    (st : class_store) :
  forallb valid_token classNames = true ->
  exists st',
    removeClass (Elements ids) classNames st = (st', None)
    /\ forall j, st' j = if listed j ids
                         then filter (fun t => negb (has_class t classNames)) (st j)
                         else st j.
Proof.
  intros Hv.
  destruct (each_element_once classList_remove classNames Hv) with (ids := ids) (st := st)
    as (st' & E & H).
  { intros l. rewrite !apply_remove_filter, filter_twice.
    apply filter_ext. intros t. now destruct (has_class t classNames). }
  exists st'. split; [exact E|]. intros j. rewrite H.
  now rewrite apply_remove_filter.
Qed.

(** X7: with valid class names [removeClass] throws nothing and
    leaves on every listed element exactly the classes that are not
    named, in their order; the other elements keep their classes. *)
Theorem removeClass_filter (ids : list nat) (classNames : list string)
    (st : class_store) :
  forallb valid_token classNames = true ->
  exists st',
    removeClass (Elements ids) classNames st = (st', None)
    /\ forall j, st' j = if listed j ids
                         then filter (fun t => negb (has_class t classNames)) (st j)
                         else st j.
Proof. now apply removeClass_valid. Qed.

Lemma has_class_app (t : string) (l1 l2 : list string) :
  has_class t (l1 ++ l2) = (has_class t l1 || has_class t l2)%bool.
Proof. apply existsb_app. Qed.

Lemma has_class_remove (t token : string) (l : list string) :
  has_class t (classList_remove token l)
  = (has_class t l && negb (String.eqb t token))%bool.
Proof.
  unfold has_class, classList_remove.
  induction l as [|x l IH]; [reflexivity|]. cbn [filter existsb].
  destruct (String.eqb token x) eqn:E; cbn [negb existsb].
  - apply String.eqb_eq in E. subst x. rewrite IH.
    destruct (String.eqb t token); [now rewrite !andb_false_r | reflexivity].
  - rewrite IH. destruct (String.eqb t x) eqn:Et; [|reflexivity].
    apply String.eqb_eq in Et. subst x. rewrite (String.eqb_sym t token), E.
    reflexivity.
Qed.

(** What [classList.add] over the class names appends. *)
Lemma apply_add_extends (classNames : list string) (l : list string) :
  exists extra,
    apply_classes classList_add classNames l = l ++ extra
    /\ (forall t, has_class t extra = true -> has_class t classNames = true)
    /\ (forall t, has_class t (l ++ extra)
                  = (has_class t l || has_class t classNames)%bool).
Proof.
  unfold apply_classes. revert l.
  induction classNames as [|token rest IH]; intros l.
  - exists []. rewrite app_nil_r. repeat split; [discriminate|].
    intros t. now rewrite orb_false_r.
  - cbn [fold_left]. unfold classList_add at 2.
    destruct (has_class token l) eqn:Hc.
    + destruct (IH l) as (extra & E & Hsub & Hmem). exists extra.
      split; [exact E|]. split.
      * intros t Ht. cbn [has_class existsb]. fold (has_class t rest).
        rewrite (Hsub t Ht). apply orb_true_r.
      * intros t. rewrite Hmem. cbn [has_class existsb]. fold (has_class t rest).
        destruct (String.eqb t token) eqn:Et; [|reflexivity].
        apply String.eqb_eq in Et. subst t. fold (has_class token l).
        now rewrite Hc.
    + destruct (IH (l ++ [token])) as (extra & E & Hsub & Hmem).
      exists (token :: extra). rewrite E, <- app_assoc. split; [reflexivity|]. split.
      * intros t. cbn [has_class existsb]. fold (has_class t extra) (has_class t rest).
        destruct (String.eqb t token); [reflexivity|]. apply Hsub.
      * intros t. change (l ++ token :: extra) with (l ++ [token] ++ extra).
        rewrite app_assoc, Hmem, has_class_app.
        cbn [has_class existsb]. fold (has_class t rest).
        now rewrite orb_false_r, orb_assoc.
Qed.

Lemma apply_add_idempotent (classNames : list string) (l : list string) :
  apply_classes classList_add classNames (apply_classes classList_add classNames l)
  = apply_classes classList_add classNames l.
Proof.
  destruct (apply_add_extends classNames l) as (extra & E & _ & Hmem).
  rewrite E. clear E.
  assert (G : forall cs m,
             (forall t, has_class t cs = true -> has_class t m = true) ->
             apply_classes classList_add cs m = m).
  { unfold apply_classes. induction cs as [|c cs IHc]; intros m Hm; [reflexivity|].
    cbn [fold_left]. unfold classList_add at 2.
    rewrite (Hm c) by (cbn [has_class existsb]; now rewrite String.eqb_refl).
    apply IHc. intros t Ht. apply Hm. cbn [has_class existsb].
    fold (has_class t cs). rewrite Ht. apply orb_true_r. }
  apply G. intros t Ht. rewrite Hmem, Ht. apply orb_true_r.
Qed.

(** [addClass] with valid class names. *)
Lemma addClass_valid (ids : list nat) (classNames : list string)
    (st : class_store) :
  forallb valid_token classNames = true ->
  exists st',
    addClass (Elements ids) classNames st = (st', None)
    /\ (forall j, listed j ids = false -> st' j = st j)
    /\ (forall j, listed j ids = true ->
          exists extra,
            st' j = st j ++ extra
            /\ (forall t, has_class t extra = true -> has_class t classNames = true)
            /\ (forall t, has_class t (st' j)
                          = (has_class t (st j) || has_class t classNames)%bool)).
Proof.
  intros Hv.
  destruct (each_element_once classList_add classNames Hv
              (apply_add_idempotent classNames) ids st) as (st' & E & H).
  exists st'. split; [exact E|]. split.
  - intros j Hj. now rewrite H, Hj.
  - intros j Hj. rewrite H, Hj.
    destruct (apply_add_extends classNames (st j)) as (extra & Ee & Hsub & Hmem).
    exists extra. rewrite Ee. now repeat split.
Qed.

(** X8: with valid class names [addClass] throws nothing; every
    listed element keeps its classes in place, gains at the end
    named classes only, and then has every named class; the other
    elements keep their classes. *)
Theorem addClass_contains (ids : list nat) (classNames : list string)
    (st : class_store) :
  forallb valid_token classNames = true ->
  exists st',
    addClass (Elements ids) classNames st = (st', None)
    /\ (forall j, listed j ids = false -> st' j = st j)
    /\ (forall j, listed j ids = true ->
          exists extra,
            st' j = st j ++ extra
            /\ (forall t, has_class t extra = true -> has_class t classNames = true)
            /\ (forall t, has_class t (st' j)
                          = (has_class t (st j) || has_class t classNames)%bool)).
Proof. now apply addClass_valid. Qed.

(** X9: on elements that had none of the named classes,
    [removeClass] after [addClass] with the same arguments restores
    every class list. *)
Theorem removeClass_after_addClass (ids : list nat) (classNames : list string)
    (st : class_store) :
  forallb valid_token classNames = true ->
  (forall j t, listed j ids = true -> has_class t classNames = true ->
               has_class t (st j) = false) ->
  exists st',
    removeClass (Elements ids) classNames
      (fst (addClass (Elements ids) classNames st)) = (st', None)
    /\ forall j, st' j = st j.
Proof.
  intros Hv Hnone.
  destruct (addClass_valid ids classNames st Hv) as (st1 & E1 & Hout & Hin).
  rewrite E1. cbn [fst].
  destruct (removeClass_valid ids classNames st1 Hv) as (st2 & E2 & H2).
  exists st2. split; [exact E2|]. intros j. rewrite H2.
  destruct (listed j ids) eqn:Hj; [|now apply Hout].
  destruct (Hin j Hj) as (extra & Ee & Hsub & _). rewrite Ee, filter_app.
  assert (F1 : filter (fun t => negb (has_class t classNames)) (st j) = st j).
  { assert (G : forall l, (forall t, has_class t classNames = true -> has_class t l = false) ->
                          filter (fun t => negb (has_class t classNames)) l = l).
    { induction l as [|x l IHl]; intros Hl; [reflexivity|]. cbn [filter].
      destruct (has_class x classNames) eqn:Hx.
      - specialize (Hl x Hx). cbn [has_class existsb] in Hl.
        now rewrite String.eqb_refl in Hl.
      - cbn [negb]. f_equal. apply IHl. intros t Ht. specialize (Hl t Ht).
        cbn [has_class existsb] in Hl. apply orb_false_elim in Hl. apply Hl. }
    apply G. intros t Ht. now apply Hnone. }
  assert (F2 : filter (fun t => negb (has_class t classNames)) extra = []).
  { clear Ee. induction extra as [|x extra IHe]; [reflexivity|]. cbn [filter].
    rewrite (Hsub x) by (cbn [has_class existsb]; now rewrite String.eqb_refl).
    cbn [negb]. apply IHe. intros t Ht. apply Hsub. cbn [has_class existsb].
    fold (has_class t extra). rewrite Ht. apply orb_true_r. }
  now rewrite F1, F2, app_nil_r.
Qed.

Lemma has_class_toggle (t token : string) (l : list string) :
  has_class t (classList_toggle token l)
  = if String.eqb t token then negb (has_class t l) else has_class t l.
Proof.
  unfold classList_toggle. destruct (has_class token l) eqn:Hc.
  - rewrite has_class_remove. destruct (String.eqb t token) eqn:E.
    + apply String.eqb_eq in E. subst. now rewrite Hc.
    + apply andb_true_r.
  - rewrite has_class_app. cbn [has_class existsb]. rewrite orb_false_r.
    destruct (String.eqb t token) eqn:E.
    + apply String.eqb_eq in E. subst. fold (has_class token l). now rewrite Hc.
    + apply orb_false_r.
Qed.

Lemma has_class_apply_toggle (t : string) (classNames : list string) (l : list string) :
  has_class t (apply_classes classList_toggle classNames l)
  = xorb (has_class t l) (Nat.odd (count_occ string_dec classNames t)).
Proof.
  unfold apply_classes. revert l.
  induction classNames as [|c rest IH]; intros l.
  - simpl. now rewrite xorb_false_r.
  - cbn [fold_left count_occ]. rewrite IH, has_class_toggle.
    destruct (string_dec c t) as [->|Hne].
    + rewrite String.eqb_refl, Nat.odd_succ, <- Nat.negb_odd.
      now destruct (has_class t l), (Nat.odd (count_occ string_dec rest t)).
    + apply String.eqb_neq in Hne. rewrite String.eqb_sym in Hne. now rewrite Hne.
Qed.

Lemma has_class_iter_toggle (t : string) (classNames : list string) (n : nat)
    (l : list string) :
  has_class t (Nat.iter n (apply_classes classList_toggle classNames) l)
  = xorb (has_class t l)
      (Nat.odd n && Nat.odd (count_occ string_dec classNames t)).
Proof.
  induction n as [|n IH].
  - simpl. now rewrite xorb_false_r.
  - rewrite Nat.iter_succ, has_class_apply_toggle, IH, Nat.odd_succ, <- Nat.negb_odd.
    now destruct (has_class t l), (Nat.odd n),
      (Nat.odd (count_occ string_dec classNames t)).
Qed.

(** X10: with valid class names, two calls of [toggleClass] with the
    same arguments throw nothing and give every element back the
    classes it had: each class is present afterwards exactly when it
    was before, however often an element or a name is listed. *)
Theorem toggleClass_twice (ids : list nat) (classNames : list string)
    (st : class_store) :
  forallb valid_token classNames = true ->
  exists st1 st2,
    toggleClass (Elements ids) classNames st = (st1, None)
    /\ toggleClass (Elements ids) classNames st1 = (st2, None)
    /\ forall j t, has_class t (st2 j) = has_class t (st j).
Proof.
  intros Hv.
  destruct (each_element_valid classList_toggle classNames Hv ids st) as (st1 & E1 & H1).
  destruct (each_element_valid classList_toggle classNames Hv ids st1) as (st2 & E2 & H2).
  exists st1, st2. split; [exact E1|]. split; [exact E2|].
  intros j t. rewrite H2, H1, !has_class_iter_toggle.
  now destruct (has_class t (st j)),
    (Nat.odd (count_occ Nat.eq_dec ids j) && Nat.odd (count_occ string_dec classNames t))%bool.
Qed.

Lemma has_class_filter (t : string) (p : string -> bool) (l : list string) :
  has_class t (filter p l) = (has_class t l && p t)%bool.
Proof.
  unfold has_class. induction l as [|x l IH]; [reflexivity|]. cbn [filter existsb].
  destruct (String.eqb t x) eqn:E.
  - apply String.eqb_eq in E. subst x. destruct (p t) eqn:Hp.
    + cbn [existsb]. now rewrite String.eqb_refl.
    + rewrite IH. cbn [orb]. now rewrite andb_false_r.
  - destruct (p x); cbn [existsb orb]; [rewrite E|]; exact IH.
Qed.

(** X11: with valid class names [setClass] throws nothing, and
    afterwards every listed element has each named class exactly
    when the status is true, while the presence of every other class
    is what it was. *)
Theorem setClass_sets (ids : list nat) (status : bool) (classNames : list string)
    (st : class_store) :
  forallb valid_token classNames = true ->
  exists st',
    setClass (Elements ids) status classNames st = (st', None)
    /\ forall j t, listed j ids = true ->
         has_class t (st' j)
         = if has_class t classNames then status else has_class t (st j).
Proof.
  intros Hv. unfold setClass. destruct status.
  - destruct (addClass_valid ids classNames st Hv) as (st' & E & _ & Hin).
    exists st'. split; [exact E|]. intros j t Hj.
    destruct (Hin j Hj) as (extra & _ & _ & Hmem). rewrite Hmem.
    destruct (has_class t classNames); [apply orb_true_r | apply orb_false_r].
  - destruct (removeClass_valid ids classNames st Hv) as (st' & E & H).
    exists st'. split; [exact E|]. intros j t Hj.
    rewrite H, Hj, has_class_filter.
    destruct (has_class t classNames); [apply andb_false_r | apply andb_true_r].
Qed.

Lemma each_class_invalid (op : string -> list string -> list string)
    (valid : list string) (bad : string) (rest : list string) (e : value) :
  forallb valid_token valid = true ->
  token_error bad = Some e ->
  forall l, each_class op (valid ++ bad :: rest) l = (apply_classes op valid l, Some e).
Proof.
  intros Hv Hb. induction valid as [|token valid IH]; intros l.
  - cbn [app each_class]. now rewrite Hb.
  - simpl in Hv. apply andb_prop in Hv. destruct Hv as [Ht Hr].
    cbn [app each_class]. unfold valid_token in Ht.
    destruct (token_error token); [discriminate|]. now rewrite (IH Hr).
Qed.

(** X12: the helpers are not atomic.  An invalid class name (empty,
    or with white space) makes the call throw at the first element:
    the names before it have been applied to that element, the names
    after it and the other elements are not reached.  Without any
    element nothing is thrown. *)
Theorem class_helpers_invalid (op : string -> list string -> list string)
    (id : nat) (ids : list nat) (valid : list string) (bad : string)
    (rest : list string) (e : value) (st : class_store) :
  forallb valid_token valid = true ->
  token_error bad = Some e ->
  with_target op (Elements (id :: ids)) (valid ++ bad :: rest) st
  = (set_classes st id (apply_classes op valid (st id)), Some e)
  /\ with_target op (Elements []) (valid ++ bad :: rest) st = (st, None)
  /\ with_target op NoTarget (valid ++ bad :: rest) st = (st, None).
Proof.
  intros Hv Hb. split; [|split; reflexivity].
  unfold with_target. cbn [target_elements each_element].
  now rewrite (each_class_invalid op valid bad rest e Hv Hb).
Qed.

(** ** [isInViewport] *)

(** X13: whatever the numbers and their comparisons, an element that
    counts as fully in the viewport also counts as partially in
    it. *)
Theorem isInViewport_full_partial (num : Type) (zero : num)
    (add sub mul : num -> num -> num) (lt le : num -> num -> bool)
    (num_truthy : num -> bool) (distance : rect num)
    (innerHeight clientHeight innerWidth clientWidth : num)
    (percentageVisible : option num) :
  isInViewport num zero add sub mul lt le num_truthy distance
    innerHeight clientHeight innerWidth clientWidth false percentageVisible = true ->
  isInViewport num zero add sub mul lt le num_truthy distance
    innerHeight clientHeight innerWidth clientWidth true percentageVisible = true.
Proof.
  unfold isInViewport. cbv zeta. intros H.
  apply andb_prop in H. destruct H as [H Hl].
  apply andb_prop in H. destruct H as [H Hb].
  apply andb_prop in H. destruct H as [Ht Hr].
  rewrite Ht, Hl. cbn [orb andb]. apply orb_true_r.
Qed.

(** ** [initializeModule] *)

Section ConstructionProperties.
Context {host : Host}.

Variable construct : value -> completion value.
Variable init_method : value -> option (completion value).

(** A value that is neither a plain function, nor a thenable, nor a
    module wrapper reaches the callback as it is. *)
Lemma loadDynamicImport_value (v : value) (cb : callback) :
  is_plain_function v = false ->
  is_thenable v = false ->
  has_default v = false ->
  loadDynamicImport v (Some cb)
  = bind (cb v) (fun r => match r with
                          | Ok result => await result
                          | Err e => caught e v
                          end).
Proof.
  intros Hp Ht Hd. unfold loadDynamicImport, invoke_if_plain. rewrite Hp.
  cbv beta iota zeta delta [bind ret]. rewrite (await_concrete v Ht).
  cbv beta iota zeta delta [unwrap_default]. rewrite Hd, Hp.
  cbv beta iota zeta. rewrite (await_concrete v Ht). cbv beta iota zeta.
  destruct (cb v) as [[result|e] t]; cbn [app].
  - now destruct (await result).
  - now destruct (caught e v).
Qed.

(** X14: an initiator that is already a module class.  The promise
    is fulfilled with the new instance, after [init()] unless [init]
    is false; when the constructor or [init()] throws, the error is
    logged and the promise is fulfilled with the class itself, not
    with an instance and not with an absent value. *)
Theorem initializeModule_class (Include : value) (init : option bool) :
  is_plain_function Include = false ->
  is_thenable Include = false ->
  has_default Include = false ->
  truthy Include = true ->
  (forall include, construct Include = Ok include -> is_thenable include = false) ->
  initializeModule construct init_method Include init
  = match construct Include with
    | Err e => (Fulfilled Include, [ConsoleError e])
    | Ok include =>
        match (if match init with Some b => b | None => true end
               then init_method include else None) with
        | Some (Err e) => (Fulfilled Include, [ConsoleError e])
        | _ => (Fulfilled include, [])
        end
    end.
Proof.
  intros Hp Ht Hd Htr Hinst. unfold initializeModule.
  rewrite loadDynamicImport_value by assumption.
  unfold instantiate. rewrite Htr.
  destruct (construct Include) as [include|e] eqn:Ec.
  - specialize (Hinst include eq_refl).
    destruct (match init with Some b => b | None => true end).
    + destruct (init_method include) as [[r|e]|].
      * unfold bind, ret. now rewrite (await_concrete include Hinst).
      * unfold bind, ret, caught, tell. now rewrite (await_concrete Include Ht).
      * unfold bind, ret. now rewrite (await_concrete include Hinst).
    + unfold bind, ret. now rewrite (await_concrete include Hinst).
  - unfold bind, ret, caught, tell. now rewrite (await_concrete Include Ht).
Qed.

End ConstructionProperties.

(** ** More on the coercion engine *)

Section FurtherProperties.
Context {host : Host}.

Lemma convert_loop_never_stops (str : string) (types : list value) :
  forallb never_stops types = true ->
  forall output,
    fst (convert_loop str types output)
    = Ok (fold_left (switch_output str) types output).
Proof.
  induction types as [|type types IH]; intros Hall output; [reflexivity|].
  simpl in Hall. apply andb_prop in Hall. destruct Hall as [Hn Hall].
  specialize (IH Hall). cbn [convert_loop fold_left]. rewrite fst_bind.
  destruct type as [| | | | | | | |c|m body| | |]; try discriminate Hn.
  - destruct c; try discriminate Hn.
    + cbn [ret fst instance_of switch_output]. apply IH.
    + cbn [switch_output]. destruct (JSON_parse str) as [v|].
      * cbn [ret fst instance_of]. apply IH.
      * rewrite fst_bind. cbn [tell ret fst instance_of]. apply IH.
    + cbn [ret fst instance_of switch_output]. apply IH.
  - cbn [ret fst instance_of switch_output]. apply IH.
Qed.

Lemma fold_left_last {A B} (f : A -> B -> A) (l : list B) (x : B) (a : A) :
  fold_left f (l ++ [x]) a = f (fold_left f l a) x.
Proof. now rewrite fold_left_app. Qed.

(** X15: among candidates that are Number, String, Boolean or user
    functions the search never stops early, so the last candidate
    decides, not the first: the result is what the switch assigns
    candidate after candidate, and a list that ends with String gives
    the raw string, one that ends with Number the parsed number. *)
Theorem convertString_last_wins (str : string) (types : list value) :
  types <> [] ->
  forallb never_stops types = true ->
  fst (convertString (VStr str) (VArr types))
  = Ok (fold_left (switch_output str) types VUndefined)
  /\ (forall before, types = before ++ [VCtor String_] ->
        fst (convertString (VStr str) (VArr types)) = Ok (VStr str))
  /\ (forall before, types = before ++ [VCtor Number] ->
        fst (convertString (VStr str) (VArr types)) = Ok (VNum (parseFloat str))).
Proof.
  intros Hne Hall.
  assert (E : fst (convertString (VStr str) (VArr types))
              = Ok (fold_left (switch_output str) types VUndefined)).
  { unfold convertString. destruct types as [|type rest]; [contradiction|].
    now apply convert_loop_never_stops. }
  split; [exact E|]. split; intros before ->; rewrite E, fold_left_last; reflexivity.
Qed.

(** X16: the search does stop at a Date candidate when the string is
    a date, at an Array candidate when it is a JSON array, and at an
    Object candidate when it is a JSON object or array: the later
    candidates are then not tried. *)
Theorem convertString_stops (str : string) (rest : list value) :
  (isValidDate (parseISODate str) = true ->
   convertString (VStr str) (VArr (VCtor Date :: rest)) = (Ok (parseISODate str), []))
  /\ (forall xs, JSON_parse str = Some (VArr xs) ->
        convertString (VStr str) (VArr (VCtor Array :: rest)) = (Ok (VArr xs), [])
        /\ convertString (VStr str) (VArr (VCtor Object :: rest)) = (Ok (VArr xs), []))
  /\ (forall fs, JSON_parse str = Some (VObj fs) ->
        convertString (VStr str) (VArr (VCtor Object :: rest)) = (Ok (VObj fs), [])).
Proof.
  split; [|split].
  - intros Hv. cbn [convertString convert_loop]. unfold bind, ret.
    destruct (parseISODate str) as [| | | | |t| | | | | | |]; try discriminate Hv.
    reflexivity.
  - intros xs Hj. cbn [convertString convert_loop]. rewrite Hj. now split.
  - intros fs Hj. cbn [convertString convert_loop]. now rewrite Hj.
Qed.

Lemma instance_of_not_function (v type : value) :
  is_function type = false ->
  instance_of v type = Err (TypeError "Right-hand side of 'instanceof' is not callable").
Proof. destruct type; try reflexivity; discriminate. Qed.

Lemma switch_not_function (str : string) (output type : value) :
  is_function type = false -> switch_output str output type = VStr str.
Proof. destruct type; try reflexivity; discriminate. Qed.

Lemma convert_loop_bad_candidate (str : string) (before : list value)
    (bad : value) (rest : list value) :
  forallb never_stops before = true ->
  is_function bad = false ->
  forall output,
    fst (convert_loop str (before ++ bad :: rest) output)
    = Err (TypeError "Right-hand side of 'instanceof' is not callable").
Proof.
  intros Hall Hbad. induction before as [|type before IH]; intros output.
  - cbn [app convert_loop]. rewrite fst_bind.
    assert (E : forall m : M value, fst m = VStr str ->
               fst (match instance_of (fst m) bad with
                    | Ok true => ret (Ok (fst m))
                    | Ok false => convert_loop str rest (fst m)
                    | Err e => ret (Err e)
                    end) = Err (TypeError "Right-hand side of 'instanceof' is not callable")).
    { intros m _. now rewrite (instance_of_not_function (fst m) bad Hbad). }
    apply E. destruct bad; try reflexivity; discriminate.
  - simpl in Hall. apply andb_prop in Hall. destruct Hall as [Hn Hall].
    specialize (IH Hall). cbn [app convert_loop]. rewrite fst_bind.
    destruct type as [| | | | | | | |c|m body| | |]; try discriminate Hn.
    + destruct c; try discriminate Hn.
      * cbn [ret fst instance_of]. apply IH.
      * destruct (JSON_parse str) as [v|].
        -- cbn [ret fst instance_of]. apply IH.
        -- rewrite fst_bind. cbn [tell ret fst instance_of]. apply IH.
      * cbn [ret fst instance_of]. apply IH.
    + cbn [ret fst instance_of]. apply IH.
Qed.

(** X17: [convertString] throws exactly at a candidate that is not a
    function.  With function candidates only it returns normally;
    when a candidate that is not a function (a string, an array of
    types) is reached, the test [output instanceof type] throws a
    TypeError. *)
Theorem convertString_throws (str : string) :
  (forall types, forallb is_function types = true ->
     exists v log, convertString (VStr str) (VArr types) = (Ok v, log))
  /\ (forall before bad rest,
        forallb never_stops before = true ->
        is_function bad = false ->
        fst (convertString (VStr str) (VArr (before ++ bad :: rest)))
        = Err (TypeError "Right-hand side of 'instanceof' is not callable")).
Proof.
  split.
  - intros types Hall. now apply convertString_total.
  - intros before bad rest Hall Hbad. unfold convertString.
    destruct (before ++ bad :: rest) as [|type others] eqn:E.
    + now destruct before.
    + rewrite <- E. now apply convert_loop_bad_candidate.
Qed.

(** ** More on the props builder *)

Lemma obj_set_keys {A} (k key : string) (v : A) (l : list (string * A)) :
  In k (map fst (obj_set key v l)) <-> k = key \/ In k (map fst l).
Proof.
  induction l as [|[k' v'] l IH]; simpl.
  - intuition.
  - destruct (String.eqb key k') eqn:E; simpl.
    + apply String.eqb_eq in E. subst. intuition.
    + rewrite IH. intuition.
Qed.

Lemma obj_set_NoDup {A} (key : string) (v : A) (l : list (string * A)) :
  NoDup (map fst l) -> NoDup (map fst (obj_set key v l)).
Proof.
  induction l as [|[k' v'] l IH]; simpl; intros Hnd.
  - constructor; [tauto | constructor].
  - inversion Hnd as [|? ? Hnotin Hnd']; subst.
    destruct (String.eqb key k') eqn:E; simpl.
    + apply String.eqb_eq in E. subst. now constructor.
    + constructor; [|now apply IH].
      rewrite obj_set_keys. apply String.eqb_neq in E. intros [->|H]; tauto.
Qed.

Lemma obj_assign_NoDup {A} (key : string) (v : A) (l : list (string * A)) :
  NoDup (map fst l) -> NoDup (map fst (obj_assign key v l)).
Proof.
  unfold obj_assign. destruct (String.eqb key "__proto__"); [tauto|].
  apply obj_set_NoDup.
Qed.

Lemma obj_assign_keys {A} (k key : string) (v : A) (l : list (string * A)) :
  In k (map fst (obj_assign key v l)) -> k = key \/ In k (map fst l).
Proof.
  unfold obj_assign. destruct (String.eqb key "__proto__"); [tauto|].
  now rewrite obj_set_keys.
Qed.

Lemma parseVueProps_entry_some (props : value) (entry : string * value)
    (key : string) (prop : value) (log : trace) :
  parseVueProps_entry props entry = (Ok (Some (key, prop)), log) ->
  key = fst entry /\ truthy (get_opt props key) = true.
Proof.
  destruct entry as [k propDef]. unfold parseVueProps_entry.
  destruct (truthy (get_opt props k)) eqn:Et; cbn [negb].
  - unfold bind, ret.
    destruct (convertString (get_opt props k) (requestedTypes_of propDef)) as [[v|e] t];
      intros H; inversion H; subst. now split.
  - discriminate.
Qed.

Lemma parseVueProps_loop_keys (props : value) (defs : list (string * value)) :
  forall output out log,
    parseVueProps_loop props defs output = (Ok out, log) ->
    (NoDup (map fst output) -> NoDup (map fst out))
    /\ (forall k, In k (map fst out) ->
          In k (map fst output)
          \/ (In k (map fst defs) /\ truthy (get_opt props k) = true)).
Proof.
  induction defs as [|entry defs IH]; intros output out log H.
  - inversion H; subst. split; [trivial | tauto].
  - cbn [parseVueProps_loop] in H. unfold bind in H.
    destruct (parseVueProps_entry props entry) as [[[[key prop]|]|e] t] eqn:Ee.
    + destruct (parseVueProps_entry_some props entry key prop t Ee) as [Hk Ht].
      destruct (parseVueProps_loop props defs (obj_set key prop output))
        as [r t'] eqn:El.
      injection H as Hr Hlog. subst r. destruct (IH _ _ _ El) as [K1 K2]. split.
      * intros Hnd. apply K1. now apply obj_set_NoDup.
      * intros k Hin. destruct (K2 k Hin) as [Ho|[Hd Htr]].
        -- apply obj_set_keys in Ho. destruct Ho as [->|Ho]; [|now left].
           right. split; [|exact Ht]. left. now rewrite Hk.
        -- right. split; [now right | exact Htr].
    + destruct (parseVueProps_loop props defs output) as [r t'] eqn:El.
      injection H as Hr Hlog. subst r. destruct (IH _ _ _ El) as [K1 K2]. split; [exact K1|].
      intros k Hin. destruct (K2 k Hin) as [Ho|[Hd Htr]]; [now left|].
      right. split; [now right | exact Htr].
    + discriminate.
Qed.

(** X18: whenever [parseVueProps] returns, the result is an object
    whose keys are distinct, are all declared in the prop
    definitions, and all have a present, non-empty raw value: an
    attribute that is not declared is never passed on. *)
Theorem parseVueProps_declared (propDefs props result : value) (log : trace) :
  parseVueProps propDefs props = (Ok result, log) ->
  exists out defs,
    result = VObj out
    /\ entries propDefs = Ok defs
    /\ NoDup (map fst out)
    /\ forall k, In k (map fst out) ->
         In k (map fst defs) /\ truthy (get_opt props k) = true.
Proof.
  unfold parseVueProps. destruct (entries propDefs) as [defs|e]; [|discriminate].
  unfold bind, ret.
  destruct (parseVueProps_loop props defs []) as [[out|e] t] eqn:El; [|discriminate].
  intros H. inversion H; subst. exists out, defs.
  destruct (parseVueProps_loop_keys props defs [] out t El) as [H1 H2].
  split; [reflexivity|]. split; [reflexivity|]. split; [apply H1; constructor|].
  intros k Hin. destruct (H2 k Hin) as [[]|Hd]. exact Hd.
Qed.

Lemma parseVueProps_loop_indexed (props : value) (names : list value) :
  forall i output,
    (forall j, i <= j < i + length names ->
               truthy (get_opt props (nat_to_string j)) = false) ->
    parseVueProps_loop props (indexed i names) output = (Ok output, []).
Proof.
  induction names as [|name names IH]; intros i output H; [reflexivity|].
  cbn [indexed parseVueProps_loop]. unfold parseVueProps_entry.
  rewrite (H i) by (simpl; lia). cbn [negb]. unfold bind, ret.
  rewrite IH; [reflexivity|]. intros j Hj. apply H. simpl. lia.
Qed.

(** X19: prop definitions written as an array of names, which Vue
    accepts, are read by index: unless the raw attributes have
    numeric keys, every attribute is dropped and the arguments
    mapping is empty. *)
Theorem parseVueProps_array_declaration (names : list value) (props : value) :
  (forall j, j < length names ->
             truthy (get_opt props (nat_to_string j)) = false) ->
  parseVueProps (VArr names) props = (Ok (VObj []), []).
Proof.
  intros H. unfold parseVueProps. cbn [entries].
  rewrite parseVueProps_loop_indexed; [reflexivity|].
  intros j Hj. apply H. lia.
Qed.

(** ** More on the component scanner *)

Lemma rest_props_get (el : element) (k : string) :
  get_opt (rest_props el) k
  = if String.eqb k "vueComponent" then VUndefined
    else match obj_get k (dataset el) with
         | Some raw => VStr raw
         | None => VUndefined
         end.
Proof.
  unfold rest_props. cbn [get_opt get_member].
  induction (dataset el) as [|[k' raw] d IH].
  - simpl. now destruct (String.eqb k "vueComponent").
  - cbn [obj_remove obj_get].
    destruct (String.eqb "vueComponent" k') eqn:E.
    + apply String.eqb_eq in E. subst k'. rewrite IH.
      destruct (String.eqb k "vueComponent"); reflexivity.
    + cbn [map fst snd obj_get].
      destruct (String.eqb k k') eqn:Ek; [|exact IH].
      apply String.eqb_eq in Ek. subst k'. rewrite String.eqb_sym in E.
      now rewrite E.
Qed.

(** X20: a component that declares no props is mounted with every
    data attribute of its marker as a raw string, except the
    component name itself, which is never passed on. *)
Theorem undeclared_props_pass_raw (self : App) (el : element)
    (name : string) (fs : list (string * value)) :
  obj_get "vueComponent" (dataset el) = Some name ->
  obj_get name (match registry self with Some r => r | None => [] end)
  = Some (lazy (VObj fs)) ->
  is_thenable (VObj fs) = false ->
  truthy (get_member (VObj fs) "props") = false ->
  branch self el = Fulfilled (VVue (node el) (VObj fs) (rest_props el))
  /\ get_opt (rest_props el) "vueComponent" = VUndefined
  /\ forall k raw, k <> "vueComponent" -> obj_get k (dataset el) = Some raw ->
       get_opt (rest_props el) k = VStr raw.
Proof.
  intros Hname Hreg Hth Hprops. split; [|split].
  - unfold branch, scan_element, initVueComponent.
    rewrite Hname. cbn [component_key]. rewrite Hreg.
    rewrite loadDynamicImport_lazy by (reflexivity || assumption).
    unfold mount. cbn [get]. rewrite Hprops. reflexivity.
  - now rewrite rest_props_get.
  - intros k raw Hk Hg. rewrite rest_props_get, Hg.
    apply String.eqb_neq in Hk. now rewrite Hk.
Qed.

(** X21: when building the arguments throws, the widget is not
    mounted: the branch is fulfilled with the component definition
    itself, which then sits among the mounted instances. *)
Theorem props_error_unmounted (self : App) (el : element)
    (name : string) (fs : list (string * value)) (e : value) :
  obj_get "vueComponent" (dataset el) = Some name ->
  obj_get name (match registry self with Some r => r | None => [] end)
  = Some (lazy (VObj fs)) ->
  is_thenable (VObj fs) = false ->
  truthy (get_member (VObj fs) "props") = true ->
  fst (parseVueProps (get_member (VObj fs) "props") (rest_props el)) = Err e ->
  branch self el = Fulfilled (VObj fs) /\ mounts self el = false.
Proof.
  intros Hname Hreg Hth Hprops Herr.
  assert (E : branch self el = Fulfilled (VObj fs)).
  { unfold branch, scan_element, initVueComponent.
    rewrite Hname. cbn [component_key]. rewrite Hreg.
    rewrite loadDynamicImport_lazy by (reflexivity || assumption).
    unfold mount. cbn [get]. rewrite Hprops.
    replace (truthy (rest_props el)) with true by reflexivity. cbn [andb].
    rewrite fst_bind, Herr. reflexivity. }
  split; [exact E|]. unfold mounts. now rewrite E.
Qed.

Lemma initVueComponents_fst (self : App) (els : list element) :
  fst (initVueComponents self (Some els))
  = match Promise_all (map (branch self) els) with
    | Fulfilled (VArr newComponents) =>
        (Fulfilled VUndefined,
         {| registry := registry self;
            vueComponents := Some (existing self ++ newComponents) |})
    | other => (other, self)
    end.
Proof.
  unfold initVueComponents. rewrite fst_bind, scan_all_branches.
  destruct (Promise_all (map (branch self) els)) as [v| |]; try reflexivity.
  destruct v; reflexivity.
Qed.

(** X22: a scan never touches the registry and only appends to the
    recorded instances; unless it is fulfilled it records nothing. *)
Theorem initVueComponents_appends (self : App) (nodes : option (list element)) :
  let outcome := fst (fst (initVueComponents self nodes)) in
  let self' := snd (fst (initVueComponents self nodes)) in
  registry self' = registry self
  /\ (exists added, existing self' = existing self ++ added)
  /\ (is_fulfilled outcome = false -> self' = self).
Proof.
  destruct nodes as [els|].
  - cbv zeta. rewrite initVueComponents_fst.
    destruct (Promise_all (map (branch self) els)) as [v|e|].
    + destruct v; cbn [fst snd];
        try (split; [reflexivity|]; split;
             [exists []; now rewrite app_nil_r | discriminate]).
      split; [reflexivity|]. split; [|discriminate].
      eexists. reflexivity.
    + cbn [fst snd]. split; [reflexivity|]. split; [|reflexivity].
      exists []. now rewrite app_nil_r.
    + cbn [fst snd]. split; [reflexivity|]. split; [|reflexivity].
      exists []. now rewrite app_nil_r.
  - cbn. split; [reflexivity|]. split; [|reflexivity].
    exists []. now rewrite app_nil_r.
Qed.

(** X23: one branch that rejects makes the scan reject with its
    error, and with no rejection one branch that stays pending keeps
    the scan pending: in both cases nothing is recorded, the
    instances the sibling branches mounted included. *)
Theorem initVueComponents_unsettled (self : App) (els : list element) :
  (existsb is_rejected (map (branch self) els) = true ->
   exists e, fst (initVueComponents self (Some els)) = (Rejected e, self)
             /\ In (Rejected e) (map (branch self) els))
  /\ (existsb is_rejected (map (branch self) els) = false ->
      existsb is_pending (map (branch self) els) = true ->
      fst (initVueComponents self (Some els)) = (Pending, self)).
Proof.
  rewrite initVueComponents_fst. unfold Promise_all. split.
  - intros Hr. destruct (find is_rejected (map (branch self) els)) as [p|] eqn:Ef.
    + apply find_some in Ef. destruct Ef as [Hin Hp].
      destruct p as [v|e|]; try discriminate. exists e. now split.
    + apply existsb_exists in Hr. destruct Hr as (p & Hin & Hp).
      now rewrite (find_none _ _ Ef p Hin) in Hp.
  - intros Hr Hp. destruct (find is_rejected (map (branch self) els)) as [p|] eqn:Ef.
    + apply find_some in Ef. destruct Ef as [Hin Hq].
      assert (existsb is_rejected (map (branch self) els) = true)
        by (apply existsb_exists; now exists p).
      congruence.
    + now rewrite Hp.
Qed.

(** X24: when every branch is fulfilled the scan records one entry
    for each marker, in document order, whatever the branches
    resolved to. *)
Theorem initVueComponents_in_order (self : App) (els : list element) :
  forallb is_fulfilled (map (branch self) els) = true ->
  fst (initVueComponents self (Some els))
  = (Fulfilled VUndefined,
     {| registry := registry self;
        vueComponents :=
          Some (existing self ++ map (fun el => settled_value (branch self el)) els) |}).
Proof.
  intros H. rewrite initVueComponents_fst, Promise_all_fulfilled by exact H.
  now rewrite map_map.
Qed.

(** ** More on the loaders *)

(** X25: loading is idempotent per URL on every page: a second
    [loadJSFile] for a URL other than [__proto__] returns the promise
    of the first and changes neither the page nor the caches, and a
    second [loadCssFile] for any URL inserts and records nothing.
    Under the URL [__proto__] the script cache records nothing, so
    that URL is loaded again at every call. *)
Theorem loaders_idempotent :
  (forall url async async' st,
      url <> VStr "__proto__" ->
      loadJSFile url async' (snd (loadJSFile url async st)) = loadJSFile url async st)
  /\ (forall url st,
        snd (loadCssFile url (snd (loadCssFile url st))) = snd (loadCssFile url st))
  /\ (forall async st,
        loadedJSFiles (snd (loadJSFile (VStr "__proto__") async st)) = loadedJSFiles st).
Proof.
  split; [|split].
  - intros. now apply loadJSFile_again.
  - intros. apply loadCssFile_again.
  - intros. apply loadJSFile_proto.
Qed.

(** X26: the caches only grow, and each loader leaves the cache of
    the other alone: [loadJSFile] keeps every recorded promise and
    the stylesheet list, [loadCssFile] keeps the script promises and
    appends at most its URL to the stylesheet list. *)
Theorem loaders_append_only (url async : value) (st : loader) :
  (forall k p, obj_get k (loadedJSFiles st) = Some p ->
               obj_get k (loadedJSFiles (snd (loadJSFile url async st))) = Some p)
  /\ loadedCSSFiles (snd (loadJSFile url async st)) = loadedCSSFiles st
  /\ loadedJSFiles (snd (loadCssFile url st)) = loadedJSFiles st
  /\ (loadedCSSFiles (snd (loadCssFile url st)) = loadedCSSFiles st
      \/ exists u, valid_url url = Some u
                   /\ loadedCSSFiles (snd (loadCssFile url st))
                      = loadedCSSFiles st ++ [u]).
Proof.
  split; [|split; [|split]].
  - intros k p. apply loadJSFile_keeps.
  - unfold loadJSFile. destruct (valid_url url) as [u|]; [|reflexivity].
    destruct (obj_get u (loadedJSFiles st)); [reflexivity|].
    now destruct (insert_script (Script u (truthy async)) (page st)).
  - unfold loadCssFile. destruct (valid_url url) as [u|]; [|reflexivity].
    destruct (existsb (String.eqb u) (loadedCSSFiles st)); [reflexivity|].
    now destruct (head (page st)).
  - unfold loadCssFile. destruct (valid_url url) as [u|]; [|now left].
    destruct (existsb (String.eqb u) (loadedCSSFiles st)); [now left|].
    destruct (head (page st)); [now left|]. right. exists u. now split.
Qed.

Lemma insert_before_script_none (new : dom_node) (ns : list dom_node) :
  insert_before_script new ns = None ->
  forallb (fun n => negb (is_script n)) ns = true.
Proof.
  induction ns as [|n ns IH]; [reflexivity|]. simpl.
  destruct (is_script n); [discriminate|].
  destruct (insert_before_script new ns); [discriminate|]. intros _. now apply IH.
Qed.

Lemma insert_before_script_some (new : dom_node) (ns ns' : list dom_node) :
  insert_before_script new ns = Some ns' ->
  exists pre old post,
    ns = pre ++ old :: post
    /\ ns' = pre ++ new :: old :: post
    /\ is_script old = true
    /\ forallb (fun n => negb (is_script n)) pre = true.
Proof.
  revert ns'. induction ns as [|n ns IH]; intros ns'; [discriminate|]. simpl.
  destruct (is_script n) eqn:En.
  - intros H. inversion H; subst. exists [], n, ns. now repeat split.
  - destruct (insert_before_script new ns) as [rest|]; [|discriminate].
    intros H. inversion H; subst.
    destruct (IH rest eq_refl) as (pre & old & post & E1 & E2 & Ho & Hp).
    exists (n :: pre), old, post. subst. repeat split; try assumption.
    simpl. now rewrite En.
Qed.

Lemma find_script_after (pre post : list dom_node) (n : dom_node) :
  forallb (fun x => negb (is_script x)) pre = true ->
  is_script n = true ->
  find is_script (pre ++ n :: post) = Some n.
Proof.
  intros Hp Hn. induction pre as [|x pre IH]; simpl.
  - now rewrite Hn.
  - simpl in Hp. apply andb_prop in Hp. destruct Hp as [Hx Hp].
    apply negb_true_iff in Hx. rewrite Hx. now apply IH.
Qed.

(** X27: a script that was not requested before is inserted just
    before the first script element of the page and so becomes the
    first script itself, with its [async] flag; every other node
    keeps its place. *)
Theorem loadJSFile_inserts_first (url async : value) (st : loader)
    (u : string) (old : dom_node) :
  valid_url url = Some u ->
  obj_get u (loadedJSFiles st) = None ->
  first_script (page st) = Some old ->
  let page' := page (snd (loadJSFile url async st)) in
  first_script page' = Some (Script u (truthy async))
  /\ exists pre post,
      head (page st) ++ body (page st) = pre ++ old :: post
      /\ head page' ++ body page' = pre ++ Script u (truthy async) :: old :: post
      /\ forallb (fun n => negb (is_script n)) pre = true.
Proof.
  intros Hu Hg Hf. cbv zeta. unfold loadJSFile, insert_script. rewrite Hu, Hg.
  unfold first_script in *.
  assert (Hold : forall pre o post,
             head (page st) ++ body (page st) = pre ++ o :: post ->
             is_script o = true ->
             forallb (fun n => negb (is_script n)) pre = true -> o = old).
  { intros pre o post E Ho Hp. rewrite E, (find_script_after pre post o Hp Ho) in Hf.
    now inversion Hf. }
  destruct (insert_before_script (Script u (truthy async)) (head (page st)))
    as [head'|] eqn:Eh.
  - destruct (insert_before_script_some _ _ _ Eh) as (pre & o & post & E1 & E2 & Ho & Hp).
    assert (o = old) by (apply (Hold pre o (post ++ body (page st))); trivial;
                         rewrite E1, <- app_assoc; reflexivity).
    subst o. cbn [snd page head body]. rewrite E2, <- !app_assoc. cbn [app]. split.
    + now apply find_script_after.
    + exists pre, (post ++ body (page st)). rewrite E1, <- app_assoc. now repeat split.
  - pose proof (insert_before_script_none _ _ Eh) as Hh.
    destruct (insert_before_script (Script u (truthy async)) (body (page st)))
      as [body'|] eqn:Eb.
    + destruct (insert_before_script_some _ _ _ Eb) as (pre & o & post & E1 & E2 & Ho & Hp).
      assert (Hpre : forallb (fun n => negb (is_script n)) (head (page st) ++ pre) = true)
        by (now rewrite forallb_app, Hh, Hp).
      assert (o = old) by (apply (Hold (head (page st) ++ pre) o post); trivial;
                           rewrite E1, <- app_assoc; reflexivity).
      subst o. cbn [snd page head body]. rewrite E2, app_assoc. split.
      * now apply find_script_after.
      * exists (head (page st) ++ pre), post. rewrite E1, app_assoc. now repeat split.
    + pose proof (insert_before_script_none _ _ Eb) as Hb.
      assert (Hnone : find is_script (head (page st) ++ body (page st)) = None).
      { assert (G : forall l, forallb (fun n => negb (is_script n)) l = true ->
                              find is_script l = None).
        { induction l as [|x l IHl]; [reflexivity|]. simpl. intros H.
          apply andb_prop in H. destruct H as [Hx Hl].
          apply negb_true_iff in Hx. rewrite Hx. now apply IHl. }
        apply G. now rewrite forallb_app, Hh, Hb. }
      congruence.
Qed.

(** X28: no URL is ever recorded twice: the stylesheet list and the
    keys of the script cache stay free of duplicates. *)
Theorem loaders_record_once (url async : value) (st : loader) :
  (NoDup (map fst (loadedJSFiles st)) ->
   NoDup (map fst (loadedJSFiles (snd (loadJSFile url async st)))))
  /\ (NoDup (loadedCSSFiles st) ->
      NoDup (loadedCSSFiles (snd (loadCssFile url st)))).
Proof.
  split.
  - intros Hnd. unfold loadJSFile. destruct (valid_url url) as [u|]; [|exact Hnd].
    destruct (obj_get u (loadedJSFiles st)); [exact Hnd|].
    destruct (insert_script (Script u (truthy async)) (page st));
      cbn [snd loadedJSFiles]; now apply obj_assign_NoDup.
  - intros Hnd. unfold loadCssFile. destruct (valid_url url) as [u|]; [|exact Hnd].
    destruct (existsb (String.eqb u) (loadedCSSFiles st)) eqn:He; [exact Hnd|].
    destruct (head (page st)); [exact Hnd|]. cbn [snd loadedCSSFiles].
    apply NoDup_app; [exact Hnd | repeat constructor; tauto |].
    intros x Hx [<-|[]].
    assert (existsb (String.eqb u) (loadedCSSFiles st) = true).
    { apply existsb_exists. exists u. split; [exact Hx | apply String.eqb_refl]. }
    congruence.
Qed.

(** ** More on the dataset extractor *)

Lemma obj_set_In {A} (k key : string) (v val : A) (l : list (string * A)) :
  In (k, v) (obj_set key val l) -> (k = key /\ v = val) \/ In (k, v) l.
Proof.
  induction l as [|[k' v'] l IH]; simpl.
  - intros [H|[]]. inversion H. now left.
  - destruct (String.eqb key k'); simpl.
    + intros [H|H]; [inversion H; now left | right; now right].
    + intros [H|H]; [right; now left|]. destruct (IH H); [now left | right; now right].
Qed.

Lemma obj_assign_In {A} (k key : string) (v val : A) (l : list (string * A)) :
  In (k, v) (obj_assign key val l) -> (k = key /\ v = val) \/ In (k, v) l.
Proof.
  unfold obj_assign. destruct (String.eqb key "__proto__"); [tauto|].
  apply obj_set_In.
Qed.

Lemma getDataset_loop_invariant (prefix : option string)
    (dataset : list (string * string)) :
  forall output out,
    getDataset_loop prefix dataset output = Ok out ->
    (NoDup (map fst output) -> NoDup (map fst out))
    /\ (~ In "" (map fst output) -> ~ In "" (map fst out))
    /\ (forall k v, In (k, v) out ->
          In (k, v) output
          \/ exists key raw, In (key, raw) dataset /\ v = decode raw).
Proof.
  induction dataset as [|[key raw] dataset IH]; intros output out H.
  - inversion H; subst. repeat split; trivial. intros. now left.
  - cbn [getDataset_loop getDataset_step] in H.
    destruct (output_key prefix key) as [[k'|]|e]; try discriminate.
    + destruct (String.eqb k' "") eqn:Ek.
      * destruct (IH _ _ H) as (H1 & H2 & H3). split; [exact H1|]. split; [exact H2|].
        intros k v Hin. destruct (H3 k v Hin) as [Ho|(k0 & r0 & Hi & Hv)]; [now left|].
        right. exists k0, r0. split; [now right | exact Hv].
      * destruct (IH _ _ H) as (H1 & H2 & H3). split; [|split].
        -- intros Hnd. apply H1. now apply obj_assign_NoDup.
        -- intros Hne. apply H2. intros Hin. apply obj_assign_keys in Hin.
           destruct Hin as [He|Hi]; [|tauto]. subst k'. discriminate.
        -- intros k v Hin. destruct (H3 k v Hin) as [Ho|(k0 & r0 & Hi & Hv)].
           ++ apply obj_assign_In in Ho. destruct Ho as [[_ ->]|Ho]; [|now left].
              right. exists key, raw. split; [now left | reflexivity].
           ++ right. exists k0, r0. split; [now right | exact Hv].
    + destruct (IH _ _ H) as (H1 & H2 & H3). split; [exact H1|]. split; [exact H2|].
      intros k v Hin. destruct (H3 k v Hin) as [Ho|(k0 & r0 & Hi & Hv)]; [now left|].
      right. exists k0, r0. split; [now right | exact Hv].
Qed.

(** X29: for every prefix, metacharacters included, and on every
    host: when [getDataset] returns, its keys are distinct, none is
    empty, and each value is the decoded raw value of some entry of
    the source. *)
Theorem getDataset_well_formed (obj : option (list (string * string)))
    (prefix : option string) (out : list (string * value)) :
  getDataset obj prefix = Ok out ->
  NoDup (map fst out)
  /\ ~ In "" (map fst out)
  /\ forall k v, In (k, v) out ->
       exists src key raw, obj = Some src /\ In (key, raw) src /\ v = decode raw.
Proof.
  unfold getDataset. intros H.
  destruct (getDataset_loop_invariant prefix _ [] out H) as (H1 & H2 & H3).
  split; [apply H1; constructor|]. split; [apply H2; tauto|].
  intros k v Hin. destruct (H3 k v Hin) as [[]|(key & raw & Hi & Hv)].
  destruct obj as [src|]; [|destruct Hi]. exists src, key, raw. now repeat split.
Qed.

End FurtherProperties.

(** ** The expression of [parseISODate] *)

Lemma string_forall_app (p : ascii -> bool) (s1 s2 : string) :
  string_forall p (s1 ++ s2)%string = (string_forall p s1 && string_forall p s2)%bool.
Proof.
  induction s1 as [|a s1 IH]; [reflexivity|]. simpl. now rewrite IH, andb_assoc.
Qed.

Lemma string_forall_impl (p q : ascii -> bool) (s : string) :
  (forall a, p a = true -> q a = true) ->
  string_forall p s = true -> string_forall q s = true.
Proof.
  intros Hpq. induction s as [|a s IH]; [reflexivity|]. simpl. intros H.
  apply andb_prop in H. destruct H as [Ha Hs]. now rewrite (Hpq a Ha), IH.
Qed.

Lemma string_length_app (s1 s2 : string) :
  String.length (s1 ++ s2)%string = String.length s1 + String.length s2.
Proof. induction s1 as [|a s1 IH]; [reflexivity|]. simpl. now rewrite IH. Qed.

Lemma string_app_assoc (s1 s2 s3 : string) :
  ((s1 ++ s2) ++ s3 = s1 ++ (s2 ++ s3))%string.
Proof. induction s1 as [|a s1 IH]; [reflexivity|]. simpl. now rewrite IH. Qed.

Lemma string_app_nil (s : string) : (s ++ "")%string = s.
Proof. induction s as [|a s IH]; [reflexivity|]. simpl. now rewrite IH. Qed.

(** What a successful match has consumed when it hands over to its
    continuation: at least [regex_min] characters, each of them one
    the expression can read. *)
Lemma rmatch_consumes (r : regex) :
  forall s c k m,
    rmatch r s c k = Some m ->
    exists pre s' c',
      s = (pre ++ s')%string
      /\ k s' c' = Some m
      /\ regex_min r <= String.length pre
      /\ string_forall (regex_char r) pre = true.
Proof.
  induction r as [|a|lo hi|r1 IH1 r2 IH2|r1 IH1 r2 IH2|r1 IH1|r1 IH1|n r1 IH1];
    intros s c k m H.
  - exists ""%string, s, c. simpl in *. repeat split; trivial.
  - simpl in H. destruct s as [|b rest]; [discriminate|].
    destruct (Ascii.eqb a b) eqn:E; [|discriminate].
    exists (String b ""), rest, c. simpl. rewrite E. repeat split; trivial.
  - simpl in H. destruct s as [|b rest]; [discriminate|].
    destruct (char_between lo hi b) eqn:E; [|discriminate].
    exists (String b ""), rest, c. simpl. rewrite E. repeat split; trivial.
  - cbn [rmatch] in H.
    destruct (IH1 _ _ _ _ H) as (p1 & s1 & c1 & E1 & K1 & L1 & F1).
    destruct (IH2 _ _ _ _ K1) as (p2 & s2 & c2 & E2 & K2 & L2 & F2).
    exists (p1 ++ p2)%string, s2, c2. split; [subst; now rewrite string_app_assoc|].
    split; [exact K2|]. split.
    + rewrite string_length_app. cbn [regex_min]. lia.
    + rewrite string_forall_app. cbn [regex_char].
      rewrite (string_forall_impl (regex_char r1) _ p1), (string_forall_impl (regex_char r2) _ p2);
        trivial; intros a Ha; rewrite Ha; trivial; apply orb_true_r.
  - cbn [rmatch] in H. destruct (rmatch r1 s c k) as [m1|] eqn:E.
    + destruct (IH1 _ _ _ _ E) as (p & s' & c' & E1 & K1 & L1 & F1).
      exists p, s', c'. split; [exact E1|]. split; [congruence|]. split.
      * cbn [regex_min]. lia.
      * apply (string_forall_impl (regex_char r1)); trivial.
        intros a Ha. cbn [regex_char]. now rewrite Ha.
    + destruct (IH2 _ _ _ _ H) as (p & s' & c' & E1 & K1 & L1 & F1).
      exists p, s', c'. split; [exact E1|]. split; [exact K1|]. split.
      * cbn [regex_min]. lia.
      * apply (string_forall_impl (regex_char r2)); trivial.
        intros a Ha. cbn [regex_char]. rewrite Ha. apply orb_true_r.
  - cbn [rmatch] in H. destruct (rmatch r1 s c k) as [m1|] eqn:E.
    + destruct (IH1 _ _ _ _ E) as (p & s' & c' & E1 & K1 & L1 & F1).
      exists p, s', c'. split; [exact E1|]. split; [congruence|]. split.
      * cbn [regex_min]. lia.
      * exact F1.
    + exists ""%string, s, c. repeat split; trivial.
  - cbn [rmatch] in H. revert H. generalize (String.length s) as fuel.
    intros fuel. revert s c. induction fuel as [|fuel IHf]; intros s c H.
    + exists ""%string, s, c. repeat split; trivial.
    + match type of H with
      | match ?scrut with _ => _ end = _ => destruct scrut as [m1|] eqn:E
      end.
      * destruct (IH1 _ _ _ _ E) as (p & s' & c' & E1 & K1 & L1 & F1).
        destruct (Nat.ltb (String.length s') (String.length s)); [|discriminate].
        assert (K1' : Some m1 = Some m) by exact H. inversion K1'; subst m1.
        destruct (IHf _ _ K1) as (p2 & s2 & c2 & E2 & K2 & L2 & F2).
        exists (p ++ p2)%string, s2, c2. split; [subst; now rewrite string_app_assoc|].
        split; [exact K2|]. split; [cbn [regex_min]; lia|].
        rewrite string_forall_app. apply andb_true_intro. split; [exact F1 | exact F2].
      * exists ""%string, s, c. repeat split; trivial.
  - cbn [rmatch] in H.
    destruct (IH1 _ _ _ _ H) as (p & s' & c' & E1 & K1 & L1 & F1).
    exists p, s', ((n, take (String.length s - String.length s') s) :: c').
    repeat split; trivial.
Qed.

Lemma iso_regex_char (a : ascii) : regex_char iso_regex a = iso_char a.
Proof.
  destruct a as [[] [] [] [] [] [] [] []]; vm_compute; reflexivity.
Qed.

(** X30: a string [parseISODate] turns into a date has at least
    eight characters, all of them digits or one of [-T:.Z+]: any
    other input gives [null], whatever the host's [Date] does. *)
Theorem parseISODate_shape {host : Host} (s : string) :
  parseISODate s <> VNull ->
  8 <= String.length s /\ string_forall iso_char s = true.
Proof.
  intros H. destruct (regex_exec iso_regex s) as [m|] eqn:E.
  - unfold regex_exec in E.
    destruct (rmatch_consumes _ _ _ _ _ E) as (p & s' & c' & E1 & K & L & F).
    destruct s'; [|discriminate]. rewrite string_app_nil in E1. subst p. split.
    + exact L.
    + apply (string_forall_impl (regex_char iso_regex)); trivial.
      intros a Ha. now rewrite <- iso_regex_char.
  - now apply parseISODate_no_match in E.
Qed.

(** * Runs on the reference host *)

#[local] Existing Instance reference_host.

(** C4, as stated, fails where [Date] is the one of V8: the
    thirtieth of February is no calendar date, yet the string passes
    the regular expression, the host reads it as the second of March,
    and the parser returns that Date, not null. *)
Lemma parseISODate_rollover :
  days_in_month 2021 2 = 28%Z
  /\ @Date_parse rollover_host "2021-02-30T00:00:00.000Z" = Some 1614643200000%Z
  /\ @parseISODate rollover_host "2021-02-30" = VDate (Some 1614643200000%Z)
  /\ @parseISODate rollover_host "2021-03-02" = VDate (Some 1614643200000%Z)
  /\ @parseISODate rollover_host "2021-02-30" <> VNull.
Proof.
  split; [reflexivity|]. split; [reflexivity|]. split; [reflexivity|].
  split; [reflexivity|]. vm_compute. discriminate.
Qed.

Lemma getDataset_spec_witness :
  NoDup (map fst [("vueTitle", "Hello"); ("vueCount", "42");
                  ("vue__proto__", "1"); ("other", "x")])
  /\ "vue" <> ""
  /\ literal_pattern "vue" = true
  /\ getDataset (Some [("vueTitle", "Hello"); ("vueCount", "42");
                       ("vue__proto__", "1"); ("other", "x")])
       (Some "vue")
     = Ok [("title", VStr "Hello"); ("count", VNum (Finite false 42 0))].
Proof.
  assert (Hnd : NoDup (map fst [("vueTitle", "Hello"); ("vueCount", "42");
                                ("vue__proto__", "1"); ("other", "x")])).
  { repeat constructor; simpl; intuition discriminate. }
  split; [exact Hnd|]. split; [discriminate|]. split; [reflexivity|].
  destruct (@getDataset_spec reference_host
              [("vueTitle", "Hello"); ("vueCount", "42");
               ("vue__proto__", "1"); ("other", "x")] "vue" Hnd)
    as ((out & H1 & _ & H3 & _) & _); [discriminate | reflexivity |].
  rewrite H1, H3; [reflexivity|].
  vm_compute. repeat constructor; simpl; intuition discriminate.
Defined.

(** C5, as stated, fails on the empty prefix: every key starts with
    it, yet the first character is not lower-cased. *)
Lemma getDataset_empty_prefix :
  getDataset (Some [("Title", "x")]) (Some "") = Ok [("Title", VStr "x")]
  /\ claimed_dataset "" [("Title", "x")] = [("title", VStr "x")]
  /\ getDataset (Some [("Title", "x")]) (Some "")
     <> Ok (claimed_dataset "" [("Title", "x")]).
Proof.
  split; [reflexivity|]. split; [reflexivity|]. vm_compute. discriminate.
Qed.

(** C6, as stated, fails: a value no declared candidate converts is
    not omitted, its key is bound to null (a string that is no date)
    or to undefined (a string that is no JSON). *)
Lemma parseVueProps_binds_null :
  convertString (VStr "soon") (VArr [VCtor Date]) = (Ok VNull, [])
  /\ parseVueProps (VObj [("date", VCtor Date); ("items", VCtor Array)])
       (VObj [("date", VStr "soon"); ("items", VStr "a,b")])
     = (Ok (VObj [("date", VNull); ("items", VUndefined)]),
        [ConsoleLog (SyntaxError "a,b")])
  /\ obj_has "date" [("date", VNull); ("items", VUndefined)] = true.
Proof. repeat split; reflexivity. Qed.

Lemma parseVueProps_keeps_unconverted_witness :
  NoDup (map fst [("date", VCtor Date); ("title", VCtor String_)])
  /\ forallb (fun d => callable_types (snd d))
       [("date", VCtor Date); ("title", VCtor String_)] = true
  /\ plain_props (VObj [("date", VStr "soon"); ("title", VStr "")]) = true
  /\ forallb (fun d => negb (inherited_name (fst d)))
       [("date", VCtor Date); ("title", VCtor String_)] = true
  /\ exists log,
      parseVueProps (VObj [("date", VCtor Date); ("title", VCtor String_)])
        (VObj [("date", VStr "soon"); ("title", VStr "")])
      = (Ok (VObj [("date", VNull)]), log).
Proof.
  assert (Hnd : NoDup (map fst [("date", VCtor Date); ("title", VCtor String_)])).
  { repeat constructor; simpl; intuition discriminate. }
  split; [exact Hnd|]. split; [reflexivity|]. split; [reflexivity|].
  split; [reflexivity|].
  destruct (@parseVueProps_keeps_unconverted reference_host
              [("date", VCtor Date); ("title", VCtor String_)]
              (VObj [("date", VStr "soon"); ("title", VStr "")])
              Hnd eq_refl eq_refl eq_refl)
    as [[log H] _].
  exists log. exact H.
Defined.

(** C7, as stated, fails when a sibling does not mount.  With one
    name the registry lacks and one registered factory that throws,
    the scan rejects and records nothing; with a sibling whose props
    cannot be built, the scan records two entries, none of them a
    mounted instance. *)
Lemma initVueComponents_broken_sibling :
  unregistered sample_app (marker 1 "Missing" []) = true
  /\ unregistered sample_app (marker 2 "Broken" []) = false
  /\ fst (initVueComponents sample_app
            (Some [marker 1 "Missing" []; marker 2 "Broken" []]))
     = (Rejected (VError "Error" "boom"), sample_app)
  /\ unregistered sample_widgets (marker 1 "Missing" []) = true
  /\ unregistered sample_widgets (marker 2 "Picker" [("date", "2021-11-26")]) = false
  /\ fst (initVueComponents sample_widgets
            (Some [marker 1 "Missing" []; marker 2 "Picker" [("date", "2021-11-26")]]))
     = (Fulfilled VUndefined,
        {| registry := registry sample_widgets;
           vueComponents := Some [VUndefined; Picker] |})
  /\ length (filter is_mounted [VUndefined; Picker]) = 0.
Proof. repeat split; reflexivity. Qed.

Lemma initVueComponents_counts_witness :
  unregistered sample_app (marker 2 "Missing" []) = true
  /\ inherited_name "Missing" = false
  /\ forallb (mounts sample_app) [marker 1 "Countdown" [("title", "Sale")]] = true
  /\ forallb (mounts sample_app) [marker 3 "Countdown" []] = true
  /\ exists newComponents log,
      initVueComponents sample_app
        (Some [marker 1 "Countdown" [("title", "Sale")];
               marker 2 "Missing" [];
               marker 3 "Countdown" []])
      = ((Fulfilled VUndefined,
          {| registry := registry sample_app;
             vueComponents := Some newComponents |}), log)
      /\ length newComponents = 3
      /\ length (filter is_mounted newComponents) = 2.
Proof.
  split; [reflexivity|]. split; [reflexivity|]. split; [reflexivity|].
  split; [reflexivity|].
  destruct (@initVueComponents_counts reference_host sample_app) as [_ H].
  destruct (H [marker 1 "Countdown" [("title", "Sale")]]
              (marker 2 "Missing" [])
              [marker 3 "Countdown" []] eq_refl eq_refl eq_refl eq_refl)
    as (_ & newComponents & log & H1 & H2 & _ & H4).
  exists newComponents, log. split; [exact H1|]. split; [exact H2 | exact H4].
Defined.

Lemma loadDynamicImport_concrete_witness :
  is_function Countdown = false
  /\ is_thenable Countdown = false
  /\ has_default Countdown = false
  /\ loadDynamicImport Countdown None = (Fulfilled Countdown, []).
Proof.
  split; [reflexivity|]. split; [reflexivity|]. split; [reflexivity|].
  apply (@loadDynamicImport_concrete reference_host Countdown); reflexivity.
Defined.

Lemma convertString_guard_witness :
  is_string (VNum (Finite false 42 0)) = false
  /\ convertString (VNum (Finite false 42 0)) (VArr [VCtor Number]) = (Ok VNull, [])
  /\ is_nonempty_array (VArr []) = false
  /\ convertString (VStr "42") (VArr []) = (Ok VNull, [])
  /\ requestedTypes_of (VObj [("default", VStr "none")]) = VUndefined
  /\ truthy (get_opt (VObj [("label", VStr "raw")]) "label") = true
  /\ parseVueProps (VObj [("label", VObj [("default", VStr "none")])])
       (VObj [("label", VStr "raw")])
     = (Ok (VObj [("label", VNull)]), []).
Proof.
  destruct (@convertString_guard reference_host) as (H1 & H2 & H3).
  split; [reflexivity|]. split; [apply H1; reflexivity|].
  split; [reflexivity|]. split; [apply H2; reflexivity|].
  split; [reflexivity|]. split; [reflexivity|].
  apply (H3 (VObj [("label", VStr "raw")]) "label" (VObj [("default", VStr "none")]));
    reflexivity.
Defined.

(** ** Runs of the further helpers *)

Lemma initCache_entries_witness :
  exists this',
    initCache sample_query sample_module = (this', None)
    /\ obj_get "title" (elements_ this') = Some (Single 1)
    /\ obj_get "items" (elements_ this') = Some (Several [2; 3])
    /\ obj_get "missing" (elements_ this') = None.
Proof.
  destruct (initCache_entries sample_query sample_module)
    as (this' & E & _ & _ & Hin & _).
  - repeat constructor; simpl; intuition discriminate.
  - intros key selector [H|[H|[H|[]]]]; inversion H; eexists; reflexivity.
  - exists this'. split; [exact E|].
    split; [apply (Hin "title" ".title" [1]); [simpl; tauto | reflexivity]|].
    split; [apply (Hin "items" ".item" [2; 3]); [simpl; tauto | reflexivity]|].
    apply (Hin "missing" ".none" []); [simpl; tauto | reflexivity].
Defined.

Lemma init_idempotent_witness :
  init sample_query (fst (init sample_query sample_module))
  = init sample_query sample_module.
Proof.
  apply (init_idempotent sample_query sample_module).
  - repeat constructor; simpl; intuition discriminate.
  - intros key selector [H|[H|[H|[]]]]; inversion H; eexists; reflexivity.
Defined.

Lemma initCache_throws_witness :
  initCache sample_query sample_broken_module
  = ({| el_ := None; cache_ := cache_ sample_broken_module;
        elements_ := [("title", Single 1)] |},
     Some (SyntaxError "li(")).
Proof.
  apply (initCache_throws sample_query sample_broken_module _
           [("title", ".title")] [("items", ".item")] "bad" "li("); reflexivity.
Defined.

Lemma removeClass_filter_witness :
  exists st',
    removeClass (Elements [1; 2]) ["open"] sample_classes = (st', None)
    /\ st' 1 = ["card"] /\ st' 2 = ["card"] /\ st' 3 = [].
Proof.
  destruct (removeClass_filter [1; 2] ["open"] sample_classes eq_refl)
    as (st' & E & H).
  exists st'. split; [exact E|]. repeat split; rewrite H; reflexivity.
Defined.

Lemma addClass_contains_witness :
  exists st',
    addClass (Elements [1; 2]) ["open"; "wide"] sample_classes = (st', None)
    /\ st' 3 = []
    /\ has_class "wide" (st' 2) = true.
Proof.
  destruct (addClass_contains [1; 2] ["open"; "wide"] sample_classes eq_refl)
    as (st' & E & Hout & Hin).
  exists st'. split; [exact E|]. split; [apply (Hout 3); reflexivity|].
  destruct (Hin 2 eq_refl) as (extra & _ & _ & Hc). rewrite Hc. reflexivity.
Defined.

Lemma removeClass_after_addClass_witness :
  exists st',
    removeClass (Elements [1; 2]) ["wide"]
      (fst (addClass (Elements [1; 2]) ["wide"] sample_classes)) = (st', None)
    /\ forall j, st' j = sample_classes j.
Proof.
  apply (removeClass_after_addClass [1; 2] ["wide"] sample_classes eq_refl).
  intros j t Hj Ht. simpl in Ht. rewrite orb_false_r in Ht.
  apply String.eqb_eq in Ht. subst t. simpl in Hj.
  destruct j as [|[|[|j]]]; [discriminate | reflexivity | reflexivity | discriminate].
Defined.

Lemma toggleClass_twice_witness :
  exists st1 st2,
    toggleClass (Elements [1; 2; 1]) ["open"; "wide"] sample_classes = (st1, None)
    /\ toggleClass (Elements [1; 2; 1]) ["open"; "wide"] st1 = (st2, None)
    /\ forall j t, has_class t (st2 j) = has_class t (sample_classes j).
Proof.
  apply (toggleClass_twice [1; 2; 1] ["open"; "wide"] sample_classes eq_refl).
Defined.

Lemma setClass_sets_witness :
  exists st',
    setClass (Elements [1; 2]) false ["open"] sample_classes = (st', None)
    /\ has_class "open" (st' 1) = false
    /\ has_class "card" (st' 1) = true.
Proof.
  destruct (setClass_sets [1; 2] false ["open"] sample_classes eq_refl)
    as (st' & E & H).
  exists st'. split; [exact E|]. split; rewrite H; reflexivity.
Defined.

Lemma class_helpers_invalid_witness :
  addClass (Elements [2; 1]) ["wide"; "a b"; "open"] sample_classes
  = (set_classes sample_classes 2 ["card"; "wide"],
     Some (VError "InvalidCharacterError" "a b")).
Proof.
  destruct (class_helpers_invalid classList_add 2 [1] ["wide"] "a b" ["open"]
              (VError "InvalidCharacterError" "a b") sample_classes
              eq_refl eq_refl) as [H _].
  exact H.
Defined.

Lemma isInViewport_full_partial_witness :
  isInViewport Z 0%Z Z.add Z.sub Z.mul Z.ltb Z.leb (fun z => negb (Z.eqb z 0))
    {| r_top := 10%Z; r_right := 110%Z; r_bottom := 60%Z; r_left := 10%Z;
       r_height := 50%Z; r_width := 100%Z |}
    800%Z 0%Z 1200%Z 0%Z true None = true.
Proof.
  apply (isInViewport_full_partial Z 0%Z Z.add Z.sub Z.mul Z.ltb Z.leb
           (fun z => negb (Z.eqb z 0))).
  reflexivity.
Defined.

Lemma initializeModule_class_witness :
  initializeModule sample_construct sample_init_method sample_class None
  = (Fulfilled (VObj [("$cache", VObj []); ("$elements", VObj [])]), []).
Proof.
  apply (@initializeModule_class reference_host sample_construct sample_init_method
           sample_class None); try reflexivity.
  intros include H. inversion H. reflexivity.
Defined.

Lemma convertString_last_wins_witness :
  fst (convertString (VStr "42") (VArr [VCtor Boolean; VCtor Number; VCtor String_]))
  = Ok (VStr "42").
Proof.
  destruct (@convertString_last_wins reference_host "42"
              [VCtor Boolean; VCtor Number; VCtor String_])
    as (_ & H & _); [discriminate | reflexivity |].
  apply (H [VCtor Boolean; VCtor Number]). reflexivity.
Defined.

Lemma convertString_stops_witness :
  convertString (VStr "2021-11-26") (VArr [VCtor Date; VCtor String_])
  = (Ok (parseISODate "2021-11-26"), [])
  /\ convertString (VStr "[1]") (VArr [VCtor Array; VCtor String_])
     = (Ok (VArr [VNum (Finite false 1 0)]), []).
Proof.
  destruct (@convertString_stops reference_host "2021-11-26" [VCtor String_])
    as (H1 & _).
  destruct (@convertString_stops reference_host "[1]" [VCtor String_])
    as (_ & H2 & _).
  split; [apply H1; reflexivity|].
  apply (H2 [VNum (Finite false 1 0)]). reflexivity.
Defined.

Lemma convertString_throws_witness :
  fst (convertString (VStr "x") (VArr [VCtor Number; VStr "Number"; VCtor String_]))
  = Err (TypeError "Right-hand side of 'instanceof' is not callable").
Proof.
  destruct (@convertString_throws reference_host "x") as (_ & H).
  apply (H [VCtor Number] (VStr "Number") [VCtor String_]); reflexivity.
Defined.

Lemma parseVueProps_declared_witness :
  exists out defs,
    VObj [("title", VStr "Sale")] = VObj out
    /\ entries (VObj [("title", VCtor String_); ("date", VCtor Date)]) = Ok defs
    /\ NoDup (map fst out)
    /\ forall k, In k (map fst out) ->
         In k (map fst defs)
         /\ truthy (get_opt (VObj [("title", VStr "Sale"); ("other", VStr "x")]) k) = true.
Proof.
  apply (@parseVueProps_declared reference_host
           (VObj [("title", VCtor String_); ("date", VCtor Date)])
           (VObj [("title", VStr "Sale"); ("other", VStr "x")])
           (VObj [("title", VStr "Sale")]) []).
  reflexivity.
Defined.

Lemma parseVueProps_array_declaration_witness :
  parseVueProps (VArr [VStr "title"; VStr "date"]) (VObj [("title", VStr "Sale")])
  = (Ok (VObj []), []).
Proof.
  apply (@parseVueProps_array_declaration reference_host).
  intros j Hj. destruct j as [|[|j]]; [reflexivity | reflexivity | simpl in Hj; lia].
Defined.

Lemma undeclared_props_pass_raw_witness :
  branch sample_widgets (marker 1 "Banner" [("title", "42")])
  = Fulfilled (VVue 1 Banner (VObj [("title", VStr "42")])).
Proof.
  destruct (@undeclared_props_pass_raw reference_host sample_widgets
              (marker 1 "Banner" [("title", "42")]) "Banner"
              [("name", VStr "banner")]) as (H & _);
    [reflexivity | reflexivity | reflexivity | reflexivity | exact H].
Defined.

Lemma props_error_unmounted_witness :
  branch sample_widgets (marker 1 "Picker" [("date", "2021-11-26")]) = Fulfilled Picker
  /\ mounts sample_widgets (marker 1 "Picker" [("date", "2021-11-26")]) = false.
Proof.
  apply (@props_error_unmounted reference_host sample_widgets
           (marker 1 "Picker" [("date", "2021-11-26")]) "Picker"
           [("props", VObj [("date", VObj [("type", VArr [VCtor Date; VCtor String_])])])]
           (TypeError "Right-hand side of 'instanceof' is not callable"));
    reflexivity.
Defined.

Lemma initVueComponents_unsettled_witness :
  exists e,
    fst (initVueComponents sample_app
           (Some [marker 1 "Countdown" []; marker 2 "Broken" []]))
    = (Rejected e, sample_app).
Proof.
  destruct (@initVueComponents_unsettled reference_host sample_app
              [marker 1 "Countdown" []; marker 2 "Broken" []]) as (H & _).
  destruct (H eq_refl) as (e & He & _). exists e. exact He.
Defined.

Lemma initVueComponents_in_order_witness :
  fst (initVueComponents sample_widgets
         (Some [marker 1 "Banner" []; marker 2 "Missing" []; marker 3 "Banner" []]))
  = (Fulfilled VUndefined,
     {| registry := registry sample_widgets;
        vueComponents :=
          Some [VVue 1 Banner (VObj []); VUndefined; VVue 3 Banner (VObj [])] |}).
Proof.
  apply (@initVueComponents_in_order reference_host sample_widgets
           [marker 1 "Banner" []; marker 2 "Missing" []; marker 3 "Banner" []]).
  reflexivity.
Defined.

Lemma loadJSFile_inserts_first_witness :
  page (snd (loadJSFile (VStr "/vendor.js") (VBool true) sample_loader))
  = {| head := [Other "title"];
       body := [Other "div"; Script "/vendor.js" true; Script "/app.js" false] |}
  /\ first_script (page (snd (loadJSFile (VStr "/vendor.js") (VBool true) sample_loader)))
     = Some (Script "/vendor.js" true).
Proof.
  split; [reflexivity|].
  destruct (@loadJSFile_inserts_first reference_host (VStr "/vendor.js") (VBool true)
              sample_loader "/vendor.js" (Script "/app.js" false)) as (H & _);
    [reflexivity | reflexivity | reflexivity | exact H].
Defined.

Lemma getDataset_well_formed_witness :
  getDataset (Some [("vueTitle", "Hello"); ("vue", "x"); ("vueCount", "42")]) (Some "vue")
  = Ok [("title", VStr "Hello"); ("count", VNum (Finite false 42 0))]
  /\ NoDup (map fst [("title", VStr "Hello"); ("count", VNum (Finite false 42 0))])
  /\ ~ In "" (map fst [("title", VStr "Hello"); ("count", VNum (Finite false 42 0))]).
Proof.
  split; [reflexivity|].
  destruct (@getDataset_well_formed reference_host
              (Some [("vueTitle", "Hello"); ("vue", "x"); ("vueCount", "42")]) (Some "vue")
              [("title", VStr "Hello"); ("count", VNum (Finite false 42 0))] eq_refl)
    as (H1 & H2 & _).
  split; assumption.
Defined.

Lemma parseISODate_shape_witness :
  parseISODate "2021-11-26" <> VNull
  /\ 8 <= String.length "2021-11-26"
  /\ string_forall iso_char "2021-11-26" = true.
Proof.
  assert (H : parseISODate "2021-11-26" <> VNull) by (vm_compute; discriminate).
  split; [exact H|]. apply (@parseISODate_shape reference_host "2021-11-26" H).
Defined.
